(** * Verification of the booking-engine tracking scripts (public/script.js)

  The file embeds the self-contained scripts of [public/script.js] one
  module per script and proves (or refutes) the properties the
  specification states about them.

  - [JsString]  : the string and regular-expression operations the scripts use.
  - [Timers]    : the browser's timer table (setTimeout, setInterval, clear).
  - [Purchase]  : script 1, purchase tracking on the confirmation page.
  - [Funnel]    : script 2, [getPriceValue].
  - [Payment]   : script 3, [trackPaymentSubmitClick] and [trackPaymentError].
  - [Badge]     : script 4, [buildDealBadge], on IEEE-754 binary64 numbers.
  - [Banner]    : script 5, the cancellation banner watcher.
  - [HistoryHook] : the wrappers every script installs around
                  [history.pushState] and [history.replaceState].

  - [Regex]     : a backtracking matcher for the patterns of the scripts.
  - [PurchaseTrace], [Cookies], [FunnelTrace], [PaymentTrace],
    [BannerTrace] : what the traces of scripts 1, 2, 3 and 5 look like.
  - [DepositRewrite] : script 7, [parsePrice] and [applyDepositChanges].
  - [SecurityMessage] : script 8, the security message on the payment page.
  - [DepositClarification] : script 6, [attemptInsertionLogic] and its watch.
  - [ReservationText] : the paragraph script 1 reads the reservation number from.
  - [PaymentEvents] : script 3, the senders of the payment events.

  The modules [PurchaseSpec], [FunnelSpec], [PaymentSpec], [PollSpec],
  [BannerSpec], [HistoryHookSpec] and [BadgeSpec] hold the properties the
  specification states; [RegexSpec], [PurchaseTraceSpec], [CookiesSpec],
  [FunnelTraceSpec], [PaymentTraceSpec], [BannerTraceSpec],
  [DepositRewriteSpec], [SecurityMessageSpec],
  [DepositClarificationSpec], [ReservationTextSpec] and
  [PaymentEventsSpec] hold further properties of the code.

  Conventions.  The DOM is owned by the host page, so every handler takes
  the page it observes as an argument.  Timer identifiers are [positive]:
  the handles returned by [setTimeout]/[setInterval] are integers greater
  than zero, hence truthy.  Console output is modelled only where a
  property counts it. *)

From Stdlib Require Import ZArith NArith Ascii String List Lia.
From Stdlib Require Import Floats.SpecFloat.
From stdpp Require Import gmap strings list.


(* ================================================================== *)
(** * String operations of the scripts *)
(* ================================================================== *)

Module JsString.
#[local] Open Scope string_scope.

Definition code (c : ascii) : N := N_of_ascii c.

(** [\d] (without the unicode flag): the ten ASCII digits. *)
Definition is_digit (c : ascii) : bool :=
  ((48 <=? code c) && (code c <=? 57))%N.

Definition is_upper (c : ascii) : bool :=
  ((65 <=? code c) && (code c <=? 90))%N.

Definition is_lower (c : ascii) : bool :=
  ((97 <=? code c) && (code c <=? 122))%N.

(** The class [[A-Z0-9-]] under the [i] flag. *)
Definition is_id_char (c : ascii) : bool :=
  is_upper c || is_lower c || is_digit c || (code c =? 45)%N.

(** [s.includes(needle)]. *)
Fixpoint includes (needle s : string) : bool :=
  String.prefix needle s ||
  match s with
  | EmptyString => false
  | String _ rest => includes needle rest
  end.

Fixpoint take_while (f : ascii -> bool) (s : string) : string :=
  match s with
  | EmptyString => EmptyString
  | String c rest => if f c then String c (take_while f rest) else EmptyString
  end.

Fixpoint drop_while (f : ascii -> bool) (s : string) : string :=
  match s with
  | EmptyString => EmptyString
  | String c rest => if f c then drop_while f rest else s
  end.

(** [s.match(/#([A-Z0-9-]+)/i)], capture group 1: the maximal run of
    class characters after the leftmost [#] that is followed by one. *)
Fixpoint match_hash_id (s : string) : option string :=
  match s with
  | EmptyString => None
  | String c rest =>
      if (code c =? 35)%N then
        match take_while is_id_char rest with
        | EmptyString => match_hash_id rest
        | run => Some run
        end
      else match_hash_id rest
  end.

(** [s.match(/\d+\.\d{2}/)], element 0, split into its integer digits
    and its two decimals.  At a start position the greedy [\d+] takes the
    whole digit run; giving digits back cannot help, the next character
    would be a digit and not the dot. *)
Fixpoint match_amount (s : string) : option (string * (ascii * ascii)) :=
  match s with
  | EmptyString => None
  | String c rest =>
      if is_digit c then
        match drop_while is_digit s with
        | String dot (String d1 (String d2 _)) =>
            if (code dot =? 46)%N && is_digit d1 && is_digit d2
            then Some (take_while is_digit s, (d1, d2))
            else match_amount rest
        | _ => match_amount rest
        end
      else match_amount rest
  end.

Definition digit_val (c : ascii) : N := (code c - 48)%N.

Fixpoint digits_val_from (acc : N) (s : string) : N :=
  match s with
  | EmptyString => acc
  | String c rest => digits_val_from (10 * acc + digit_val c)%N rest
  end.

(** The decimal value of a [\d+\.\d{2}] match, in hundredths. *)
Definition amount_cents (m : string * (ascii * ascii)) : N :=
  (100 * digits_val_from 0 (fst m)
   + 10 * digit_val (fst (snd m)) + digit_val (snd (snd m)))%N.

(** [s.split(';')]. *)
Fixpoint split_semicolon_from (cur : string) (s : string) : list string :=
  match s with
  | EmptyString => [String.rev cur]
  | String c rest =>
      if (code c =? 59)%N
      then String.rev cur :: split_semicolon_from EmptyString rest
      else split_semicolon_from (String c cur) rest
  end.

Definition split_semicolon (s : string) : list string :=
  split_semicolon_from EmptyString s.

Definition is_space (c : ascii) : bool := (code c =? 32)%N.

(** A JavaScript string is truthy unless it is empty. *)
Definition truthy (s : string) : bool :=
  match s with EmptyString => false | _ => true end.

End JsString.

(* ================================================================== *)
(** * The browser's timer table *)
(* ================================================================== *)

Module Timers.

(** A pending timer: the callback (a closure of the script, given by
    its kind and captured variables), the delay in milliseconds, and
    whether it repeats ([setInterval]) or fires once ([setTimeout]). *)
Record timer (C : Type) : Type :=
  Timer { callback : C; delay : nat; repeating : bool }.
Arguments Timer {C} _ _ _.
Arguments callback {C} _.
Arguments delay {C} _.
Arguments repeating {C} _.

Record table (C : Type) : Type :=
  Table { live : gmap positive (timer C); next_id : positive }.
Arguments Table {C} _ _.
Arguments live {C} _.
Arguments next_id {C} _.

Definition empty {C} : table C := Table ∅ 1%positive.

Definition add {C} (t : timer C) (tb : table C) : positive * table C :=
  (next_id tb, Table (<[next_id tb := t]> (live tb)) (Pos.succ (next_id tb))).

(** [setTimeout(cb, ms)] *)
Definition setTimeout {C} (cb : C) (ms : nat) (tb : table C) :=
  add (Timer cb ms false) tb.

(** [setInterval(cb, ms)] *)
Definition setInterval {C} (cb : C) (ms : nat) (tb : table C) :=
  add (Timer cb ms true) tb.

(** [clearTimeout(h)] / [clearInterval(h)]; a handle that is [null] or
    [undefined] clears nothing. *)
Definition clear {C} (h : option positive) (tb : table C) : table C :=
  match h with
  | Some id => Table (delete id (live tb)) (next_id tb)
  | None => tb
  end.

(** The browser picks timer [id] to run: a one-shot timer leaves the
    table before its callback runs, an interval stays. *)
Definition take {C} (id : positive) (tb : table C) : option (C * table C) :=
  match live tb !! id with
  | None => None
  | Some t =>
      Some (callback t,
            if repeating t then tb
            else Table (delete id (live tb)) (next_id tb))
  end.

Definition pending {C} (id : positive) (tb : table C) : bool :=
  bool_decide (is_Some (live tb !! id)).

End Timers.

(** Completion of a call: it returns a value or throws. *)
Inductive completion (A : Type) : Type :=
| Normal (a : A)
| Throw.
Arguments Normal {A} _.
Arguments Throw {A}.

(* ================================================================== *)
(** * Script 1: purchase tracking on the confirmation page *)
(* ================================================================== *)

Module Purchase.
#[local] Open Scope string_scope.
Import JsString.

(** The third-party pixel function [fbq] as the script sees it:
    [typeof fbq === 'function'] or not, and if it is, whether a call
    returns or throws. *)
Inductive Fbq := FbqUndefined | FbqReturns | FbqThrows.

(** What the script reads from the host page when a handler runs. *)
Record Page := {
  href : string;                   (* window.location.href *)
  cookie : string;                 (* document.cookie *)
  userAgent : string;              (* navigator.userAgent *)
  be_text_paragraphs : list string;
    (* textContent of each p[data-be-text="true"], in document order *)
  summary_grand_total : option string;
    (* textContent of the first
       p[data-testid="shopping-cart-summary-grand-total"], if any *)
  fbq : Fbq
}.

Fixpoint string_drop (n : nat) (s : string) : string :=
  match n, s with
  | O, _ => s
  | S k, String _ rest => string_drop k rest
  | S _, EmptyString => EmptyString
  end.

Fixpoint getCookie_loop (nameEQ : string) (ca : list string) : option string :=
  match ca with
  | [] => None
  | c :: rest =>
      let c := drop_while is_space c in
      if String.prefix nameEQ c
      then Some (string_drop (String.length nameEQ) c)
      else getCookie_loop nameEQ rest
  end.

Definition getCookie (name : string) (p : Page) : option string :=
  getCookie_loop (name ++ "=")%string (split_semicolon (cookie p)).

Fixpoint getReservationIdFromPageText_loop (ps : list string) : option string :=
  match ps with
  | [] => None
  | elementText :: rest =>
      if truthy elementText && includes "reservation number is #" elementText
      then match match_hash_id elementText with
           | Some id => Some id
           | None => getReservationIdFromPageText_loop rest
           end
      else getReservationIdFromPageText_loop rest
  end.

(** [null] is [None].  The captured run has no white space, so [trim]
    leaves it as it is. *)
Definition getReservationIdFromPageText (p : Page) : option string :=
  getReservationIdFromPageText_loop (be_text_paragraphs p).

(** The amount is a decimal literal with two decimals; its value is kept
    exactly, in hundredths.  The script only tests it for truthiness
    (a parsed literal is falsy exactly when it is zero) and copies it
    into the payloads. *)
Definition getTotalAmount (p : Page) : option N :=
  match summary_grand_total p with
  | None => None
  | Some text =>
      match match_amount text with
      | Some m => Some (amount_cents m)
      | None => None
      end
  end.

Record ZapierPayload := {
  cloudbeds_reservation_id : string;
  zp_fbc : option string;
  zp_fbp : option string;
  client_user_agent : string;
  client_event_source_url : string;
  zp_value : N
}.

Record PixelData := {
  event_id : string;
  event_source_url : string;
  px_value : N
}.

(** Calls that leave the page. *)
Inductive Effect :=
| Fetch (url : string) (body : ZapierPayload)   (* fetch(url, {method:'POST', ...}) *)
| PixelPurchase (data : PixelData).             (* fbq('track', 'Purchase', data) *)

Inductive Callback :=
| IntervalCheck             (* the arrow function given to setInterval *)
| CheckConfirmationPage.    (* checkConfirmationPage given to setTimeout *)

Record State := {
  purchaseEventFired : bool;                     (* window.__purchaseEventFired *)
  purchaseEventCheckInterval : option positive;  (* window.__purchaseEventCheckInterval *)
  timers : Timers.table Callback;
  effects : list Effect;                         (* oldest first *)
  uncaught : nat                                 (* exceptions reported by the browser *)
}.

Definition initial : State :=
  {| purchaseEventFired := false; purchaseEventCheckInterval := None;
     timers := Timers.empty; effects := []; uncaught := 0 |}.

Definition emit (e : Effect) (s : State) : State :=
  {| purchaseEventFired := purchaseEventFired s;
     purchaseEventCheckInterval := purchaseEventCheckInterval s;
     timers := timers s; effects := effects s ++ [e]; uncaught := uncaught s |}.

Definition set_fired (b : bool) (s : State) : State :=
  {| purchaseEventFired := b;
     purchaseEventCheckInterval := purchaseEventCheckInterval s;
     timers := timers s; effects := effects s; uncaught := uncaught s |}.

Definition set_interval_var (h : option positive) (s : State) : State :=
  {| purchaseEventFired := purchaseEventFired s;
     purchaseEventCheckInterval := h;
     timers := timers s; effects := effects s; uncaught := uncaught s |}.

Definition set_timers (tb : Timers.table Callback) (s : State) : State :=
  {| purchaseEventFired := purchaseEventFired s;
     purchaseEventCheckInterval := purchaseEventCheckInterval s;
     timers := tb; effects := effects s; uncaught := uncaught s |}.

Definition report_uncaught (s : State) : State :=
  {| purchaseEventFired := purchaseEventFired s;
     purchaseEventCheckInterval := purchaseEventCheckInterval s;
     timers := timers s; effects := effects s; uncaught := S (uncaught s) |}.

Definition zapierWebhookUrl : string :=
  "https://hooks.zapier.com/hooks/catch/23096608/uuwt2j6/".

Definition executeTrackingLogic (p : Page) (s : State) : completion bool * State :=
  match getReservationIdFromPageText p with
  | None => (Normal false, s)
  | Some reservationId =>
      if negb (truthy reservationId) then (Normal false, s) else
      match getTotalAmount p with
      | None => (Normal false, s)
      | Some value =>
          if (value =? 0)%N then (Normal false, s) else
          let fbc := getCookie "_fbc" p in
          let fbp := getCookie "_fbp" p in
          let zapierPayload :=
            {| cloudbeds_reservation_id := reservationId;
               zp_fbc := fbc; zp_fbp := fbp;
               client_user_agent := userAgent p;
               client_event_source_url := href p;
               zp_value := value |} in
          let s := emit (Fetch zapierWebhookUrl zapierPayload) s in
          let pixelData :=
            {| event_id := reservationId; event_source_url := href p;
               px_value := value |} in
          match fbq p with
          | FbqUndefined => (Normal true, s)
          | FbqReturns =>
              if negb (purchaseEventFired s)
              then (Normal true, set_fired true (emit (PixelPurchase pixelData) s))
              else (Normal true, s)
          | FbqThrows =>
              if negb (purchaseEventFired s)
              then (Throw, emit (PixelPurchase pixelData) s)
              else (Normal true, s)
          end
      end
  end.

(** The route predicate: [currentUrl.includes('/confirmation')]. *)
Definition on_confirmation (p : Page) : bool :=
  includes "/confirmation" (href p).

Definition checkConfirmationPage (p : Page) (s : State) : State :=
  if on_confirmation p then
    match purchaseEventCheckInterval s with
    | None =>
        let '(id, tb) := Timers.setInterval IntervalCheck 200 (timers s) in
        set_interval_var (Some id) (set_timers tb s)
    | Some _ => s
    end
  else
    match purchaseEventCheckInterval s with
    | Some id =>
        set_fired false
          (set_interval_var None
             (set_timers (Timers.clear (Some id) (timers s)) s))
    | None => s
    end.

(** The interval callback of [checkConfirmationPage]. *)
Definition intervalCheck (p : Page) (s : State) : completion unit * State :=
  match executeTrackingLogic p s with
  | (Normal true, s) =>
      (Normal tt,
       set_interval_var None
         (set_timers (Timers.clear (purchaseEventCheckInterval s) (timers s)) s))
  | (Normal false, s) => (Normal tt, s)
  | (Throw, s) => (Throw, s)
  end.

Definition run_callback (cb : Callback) (p : Page) (s : State)
  : completion unit * State :=
  match cb with
  | IntervalCheck => intervalCheck p s
  | CheckConfirmationPage => (Normal tt, checkConfirmationPage p s)
  end.

(** The browser runs timer [id] while the page is [p].  A timer that is
    not pending does not run.  An exception leaving the callback is
    reported by the browser and goes no further; the table is not
    touched by that. *)
Definition timerFires (id : positive) (p : Page) (s : State) : State :=
  match Timers.take id (timers s) with
  | None => s
  | Some (cb, tb) =>
      match run_callback cb p (set_timers tb s) with
      | (Normal _, s') => s'
      | (Throw, s') => report_uncaught s'
      end
  end.

(** The body the script gives both history wrappers after delegating:
    [setTimeout(checkConfirmationPage, 50)]. *)
Definition scheduleRecheck (s : State) : State :=
  set_timers (snd (Timers.setTimeout CheckConfirmationPage 50 (timers s))) s.

(** Loading the script: the listeners and wrappers are installed (they
    are the [Event]s below) and [checkConfirmationPage] runs once. *)
Definition scriptLoad (p : Page) : completion unit * State :=
  (Normal tt, checkConfirmationPage p initial).

Inductive Event :=
| DOMContentLoaded (p : Page)
| PopState (p : Page)
| PushState                      (* host page calls history.pushState *)
| ReplaceState                   (* host page calls history.replaceState *)
| TimerFires (id : positive) (p : Page).

Definition step (s : State) (e : Event) : State :=
  match e with
  | DOMContentLoaded p => checkConfirmationPage p s
  | PopState p => checkConfirmationPage p s
  | PushState => scheduleRecheck s
  | ReplaceState => scheduleRecheck s
  | TimerFires id p => timerFires id p s
  end.

Definition run (evs : list Event) (s : State) : State :=
  fold_left step evs s.

(** The page an event is handled on, if it reads one. *)
Definition event_page (e : Event) : option Page :=
  match e with
  | DOMContentLoaded p | PopState p | TimerFires _ p => Some p
  | PushState | ReplaceState => None
  end.

(** A contiguous active session: every handler that runs sees a URL
    satisfying the route predicate. *)
Definition in_session (e : Event) : bool :=
  match event_page e with
  | Some p => on_confirmation p
  | None => true
  end.

Definition pixel_calls (s : State) : list PixelData :=
  omap (fun e => match e with PixelPurchase d => Some d | _ => None end)
       (effects s).

Definition webhook_posts (s : State) : list ZapierPayload :=
  omap (fun e => match e with Fetch _ b => Some b | _ => None end)
       (effects s).

(** Pages used to run the script on concrete inputs. *)
Definition confirmation_page : Page :=
  {| href := "https://hotels.cloudbeds.com/reservation/abc123/confirmation";
     cookie := "_fbp=fb.1.1700000000000.1234; _fbc=fb.1.1700000000000.AbCd";
     userAgent := "Mozilla/5.0";
     be_text_paragraphs :=
       ["Thank you for your booking";
        "Your reservation number is #7742-ZX. A copy was sent to you."];
     summary_grand_total := Some "USD 341.71";
     fbq := FbqReturns |}.

(** The confirmation page before the booking engine has rendered. *)
Definition confirmation_loading : Page :=
  {| href := "https://hotels.cloudbeds.com/reservation/abc123/confirmation";
     cookie := ""; userAgent := "Mozilla/5.0";
     be_text_paragraphs := []; summary_grand_total := None;
     fbq := FbqReturns |}.

(** The confirmation page of a booking whose total reads 0.00. *)
Definition confirmation_zero_total : Page :=
  {| href := "https://hotels.cloudbeds.com/reservation/abc123/confirmation";
     cookie := ""; userAgent := "Mozilla/5.0";
     be_text_paragraphs := ["Your reservation number is #7742-ZX."];
     summary_grand_total := Some "USD 0.00";
     fbq := FbqReturns |}.

(** The confirmation page with a pixel function that throws. *)
Definition confirmation_fbq_throws : Page :=
  {| href := href confirmation_page; cookie := cookie confirmation_page;
     userAgent := userAgent confirmation_page;
     be_text_paragraphs := be_text_paragraphs confirmation_page;
     summary_grand_total := summary_grand_total confirmation_page;
     fbq := FbqThrows |}.

Definition rooms_page : Page :=
  {| href := "https://hotels.cloudbeds.com/reservation/abc123";
     cookie := ""; userAgent := "Mozilla/5.0";
     be_text_paragraphs := []; summary_grand_total := None;
     fbq := FbqReturns |}.

(** The confirmation page that never renders the reservation. *)
Definition waiting_for_reservation : State :=
  checkConfirmationPage confirmation_loading initial.

End Purchase.

(* ================================================================== *)
(** * Script 2: Search and AddToCart events, [getPriceValue] *)
(* ================================================================== *)

Module Funnel.
#[local] Open Scope string_scope.
Import JsString.

Record Page := {
  search_params : list string;           (* names in location.search *)
  banner_grand_total : option string;
    (* textContent of the first
       p[data-testid="shopping-cart-banner-grand-total"], if any *)
  fbq_is_function : bool                 (* typeof fbq === 'function' *)
}.

Inductive EventName := Search | AddToCart.

(** [sendEvent]: the pixel call and the relay POST, with the event
    properties ([value], in hundredths, when given).  The [event_id]
    ('evt_' + Date.now()) is left out. *)
Inductive Effect :=
| PixelCustom (name : EventName) (value : option N)
| FetchZapier (name : EventName) (value : option N).

Inductive Callback :=
| CheckPrice (attempts : nat)   (* checkPrice, with the closure's counter *)
| Init.                         (* init, given to setTimeout by the wrapper *)

Record State := {
  fired_Search : bool;
  fired_AddToCart : bool;
  click_listeners : nat;   (* once-listeners on document.body *)
  timers : Timers.table Callback;
  effects : list Effect
}.

Definition initial : State :=
  {| fired_Search := false; fired_AddToCart := false; click_listeners := 0;
     timers := Timers.empty; effects := [] |}.

Definition set_timers (tb : Timers.table Callback) (s : State) : State :=
  {| fired_Search := fired_Search s; fired_AddToCart := fired_AddToCart s;
     click_listeners := click_listeners s; timers := tb; effects := effects s |}.

Definition sendEvent (name : EventName) (value : option N) (p : Page) (s : State)
  : State :=
  {| fired_Search := fired_Search s; fired_AddToCart := fired_AddToCart s;
     click_listeners := click_listeners s; timers := timers s;
     effects := effects s
                ++ (if fbq_is_function p then [PixelCustom name value] else [])
                ++ [FetchZapier name value] |}.

(** The price a poll extracts: a match of [/\d+\.\d{2}/] whose value is
    greater than zero.  ([trim] does not change what the pattern finds.) *)
Definition extracted_price (p : Page) : option N :=
  match banner_grand_total p with
  | None => None
  | Some text =>
      match match_amount text with
      | Some m => if (0 <? amount_cents m)%N then Some (amount_cents m) else None
      | None => None
      end
  end.

(** The code after [await getPriceValue()] in the click listener. *)
Definition afterPrice (value : N) (p : Page) (s : State) : State :=
  sendEvent AddToCart (Some value) p
    {| fired_Search := fired_Search s; fired_AddToCart := true;
       click_listeners := click_listeners s; timers := timers s;
       effects := effects s |}.

(** [checkPrice] inside [getPriceValue]. *)
Definition checkPrice (attempts : nat) (p : Page) (s : State) : State :=
  match extracted_price p with
  | Some value => afterPrice value p s
  | None =>
      set_timers (snd (Timers.setTimeout (CheckPrice (S attempts)) 200 (timers s))) s
  end.

(** [getPriceValue()]: [attempts = 0] and [setTimeout(checkPrice, 500)]. *)
Definition getPriceValue (s : State) : State :=
  set_timers (snd (Timers.setTimeout (CheckPrice 0) 500 (timers s))) s.

Definition checkSearchStep (p : Page) (s : State) : State :=
  if fired_Search s then s
  else if bool_decide ("checkin" ∈ search_params p)
          && bool_decide ("checkout" ∈ search_params p)
  then sendEvent Search None p
         {| fired_Search := true; fired_AddToCart := fired_AddToCart s;
            click_listeners := click_listeners s; timers := timers s;
            effects := effects s |}
  else s.

Definition initAddToCartListener (s : State) : State :=
  {| fired_Search := fired_Search s; fired_AddToCart := fired_AddToCart s;
     click_listeners := S (click_listeners s); timers := timers s;
     effects := effects s |}.

Definition init (p : Page) (s : State) : State :=
  initAddToCartListener (checkSearchStep p s).

(** One click listener runs, up to its [await]. *)
Definition clickListener (on_add_button : bool) (s : State) : State :=
  if fired_AddToCart s then s
  else if on_add_button then getPriceValue s
  else s.

(** A click on the page: every once-listener runs and is removed.
    [on_add_button] says whether the click landed in a button whose text
    contains "add". *)
Definition click (on_add_button : bool) (s : State) : State :=
  Nat.iter (click_listeners s) (clickListener on_add_button)
    {| fired_Search := fired_Search s; fired_AddToCart := fired_AddToCart s;
       click_listeners := 0; timers := timers s; effects := effects s |}.

Definition run_callback (cb : Callback) (p : Page) (s : State) : State :=
  match cb with
  | CheckPrice attempts => checkPrice attempts p s
  | Init => init p s
  end.

Definition timerFires (id : positive) (p : Page) (s : State) : State :=
  match Timers.take id (timers s) with
  | None => s
  | Some (cb, tb) => run_callback cb p (set_timers tb s)
  end.

Inductive Event :=
| DOMContentLoaded (p : Page)
| PopState (p : Page)
| PushState
| Click (on_add_button : bool)
| TimerFires (id : positive) (p : Page).

Definition step (s : State) (e : Event) : State :=
  match e with
  | DOMContentLoaded p => init p s
  | PopState p => init p s
  | PushState => set_timers (snd (Timers.setTimeout Init 50 (timers s))) s
  | Click b => click b s
  | TimerFires id p => timerFires id p s
  end.

Definition run (evs : list Event) (s : State) : State := fold_left step evs s.

(** A price poll is waiting to run. *)
Definition polling (s : State) : Prop :=
  ∃ id t attempts,
    Timers.live (timers s) !! id = Some t
    ∧ Timers.callback t = CheckPrice attempts.

(** [poll_absent n id s]: the state after the poll timer [id] and its
    successors have run [n] times on page [p]. The successor of a poll
    that found no price is the timer it has just scheduled. *)
Fixpoint poll_times (n : nat) (id : positive) (p : Page) (s : State)
  : positive * State :=
  match n with
  | O => (id, s)
  | S k =>
      let next := Timers.next_id (timers s) in
      poll_times k next p (timerFires id p s)
  end.

(** Pages used to run the script on concrete inputs. *)
Definition cart_loading : Page :=
  {| search_params := ["checkin"; "checkout"; "currency"];
     banner_grand_total := None; fbq_is_function := true |}.

Definition cart_priced : Page :=
  {| search_params := ["checkin"; "checkout"; "currency"];
     banner_grand_total := Some "USD 341.71"; fbq_is_function := true |}.

Definition home_page : Page :=
  {| search_params := []; banner_grand_total := None; fbq_is_function := true |}.

(** The AddToCart click on a cart whose price never renders. *)
Definition waiting_for_price : State :=
  run [DOMContentLoaded cart_loading; Click true] initial.

End Funnel.

(* ================================================================== *)
(** * Script 3: the Book Now listener and the payment-error observer *)
(* ================================================================== *)

Module Payment.
#[local] Open Scope string_scope.
Import JsString.

Record Page := {
  pathname : string;            (* window.location.pathname *)
  href : string;                (* window.location.href *)
  book_now_button : bool;
    (* document.querySelector(
         'button[data-testid="shopping-cart-banner-confirm-button"]') *)
  document_body : bool          (* document.body is not null *)
}.

Inductive Warning :=
| BookNowButtonNotFound   (* 'Book Now button not found after multiple attempts ...' *)
| BodyNotFound.           (* 'Could not initialize Payment Error observer ...' *)

Inductive Callback :=
| CheckButton (attempts : nat)               (* checkButton and its counter *)
| TryObserveBody (bodyCheckAttempts : nat)   (* tryObserveBody and its counter *)
| CheckForTrackingEvents.

(** The variables the two watchers read and write; the other flags of
    the script belong to its event senders. *)
Record State := {
  paymentSubmitClickInitialized : bool;    (* window.__paymentSubmitClickInitialized *)
  paymentErrorObserverInitialized : bool;  (* window.__paymentErrorObserverInitialized *)
  button_listeners : nat;   (* click listeners attached to the Book Now button *)
  body_observers : nat;     (* MutationObservers observing document.body *)
  timers : Timers.table Callback;
  warnings : list Warning   (* console.warn, oldest first *)
}.

Definition initial : State :=
  {| paymentSubmitClickInitialized := false;
     paymentErrorObserverInitialized := false;
     button_listeners := 0; body_observers := 0;
     timers := Timers.empty; warnings := [] |}.

Definition set_timers (tb : Timers.table Callback) (s : State) : State :=
  {| paymentSubmitClickInitialized := paymentSubmitClickInitialized s;
     paymentErrorObserverInitialized := paymentErrorObserverInitialized s;
     button_listeners := button_listeners s; body_observers := body_observers s;
     timers := tb; warnings := warnings s |}.

Definition warn (w : Warning) (s : State) : State :=
  {| paymentSubmitClickInitialized := paymentSubmitClickInitialized s;
     paymentErrorObserverInitialized := paymentErrorObserverInitialized s;
     button_listeners := button_listeners s; body_observers := body_observers s;
     timers := timers s; warnings := warnings s ++ [w] |}.

Definition maxAttempts : nat := 20.
Definition maxBodyCheckAttempts : nat := 20.

Definition checkButton (attempts : nat) (p : Page) (s : State) : State :=
  if book_now_button p then
    {| paymentSubmitClickInitialized := paymentSubmitClickInitialized s;
       paymentErrorObserverInitialized := paymentErrorObserverInitialized s;
       button_listeners := S (button_listeners s);
       body_observers := body_observers s;
       timers := timers s; warnings := warnings s |}
  else if (attempts <? maxAttempts)%nat then
    set_timers (snd (Timers.setTimeout (CheckButton (S attempts)) 200 (timers s))) s
  else warn BookNowButtonNotFound s.

Definition trackPaymentSubmitClick (s : State) : State :=
  if paymentSubmitClickInitialized s then s
  else
    {| paymentSubmitClickInitialized := true;
       paymentErrorObserverInitialized := paymentErrorObserverInitialized s;
       button_listeners := button_listeners s; body_observers := body_observers s;
       timers := snd (Timers.setTimeout (CheckButton 0) 500 (timers s));
       warnings := warnings s |}.

Definition tryObserveBody (bodyCheckAttempts : nat) (p : Page) (s : State) : State :=
  if document_body p then
    {| paymentSubmitClickInitialized := paymentSubmitClickInitialized s;
       paymentErrorObserverInitialized := true;
       button_listeners := button_listeners s;
       body_observers := S (body_observers s);
       timers := timers s; warnings := warnings s |}
  else if (bodyCheckAttempts <? maxBodyCheckAttempts)%nat then
    set_timers
      (snd (Timers.setTimeout (TryObserveBody (S bodyCheckAttempts)) 200 (timers s))) s
  else warn BodyNotFound s.

Definition trackPaymentError (s : State) : State :=
  if paymentErrorObserverInitialized s then s
  else set_timers (snd (Timers.setTimeout (TryObserveBody 0) 100 (timers s))) s.

Definition on_payment_step (p : Page) : bool :=
  includes "/reservation/" (pathname p) && includes "/payment" (href p).

(** [checkForTrackingEvents], as far as it acts on the watchers. *)
Definition checkForTrackingEvents (p : Page) (s : State) : State :=
  trackPaymentError (if on_payment_step p then trackPaymentSubmitClick s else s).

Definition run_callback (cb : Callback) (p : Page) (s : State) : State :=
  match cb with
  | CheckButton attempts => checkButton attempts p s
  | TryObserveBody attempts => tryObserveBody attempts p s
  | CheckForTrackingEvents => checkForTrackingEvents p s
  end.

Definition timerFires (id : positive) (p : Page) (s : State) : State :=
  match Timers.take id (timers s) with
  | None => s
  | Some (cb, tb) => run_callback cb p (set_timers tb s)
  end.

Inductive Event :=
| Signal (p : Page)     (* script load, DOMContentLoaded, popstate *)
| PushState
| TimerFires (id : positive) (p : Page).

Definition step (s : State) (e : Event) : State :=
  match e with
  | Signal p => checkForTrackingEvents p s
  | PushState =>
      set_timers (snd (Timers.setTimeout CheckForTrackingEvents 50 (timers s))) s
  | TimerFires id p => timerFires id p s
  end.

Definition run (evs : list Event) (s : State) : State := fold_left step evs s.

(** The timer [id] and its successors run [n] times on page [p]. *)
Fixpoint chain_times (n : nat) (id : positive) (p : Page) (s : State)
  : positive * State :=
  match n with
  | O => (id, s)
  | S k => chain_times k (Timers.next_id (timers s)) p (timerFires id p s)
  end.

Definition no_button (p : Page) : Prop := book_now_button p = false.
Definition no_body (p : Page) : Prop := document_body p = false.

Definition is_CheckButton (cb : Callback) : bool :=
  match cb with CheckButton _ => true | _ => false end.

Definition is_TryObserveBody (cb : Callback) : bool :=
  match cb with TryObserveBody _ => true | _ => false end.

(** No timer of the table carries a callback of the given kind. *)
Definition none_pending (kind : Callback → bool) (s : State) : Prop :=
  ∀ id t, Timers.live (timers s) !! id = Some t → kind (Timers.callback t) = false.

Definition is_BookNowButtonNotFound (w : Warning) : bool :=
  match w with BookNowButtonNotFound => true | _ => false end.

Definition book_now_warnings (s : State) : nat :=
  length (List.filter is_BookNowButtonNotFound (warnings s)).

(** Pages used to run the script on concrete inputs. *)
Definition payment_page_bare : Page :=
  {| pathname := "/reservation/abc123/payment";
     href := "https://hotels.cloudbeds.com/reservation/abc123/payment";
     book_now_button := false; document_body := false |}.

Definition payment_page_ready : Page :=
  {| pathname := "/reservation/abc123/payment";
     href := "https://hotels.cloudbeds.com/reservation/abc123/payment";
     book_now_button := true; document_body := true |}.

(** A chain of one-shot timers: the timer at [id] carries [cb] and is
    the only pending timer of its kind. *)
Definition sole (kind : Callback → bool) (cb : Callback) (d : nat)
           (id : positive) (s : State) : Prop :=
  Timers.live (timers s) !! id = Some (Timers.Timer cb d false)
  ∧ ∀ id' t, Timers.live (timers s) !! id' = Some t →
             kind (Timers.callback t) = true → id' = id.

End Payment.

(* ================================================================== *)
(** * Script 5: the cancellation banner watcher *)
(* ================================================================== *)

Module Banner.
#[local] Open Scope string_scope.
Import JsString.

(** What the script's DOM queries answer on the current page. *)
Record Page := {
  href : string;
  target : bool;
    (* document.querySelector(TARGET_SUMMARY_SELECTOR) is not null *)
  banner_in_place : bool;
    (* #cancellation-banner exists, the target exists, and the banner's
       nextElementSibling is the target *)
  insertion_lands : bool
    (* the same test on the banner found after insertAdjacentHTML *)
}.

Inductive Warning :=
| BannerMisplaced       (* 'Banner not found or not positioned correctly ...' *)
| MaxInitialChecks.     (* 'Max initial check attempts reached. ...' *)

Inductive Callback :=
| InitialCheck       (* the arrow function given to setInterval *)
| Debounce           (* the arrow function given to setTimeout by the observer *)
| HandleUrlChange.   (* handleUrlChange given to setTimeout by the wrappers *)

Record State := {
  initialCheckAttempt : nat;
  initialCheckIntervalId : option positive;
  observer : option positive;                   (* the script's [observer] *)
  bannerInsertDebounceTimer : option positive;  (* window._bannerInsertDebounceTimer *)
  timers : Timers.table Callback;
  observing : gset positive;     (* the MutationObservers that are connected *)
  next_observer : positive;      (* identity of the next observer created *)
  insertions : nat;              (* banners written into the DOM *)
  warnings : list Warning
}.

Definition initial : State :=
  {| initialCheckAttempt := 0; initialCheckIntervalId := None; observer := None;
     bannerInsertDebounceTimer := None; timers := Timers.empty;
     observing := ∅; next_observer := 1%positive; insertions := 0;
     warnings := [] |}.

Definition set_attempt (n : nat) (s : State) : State :=
  {| initialCheckAttempt := n;
     initialCheckIntervalId := initialCheckIntervalId s; observer := observer s;
     bannerInsertDebounceTimer := bannerInsertDebounceTimer s;
     timers := timers s; observing := observing s;
     next_observer := next_observer s; insertions := insertions s;
     warnings := warnings s |}.

Definition set_interval_id (h : option positive) (s : State) : State :=
  {| initialCheckAttempt := initialCheckAttempt s;
     initialCheckIntervalId := h; observer := observer s;
     bannerInsertDebounceTimer := bannerInsertDebounceTimer s;
     timers := timers s; observing := observing s;
     next_observer := next_observer s; insertions := insertions s;
     warnings := warnings s |}.

Definition set_observer (o : option positive) (s : State) : State :=
  {| initialCheckAttempt := initialCheckAttempt s;
     initialCheckIntervalId := initialCheckIntervalId s; observer := o;
     bannerInsertDebounceTimer := bannerInsertDebounceTimer s;
     timers := timers s; observing := observing s;
     next_observer := next_observer s; insertions := insertions s;
     warnings := warnings s |}.

Definition set_debounce (h : option positive) (s : State) : State :=
  {| initialCheckAttempt := initialCheckAttempt s;
     initialCheckIntervalId := initialCheckIntervalId s; observer := observer s;
     bannerInsertDebounceTimer := h;
     timers := timers s; observing := observing s;
     next_observer := next_observer s; insertions := insertions s;
     warnings := warnings s |}.

Definition set_timers (tb : Timers.table Callback) (s : State) : State :=
  {| initialCheckAttempt := initialCheckAttempt s;
     initialCheckIntervalId := initialCheckIntervalId s; observer := observer s;
     bannerInsertDebounceTimer := bannerInsertDebounceTimer s;
     timers := tb; observing := observing s;
     next_observer := next_observer s; insertions := insertions s;
     warnings := warnings s |}.

Definition set_observing (o : gset positive) (next : positive) (s : State) : State :=
  {| initialCheckAttempt := initialCheckAttempt s;
     initialCheckIntervalId := initialCheckIntervalId s; observer := observer s;
     bannerInsertDebounceTimer := bannerInsertDebounceTimer s;
     timers := timers s; observing := o;
     next_observer := next; insertions := insertions s;
     warnings := warnings s |}.

Definition add_insertion (s : State) : State :=
  {| initialCheckAttempt := initialCheckAttempt s;
     initialCheckIntervalId := initialCheckIntervalId s; observer := observer s;
     bannerInsertDebounceTimer := bannerInsertDebounceTimer s;
     timers := timers s; observing := observing s;
     next_observer := next_observer s; insertions := S (insertions s);
     warnings := warnings s |}.

Definition warn (w : Warning) (s : State) : State :=
  {| initialCheckAttempt := initialCheckAttempt s;
     initialCheckIntervalId := initialCheckIntervalId s; observer := observer s;
     bannerInsertDebounceTimer := bannerInsertDebounceTimer s;
     timers := timers s; observing := observing s;
     next_observer := next_observer s; insertions := insertions s;
     warnings := warnings s ++ [w] |}.

Definition INITIAL_CHECK_INTERVAL_MS : nat := 100.
Definition INITIAL_CHECK_MAX_ATTEMPTS : nat := 50.

(** [observer.disconnect()] on the observer a variable holds, if any. *)
Definition disconnect (o : option positive) (s : State) : State :=
  match o with
  | Some oid => set_observing (observing s ∖ {[oid]}) (next_observer s) s
  | None => s
  end.

Definition insertBanner (p : Page) (s : State) : bool * State :=
  if negb (target p) then (false, s)
  else if banner_in_place p then (true, s)
  else
    let s := add_insertion s in
    if insertion_lands p then (true, s) else (false, warn BannerMisplaced s).

Definition initializeBannerObserver (s : State) : State :=
  let s := disconnect (observer s) s in
  let oid := next_observer s in
  set_observer (Some oid)
    (set_observing ({[oid]} ∪ observing s) (Pos.succ oid) s).

(** The callback of the MutationObserver; [relevant] is the value of
    [relevantMutation] for the delivered records. *)
Definition onMutations (relevant : bool) (s : State) : State :=
  if relevant then
    let tb := Timers.clear (bannerInsertDebounceTimer s) (timers s) in
    let '(id, tb) := Timers.setTimeout Debounce 50 tb in
    set_debounce (Some id) (set_timers tb s)
  else s.

(** The debounced re-check scheduled by the observer callback. *)
Definition debounced (p : Page) (s : State) : State :=
  if negb (banner_in_place p) then snd (insertBanner p s) else s.

Definition isTargetPage (p : Page) : bool :=
  includes "/reservation/" (href p) && includes "/guests" (href p).

(** The interval callback of [handleUrlChange]. *)
Definition initialCheck (p : Page) (s : State) : State :=
  let '(inserted, s) := insertBanner p s in
  let s :=
    if inserted || (INITIAL_CHECK_MAX_ATTEMPTS <=? initialCheckAttempt s)%nat then
      let s := set_interval_id None
                 (set_timers (Timers.clear (initialCheckIntervalId s) (timers s)) s) in
      if (INITIAL_CHECK_MAX_ATTEMPTS <=? initialCheckAttempt s)%nat
      then warn MaxInitialChecks s
      else initializeBannerObserver s
    else s in
  set_attempt (S (initialCheckAttempt s)) s.

Definition handleUrlChange (p : Page) (s : State) : State :=
  if isTargetPage p then
    let s := match initialCheckIntervalId s with
             | Some id => set_interval_id None
                            (set_timers (Timers.clear (Some id) (timers s)) s)
             | None => s
             end in
    let s := match observer s with
             | Some oid => set_observer None (disconnect (Some oid) s)
             | None => s
             end in
    let s := set_attempt 0 s in
    let '(id, tb) :=
      Timers.setInterval InitialCheck INITIAL_CHECK_INTERVAL_MS (timers s) in
    set_interval_id (Some id) (set_timers tb s)
  else
    let s := set_timers (Timers.clear (initialCheckIntervalId s) (timers s)) s in
    let s := disconnect (observer s) s in
    set_observer None (set_interval_id None s).

Definition run_callback (cb : Callback) (p : Page) (s : State) : State :=
  match cb with
  | InitialCheck => initialCheck p s
  | Debounce => debounced p s
  | HandleUrlChange => handleUrlChange p s
  end.

Definition timerFires (id : positive) (p : Page) (s : State) : State :=
  match Timers.take id (timers s) with
  | None => s
  | Some (cb, tb) => run_callback cb p (set_timers tb s)
  end.

(** The browser delivers mutation records to observer [oid]; a
    disconnected observer receives nothing. *)
Definition mutationsDelivered (oid : positive) (relevant : bool) (s : State) : State :=
  if bool_decide (oid ∈ observing s) then onMutations relevant s else s.

Inductive Event :=
| UrlSignal (p : Page)      (* script load, DOMContentLoaded *)
| HistoryCall               (* history.pushState or history.replaceState *)
| TimerFires (id : positive) (p : Page)
| Mutations (oid : positive) (relevant : bool).

Definition step (s : State) (e : Event) : State :=
  match e with
  | UrlSignal p => handleUrlChange p s
  | HistoryCall =>
      set_timers (snd (Timers.setTimeout HandleUrlChange 50 (timers s))) s
  | TimerFires id p => timerFires id p s
  | Mutations oid relevant => mutationsDelivered oid relevant s
  end.

Definition run (evs : list Event) (s : State) : State := fold_left step evs s.

Definition reachable (s : State) : Prop := ∃ evs, s = run evs initial.

Definition is_InitialCheck (cb : Callback) : bool :=
  match cb with InitialCheck => true | _ => false end.

(** The script's variables name everything that can still call back: a
    pending interval is the one [initialCheckIntervalId] holds, a
    connected observer is the one [observer] holds. *)
Definition consistent (s : State) : Prop :=
  (∀ id t, Timers.live (timers s) !! id = Some t →
           is_InitialCheck (Timers.callback t) = true →
           initialCheckIntervalId s = Some id)
  ∧ (∀ oid, oid ∈ observing s → observer s = Some oid).

(** Every poll interval created before timer handle [k] and every
    observer created before identity [ko] is gone. *)
Definition released (k ko : positive) (s : State) : Prop :=
  (∀ id t, (id < k)%positive → Timers.live (timers s) !! id = Some t →
           is_InitialCheck (Timers.callback t) = false)
  ∧ (∀ oid, (oid < ko)%positive → oid ∉ observing s)
  ∧ (k ≤ Timers.next_id (timers s))%positive
  ∧ (ko ≤ next_observer s)%positive.

(** Pages used to run the script on concrete inputs. *)
Definition guests_page : Page :=
  {| href := "https://hotels.cloudbeds.com/reservation/abc123/guests";
     target := true; banner_in_place := false; insertion_lands := true |}.

Definition guests_page_with_banner : Page :=
  {| href := "https://hotels.cloudbeds.com/reservation/abc123/guests";
     target := true; banner_in_place := true; insertion_lands := true |}.

(** A page off the route that also renders a summary container. *)
Definition payment_page : Page :=
  {| href := "https://hotels.cloudbeds.com/reservation/abc123/payment";
     target := true; banner_in_place := false; insertion_lands := true |}.

End Banner.

(* ================================================================== *)
(** * Script 4: the deal badge, on IEEE-754 binary64 numbers *)
(* ================================================================== *)

Module Badge.

(** JavaScript numbers are binary64 floating-point numbers: [spec_float]
    with 53 bits of precision, every operation rounded to nearest, ties
    to even. [S754_finite s m e] is [(-1)^s * m * 2^e]. *)
Definition prec : Z := 53.
Definition emax : Z := 1024.

Definition number := spec_float.

Definition of_Z (z : Z) : number := binary_normalize prec emax z 0 false.
Definition add : number -> number -> number := SFadd prec emax.
Definition div : number -> number -> number := SFdiv prec emax.



(** [x.toFixed(2)] for [0 <= x < 1e21]: the string of digits of the
    integer [n] for which [n / 100 - x] is as close to zero as possible,
    the larger one if there are two, with a dot before the last two
    digits.  The string is given by [n], its value in hundredths.
    Outside that range the result has another shape and is [None]. *)
Definition toFixed2 (x : number) : option N :=
  match x with
  | S754_zero _ => Some 0%N
  | S754_finite false m e =>
      if SFltb x (of_Z (10 ^ 21)) then
        match e with
        | Zneg k => Some (Z.to_N ((200 * Zpos m + 2 ^ Zpos k) / 2 ^ (Zpos k + 1)))
        | _ => Some (Z.to_N (100 * Zpos m * 2 ^ e))
        end
      else None
  | _ => None
  end.

(** Unary [+] on a string of digits with two decimals: the binary64
    number nearest to the decimal, that is the quotient of the two
    integers rounded once. *)
Definition parse_hundredths (n : N) : number :=
  match n with
  | N0 => S754_zero false
  | Npos p => div (S754_finite false p 0) (of_Z 100)
  end.

(** [+x.toFixed(2)]; [NaN] stands for the strings that are not modelled. *)
Definition round2 (x : number) : number :=
  match toFixed2 x with
  | Some n => parse_hundredths n
  | None => S754_nan
  end.

Definition WEEKLY : number := of_Z 299.
Definition WEEK_N : number := round2 (div WEEKLY (of_Z 7)).








End Badge.

(* ================================================================== *)
(** * The wrappers around [history.pushState] and [history.replaceState] *)
(* ================================================================== *)

Module HistoryHook.
#[local] Open Scope string_scope.

Inductive Val :=
| Undefined
| Null
| Str (s : string)
| Num (n : Z).

(** The [this] of a call. *)
Inductive Receiver := HistoryObject | OtherObject.

Record Entry := { entry_state : Val; entry_url : string }.

(** The session history: its entries and the index of the current one. *)
Record Hist := { entries : list Entry; index : nat }.

(** The scripts that install a wrapper; each schedules its own re-check. *)
Inductive Script :=
| Purchase              (* setTimeout(checkConfirmationPage, 50) *)
| Funnel                (* setTimeout(init, 50) *)
| Payment               (* setTimeout(checkForTrackingEvents, 50) *)
| Banner                (* setTimeout(handleUrlChange, 50) *)
| DepositClarification  (* setTimeout(handleUrlChange, 50) *)
| DepositRewrite        (* setTimeout(() => { ... startPollingSafely() }, 50) *)
| SecurityMessage.      (* setTimeout(handleUrlChange, 50) *)

Record World := { hist : Hist; timers : Timers.table Script }.

(** A function value: called with a receiver and its arguments, it
    changes the world and returns or throws. *)
Definition JsFunction : Type :=
  Receiver -> list Val -> World -> completion Val * World.

Definition current_url (h : Hist) : string :=
  match entries h !! index h with
  | Some e => entry_url e
  | None => ""
  end.

(** The URL an entry gets: the third argument when it is a string, the
    current URL when it is missing or null.  (Resolution against the
    document base and the same-origin check are left out.) *)
Definition new_url (h : Hist) (args : list Val) : string :=
  match args !! 2 with
  | Some (Str u) => u
  | _ => current_url h
  end.

(** The browser's [history.pushState(data, unused, url)]: an illegal
    receiver or fewer than two arguments is a TypeError; the entries
    after the current one are dropped and the new entry becomes current.
    The operation returns [undefined]. *)
Definition nativePushState : JsFunction :=
  fun this args w =>
    match this, args with
    | HistoryObject, data :: _ :: _ =>
        let h := hist w in
        let e := {| entry_state := data; entry_url := new_url h args |} in
        (Normal Undefined,
         {| hist := {| entries := take (S (index h)) (entries h) ++ [e];
                       index := S (index h) |};
            timers := timers w |})
    | _, _ => (Throw, w)
    end.

(** The browser's [history.replaceState(data, unused, url)]. *)
Definition nativeReplaceState : JsFunction :=
  fun this args w =>
    match this, args with
    | HistoryObject, data :: _ :: _ =>
        let h := hist w in
        let e := {| entry_state := data; entry_url := new_url h args |} in
        (Normal Undefined,
         {| hist := {| entries := <[index h := e]> (entries h);
                       index := index h |};
            timers := timers w |})
    | _, _ => (Throw, w)
    end.

Definition schedule (sc : Script) (w : World) : World :=
  {| hist := hist w; timers := snd (Timers.setTimeout sc 50 (timers w)) |}.

(** The wrapper a script assigns:
    [function() { original.apply(this, arguments); setTimeout(recheck, 50); }].
    An exception of the original leaves the wrapper at once; the wrapper
    has no [return], so it returns [undefined]. *)
Definition wrap (sc : Script) (original : JsFunction) : JsFunction :=
  fun this arguments w =>
    match original this arguments w with
    | (Normal _, w) => (Normal Undefined, schedule sc w)
    | (Throw, w) => (Throw, w)
    end.

(** The scripts run in file order, each wrapping what it finds. *)
Definition install (scripts : list Script) (original : JsFunction) : JsFunction :=
  fold_left (fun f sc => wrap sc f) scripts original.

Definition pushState_scripts : list Script :=
  [Purchase; Funnel; Payment; Banner; DepositClarification; DepositRewrite;
   SecurityMessage].

Definition replaceState_scripts : list Script :=
  [Purchase; Banner; DepositClarification; DepositRewrite; SecurityMessage].

(** [history.pushState] and [history.replaceState] once the file has run. *)
Definition pushState : JsFunction := install pushState_scripts nativePushState.
Definition replaceState : JsFunction := install replaceState_scripts nativeReplaceState.

(** An operation declared to return nothing: whenever it returns, it
    returns [undefined]. *)
Definition returns_undefined (f : JsFunction) : Prop :=
  ∀ this args w v w', f this args w = (Normal v, w') → v = Undefined.

(** The timers [scripts] schedule one after the other on table [tb]. *)
Definition scheduled (scripts : list Script) (tb : Timers.table Script)
  : Timers.table Script :=
  fold_left (fun tb sc => snd (Timers.setTimeout sc 50 tb)) scripts tb.

(** A session on its second entry, with no timer pending. *)
Definition sample_world : World :=
  {| hist := {| entries := [ {| entry_state := Null; entry_url := "/reservation/abc123" |};
                             {| entry_state := Str "rooms";
                                entry_url := "/reservation/abc123/rooms" |} ];
                index := 1 |};
     timers := Timers.empty |}.

Definition sample_args : list Val :=
  [Str "guests"; Str ""; Str "/reservation/abc123/guests"].

End HistoryHook.

(* ================================================================== *)
(** * Regular expressions of the scripts, by backtracking *)
(* ================================================================== *)

Module Regex.
#[local] Open Scope string_scope.
Import JsString.

(** The patterns the scripts use: character classes, sequence, ordered
    alternative, the greedy star and the negative lookahead. *)
Inductive re :=
| Eps
| Class (p : ascii → bool)
| Seq (a b : re)
| Alt (a b : re)
| Star (a : re)
| NotAhead (a : re).

(** The greedy star: one more iteration first, the continuation only when
    that fails.  An iteration that consumes nothing is rejected, so the
    length of the input bounds the number of iterations. *)
Fixpoint star_loop {A} (body : string → (string → option A) → option A)
         (k : string → option A) (fuel : nat) (s : string) : option A :=
  match fuel with
  | O => k s
  | S fuel' =>
      match body s (λ s', if (String.length s' <? String.length s)%nat
                          then star_loop body k fuel' s' else None) with
      | Some x => Some x
      | None => k s
      end
  end.

(** [exec r A s k]: match [r] at the start of [s] and hand the rest of the
    input to the continuation [k]; when [k] fails, the next alternative of
    [r] is tried, in the order of the backtracking matcher. *)
Fixpoint exec (r : re) (A : Type) (s : string) (k : string → option A) : option A :=
  match r with
  | Eps => k s
  | Class p =>
      match s with
      | String c rest => if p c then k rest else None
      | EmptyString => None
      end
  | Seq a b => exec a A s (λ s', exec b A s' k)
  | Alt a b =>
      match exec a A s k with
      | Some x => Some x
      | None => exec b A s k
      end
  | Star a => star_loop (exec a A) k (String.length s) s
  | NotAhead a =>
      match exec a unit s (λ _, Some tt) with
      | Some _ => None
      | None => k s
      end
  end.

Fixpoint string_take (n : nat) (s : string) : string :=
  match n, s with
  | S k, String c rest => String c (string_take k rest)
  | _, _ => EmptyString
  end.

(** [r.exec(s)] without flags: the leftmost start position at which [r]
    matches; the result is the matched text and the input after it. *)
Fixpoint search (r : re) (s : string) : option (string * string) :=
  match exec r string s Some with
  | Some rest => Some (string_take (String.length s - String.length rest) s, rest)
  | None =>
      match s with
      | EmptyString => None
      | String _ s' => search r s'
      end
  end.

(** [r.test(s)] *)
Definition test (r : re) (s : string) : bool :=
  match search r s with Some _ => true | None => false end.

Definition chr (c : ascii) : re := Class (λ x, (code x =? code c)%N).

(** A literal run of characters. *)
Fixpoint lit (t : string) : re :=
  match t with
  | EmptyString => Eps
  | String c rest => Seq (chr c) (lit rest)
  end.

Definition Plus (a : re) : re := Seq a (Star a).   (* a+ *)
Definition Opt (a : re) : re := Alt a Eps.          (* a? *)

(** [/\d+\.\d{2}/] *)
Definition amount_pattern : re :=
  Seq (Plus (Class is_digit))
      (Seq (chr ".") (Seq (Class is_digit) (Class is_digit))).

(** The continuation of [\d+] inside [amount_pattern]. *)
Definition after_digits (s : string) : option string :=
  exec (Seq (chr ".") (Seq (Class is_digit) (Class is_digit))) string s Some.

(** Every character of [s] satisfies [p]. *)
Fixpoint string_forall (p : ascii → bool) (s : string) : bool :=
  match s with
  | EmptyString => true
  | String c rest => p c && string_forall p rest
  end.

(** [/#([A-Z0-9-]+)/i] *)
Definition reservation_pattern : re :=
  Seq (chr "#") (Plus (Class is_id_char)).

(** The text of a match of [amount_pattern] as [match_amount] returns it. *)
Definition amount_text (m : string * (ascii * ascii)) : string :=
  fst m ++ String "." (String (fst (snd m)) (String (snd (snd m)) EmptyString)).

Definition string_tail (s : string) : string :=
  match s with
  | String _ rest => rest
  | EmptyString => EmptyString
  end.

(** [[a-zA-Z0-9]] *)
Definition is_alnum (c : ascii) : bool := is_lower c || is_upper c || is_digit c.

(** Script 6, the route predicate of [handleUrlChange]:
    [/\/reservation\/[a-zA-Z0-9]+\/?(?!\/guests)/] *)
Definition room_selection_pattern : re :=
  Seq (lit "/reservation/")
      (Seq (Plus (Class is_alnum))
           (Seq (Opt (chr "/")) (NotAhead (lit "/guests")))).

Definition isRoomSelectionPage (currentUrl : string) : bool :=
  test room_selection_pattern currentUrl.

(** [/\/reservation\/[a-zA-Z0-9]/]: a reservation path with the first
    character of an identifier. *)
Definition reservation_path_pattern : re :=
  Seq (lit "/reservation/") (Class is_alnum).

End Regex.

(* ================================================================== *)
(** * Script 1, continued: what the traces of the script look like *)
(* ================================================================== *)

Module PurchaseTrace.
Import JsString Purchase.

(** A reservation identifier as the pattern captures it. *)
Definition well_formed_id (id : string) : Prop :=
  truthy id = true ∧ Regex.string_forall is_id_char id = true.

(** A pixel call and a webhook post report the same purchase. *)
Definition same_purchase (d : PixelData) (b : ZapierPayload) : Prop :=
  event_id d = cloudbeds_reservation_id b
  ∧ event_source_url d = client_event_source_url b
  ∧ px_value d = zp_value b.

(** Every interval that is pending is the one the window variable holds. *)
Definition single_interval (s : State) : Prop :=
  ∀ id t, Timers.live (timers s) !! id = Some t →
          Timers.callback t = IntervalCheck →
          purchaseEventCheckInterval s = Some id.

Definition reachable (s : State) : Prop := ∃ evs, s = run evs initial.

(** The calls of a run: every webhook post is well formed and every
    pixel call has its webhook post. *)
Definition trace_ok (l : list Effect) : Prop :=
  (∀ u b, Fetch u b ∈ l →
          u = zapierWebhookUrl
          ∧ (0 < zp_value b)%N
          ∧ well_formed_id (cloudbeds_reservation_id b))
  ∧ (∀ d, PixelPurchase d ∈ l → ∃ u b, Fetch u b ∈ l ∧ same_purchase d b).

End PurchaseTrace.

(* ================================================================== *)
(** * The cookie jar behind [document.cookie] *)
(* ================================================================== *)

Module Cookies.
#[local] Open Scope string_scope.
Import JsString.

(** [document.cookie] for a jar of named cookies: the pairs [name=value]
    joined by a semicolon and a space. *)
Fixpoint cookie_header (jar : list (string * string)) : string :=
  match jar with
  | [] => ""
  | (k, v) :: rest =>
      k ++ "=" ++ v ++ match rest with [] => "" | _ => "; " ++ cookie_header rest end
  end.

Definition no_semicolon (c : ascii) : bool := negb (code c =? 59)%N.
Definition name_char (c : ascii) : bool :=
  negb (code c =? 59)%N && negb (code c =? 61)%N && negb (code c =? 32)%N.

(** Cookie names hold no semicolon, equals sign or space; values hold no
    semicolon. *)
Definition well_formed_jar (jar : list (string * string)) : Prop :=
  Forall (λ kv, Regex.string_forall name_char (fst kv) = true
                ∧ Regex.string_forall no_semicolon (snd kv) = true) jar.

(** One cookie as it stands in the header. *)
Definition entry (kv : string * string) : string := fst kv ++ "=" ++ snd kv.

(** The value of the first cookie of the jar named [name]. *)
Fixpoint jar_lookup (name : string) (jar : list (string * string)) : option string :=
  match jar with
  | [] => None
  | (k, v) :: rest => if String.eqb k name then Some v else jar_lookup name rest
  end.

End Cookies.

(* ================================================================== *)
(** * Script 2, continued: the events of a run *)
(* ================================================================== *)

Module FunnelTrace.
Import JsString Funnel.

(** The relay posts of an event name. *)
Definition posts (name : EventName) (s : State) : list (option N) :=
  omap (λ e, match e, name with
             | FetchZapier Search v, Search => Some v
             | FetchZapier AddToCart v, AddToCart => Some v
             | _, _ => None
             end) (effects s).

(** The page a handler reads when the event runs one, if it does. *)
Definition event_page (e : Event) : option Page :=
  match e with
  | DOMContentLoaded p | PopState p | TimerFires _ p => Some p
  | PushState | Click _ => None
  end.

Definition has_dates (p : Page) : Prop :=
  "checkin"%string ∈ search_params p ∧ "checkout"%string ∈ search_params p.

(** An event as [sendEvent] sends it for [AddToCart]: a value above zero. *)
Definition add_to_cart_value (v : option N) : Prop :=
  ∃ n, v = Some n ∧ (0 < n)%N.

Definition effect_ok (e : Effect) : Prop :=
  match e with
  | PixelCustom Search v | FetchZapier Search v => v = None
  | PixelCustom AddToCart v | FetchZapier AddToCart v => add_to_cart_value v
  end.

(** The state of the Search guard and the Search posts agree. *)
Definition search_inv (s : State) : Prop :=
  (fired_Search s = false → posts Search s = [])
  ∧ length (posts Search s) ≤ 1.

(** Every event of the trace is well formed, and a sent AddToCart has set
    the guard. *)
Definition events_inv (s : State) : Prop :=
  Forall effect_ok (effects s)
  ∧ (posts AddToCart s ≠ [] → fired_AddToCart s = true).

(** The [i]-th handle after [id]. *)
Definition handle_after (id : positive) (i : nat) : positive := Nat.iter i Pos.succ id.

End FunnelTrace.

(* ================================================================== *)
(** * Script 3: what the two watchers of the payment step add up to *)

Module PaymentTrace.
Import Payment.

(** Timer handles are never reused: a pending timer was created before
    the next handle. *)
Definition fresh (s : State) : Prop :=
  ∀ id t, Timers.live (timers s) !! id = Some t →
          (id < Timers.next_id (timers s))%positive.

(** The setup of the Book Now listener runs once in the life of the
    page.  Before [trackPaymentSubmitClick] has set its flag nothing
    exists; afterwards exactly one of three things does: the one pending
    [checkButton], the one listener it attached, or the one warning it
    logged when it gave up. *)
Definition book_now_setup_once (s : State) : Prop :=
  if paymentSubmitClickInitialized s then
    (∃ id attempts d,
        sole is_CheckButton (CheckButton attempts) d id s
        ∧ button_listeners s = 0 ∧ book_now_warnings s = 0)
    ∨ (none_pending is_CheckButton s
       ∧ button_listeners s + book_now_warnings s = 1)
  else
    none_pending is_CheckButton s
    ∧ button_listeners s = 0 ∧ book_now_warnings s = 0.

(** [n] signals (script load, DOMContentLoaded, popstate) on page [p]
    before any timer runs, then the timers with handles 1 to [n] fire
    on page [q]. *)
Definition early_signals (n : nat) (p q : Page) : list Event :=
  repeat (Signal p) n
  ++ map (λ i, TimerFires (Pos.of_nat i) q) (seq 1 n).

(** A page off the payment step. *)
Definition rooms_page : Page :=
  {| pathname := "/reservation/abc123";
     href := "https://hotels.cloudbeds.com/reservation/abc123";
     book_now_button := false; document_body := true |}.

End PaymentTrace.

(* ================================================================== *)
(** * Script 5: the two phases of the banner watch *)

Module BannerTrace.
Import Banner.

(** The poll phase and the observe phase never overlap. *)
Definition one_phase (s : State) : Prop :=
  initialCheckIntervalId s = None ∨ observer s = None.

(** The guests page before the summary container is rendered. *)
Definition guests_page_loading : Page :=
  {| href := "https://hotels.cloudbeds.com/reservation/abc123/guests";
     target := false; banner_in_place := false; insertion_lands := false |}.

End BannerTrace.

(* ================================================================== *)
(** * Script 7: the deposit rewrite *)

Module DepositRewrite.
#[local] Open Scope string_scope.
Import JsString Regex Badge.

(** ** [parsePrice] *)

Definition byte (n : N) : re := Class (λ c, (code c =? n)%N).

Definition bytes (l : list N) : re := fold_right (λ n r, Seq (byte n) r) Eps l.

(** [\s]: the white space and line terminators of ECMAScript, on the
    UTF-8 encoding of the text: U+0009 to U+000D, U+0020, U+00A0,
    U+1680, U+2000 to U+200A, U+2028, U+2029, U+202F, U+205F, U+3000
    and U+FEFF. *)
Definition js_space : re :=
  Alt (Class (λ c, ((9 <=? code c) && (code c <=? 13) || (code c =? 32))%N))
 (Alt (bytes [194; 160]%N)
 (Alt (bytes [225; 154; 128]%N)
 (Alt (Seq (bytes [226; 128]%N)
           (Class (λ c, ((128 <=? code c) && (code c <=? 138)
                         || (code c =? 168) || (code c =? 169)
                         || (code c =? 175))%N)))
 (Alt (bytes [226; 129; 159]%N)
 (Alt (bytes [227; 128; 128]%N)
      (bytes [239; 187; 191]%N)))))).

(** [s.replace(r, '')] for a pattern [r] with the [g] flag: every match,
    leftmost first, is dropped; after an empty match the search moves on
    by one character. *)
Fixpoint remove_all_from (fuel : nat) (r : re) (s : string) : string :=
  match fuel with
  | O => s
  | S fuel' =>
      let skip :=
        match s with
        | EmptyString => EmptyString
        | String c rest => String c (remove_all_from fuel' r rest)
        end in
      match exec r string s Some with
      | Some rest =>
          if (String.length rest <? String.length s)%nat
          then remove_all_from fuel' r rest
          else skip
      | None => skip
      end
  end.

Definition remove_all (r : re) (s : string) : string :=
  remove_all_from (S (String.length s)) r s.

(** [/USD\s*/g] and [/,/g] *)
Definition usd_pattern : re := Seq (lit "USD") (Star js_space).
Definition comma_pattern : re := chr ",".

(** [parsePrice(text)].  [trim] does not change what [/(\d+\.\d{2})/]
    finds; the number parsed from the match is the binary64 number
    nearest to it, and [0] when there is no match. *)
Definition parsePrice (text : string) : number :=
  let cleanedText := remove_all comma_pattern (remove_all usd_pattern text) in
  match match_amount cleanedText with
  | Some numericMatch => parse_hundredths (amount_cents numericMatch)
  | None => S754_zero false
  end.

(** ** [applyDepositChanges] *)

Record Page := {
  subtotal : option string;
    (* textContent of p[data-testid="shopping-cart-summary-total"] *)
  taxes_and_fees : option string;
    (* textContent of p[data-testid="shopping-cart-summary-taxes-and-fees"] *)
  grand_total : bool;
    (* p[data-testid="shopping-cart-summary-grand-total"] exists *)
  banner_grand_total : bool
    (* p[data-testid="shopping-cart-banner-grand-total"] exists *)
}.

(** What the script writes into an element: the loading placeholder, or
    the deposit and the balance, each the value in hundredths of the
    string [toFixed(2)] prints. *)
Inductive Content :=
| Loading
| Deposit (halfSubtotal balance : option N).

Inductive Effect :=
| SetGrandTotal (c : Content)         (* grandTotalElement.innerHTML = ... *)
| SetBannerGrandTotal (c : Content).  (* bannerGrandTotalElement.innerHTML = ... *)

Inductive Callback :=
| ApplyDepositChanges   (* given to setInterval by startPollingSafely *)
| Restart.              (* the arrow function given to setTimeout by the wrappers *)

Record State := {
  pollAttempts : nat;
  pollInterval : option positive;
  timers : Timers.table Callback;
  effects : list Effect;    (* oldest first *)
  warnings : nat            (* 'WARNING: Max poll attempts reached. Stopping.' *)
}.

Definition initial : State :=
  {| pollAttempts := 0; pollInterval := None; timers := Timers.empty;
     effects := []; warnings := 0 |}.

Definition POLL_INTERVAL_MS : nat := 300.
Definition MAX_POLL_ATTEMPTS : nat := 200.

Definition set_attempts (n : nat) (s : State) : State :=
  {| pollAttempts := n; pollInterval := pollInterval s; timers := timers s;
     effects := effects s; warnings := warnings s |}.

Definition set_timers (tb : Timers.table Callback) (s : State) : State :=
  {| pollAttempts := pollAttempts s; pollInterval := pollInterval s; timers := tb;
     effects := effects s; warnings := warnings s |}.

Definition emit (l : list Effect) (s : State) : State :=
  {| pollAttempts := pollAttempts s; pollInterval := pollInterval s;
     timers := timers s; effects := effects s ++ l; warnings := warnings s |}.

(** [clearInterval(pollInterval); pollInterval = null] *)
Definition stop (s : State) : State :=
  {| pollAttempts := pollAttempts s; pollInterval := None;
     timers := Timers.clear (pollInterval s) (timers s);
     effects := effects s; warnings := warnings s |}.

Definition warn (s : State) : State :=
  {| pollAttempts := pollAttempts s; pollInterval := pollInterval s;
     timers := timers s; effects := effects s; warnings := S (warnings s) |}.

(** The writes of one branch: into the grand total if it exists, then
    into the banner total if it exists. *)
Definition write (c : Content) (p : Page) : list Effect :=
  (if grand_total p then [SetGrandTotal c] else [])
  ++ (if banner_grand_total p then [SetBannerGrandTotal c] else []).

(** [subtotal > 0 && taxesFees >= 0] *)
Definition amounts_valid (subtotal taxesFees : number) : bool :=
  SFltb (S754_zero false) subtotal && SFleb (S754_zero false) taxesFees.

Definition deposit_of (subtotal taxesFees : number) : Content :=
  Deposit (toFixed2 (div subtotal (of_Z 2)))
          (toFixed2 (add (div subtotal (of_Z 2)) taxesFees)).

Definition applyDepositChanges (p : Page) (s : State) : State :=
  let s := set_attempts (S (pollAttempts s)) s in
  let s :=
    match subtotal p, taxes_and_fees p with
    | Some subtotalText, Some taxesFeesText =>
        if grand_total p || banner_grand_total p then
          let subtotal := parsePrice subtotalText in
          let taxesFees := parsePrice taxesFeesText in
          if amounts_valid subtotal taxesFees
          then emit (write (deposit_of subtotal taxesFees) p) (stop s)
          else emit (write Loading p) s
        else emit (write Loading p) s
    | _, _ => emit (write Loading p) s
    end in
  if (MAX_POLL_ATTEMPTS <=? pollAttempts s)%nat && bool_decide (is_Some (pollInterval s))
  then stop (warn s)
  else s.

Definition startPollingSafely (s : State) : State :=
  match pollInterval s with
  | Some _ => s
  | None =>
      let '(id, tb) := Timers.setInterval ApplyDepositChanges POLL_INTERVAL_MS (timers s) in
      {| pollAttempts := pollAttempts s; pollInterval := Some id; timers := tb;
         effects := effects s; warnings := warnings s |}
  end.

(** The function the wrappers of [pushState] and [replaceState] hand to
    [setTimeout]. *)
Definition restart (s : State) : State :=
  startPollingSafely (set_attempts 0 (stop s)).

Definition run_callback (cb : Callback) (p : Page) (s : State) : State :=
  match cb with
  | ApplyDepositChanges => applyDepositChanges p s
  | Restart => restart s
  end.

Definition timerFires (id : positive) (p : Page) (s : State) : State :=
  match Timers.take id (timers s) with
  | None => s
  | Some (cb, tb) => run_callback cb p (set_timers tb s)
  end.

Inductive Event :=
| StartSignal     (* DOMContentLoaded, or the script load with the document ready *)
| HistoryCall     (* history.pushState or history.replaceState *)
| TimerFires (id : positive) (p : Page).

Definition step (s : State) (e : Event) : State :=
  match e with
  | StartSignal => startPollingSafely s
  | HistoryCall => set_timers (snd (Timers.setTimeout Restart 50 (timers s))) s
  | TimerFires id p => timerFires id p s
  end.

Definition run (evs : list Event) (s : State) : State := fold_left step evs s.

Definition reachable (s : State) : Prop := ∃ evs, s = run evs initial.

Definition is_ApplyDepositChanges (cb : Callback) : bool :=
  match cb with ApplyDepositChanges => true | _ => false end.

(** The amounts of the page are there and accepted. *)
Definition ready (p : Page) : bool :=
  match subtotal p, taxes_and_fees p with
  | Some subtotalText, Some taxesFeesText =>
      (grand_total p || banner_grand_total p)
      && amounts_valid (parsePrice subtotalText) (parsePrice taxesFeesText)
  | _, _ => false
  end.

(** Timer handles are never reused, and [pollInterval] and the timer
    table agree: a pending [applyDepositChanges] is the interval the
    variable holds, and the interval the variable holds is pending. *)
Definition poll_named (s : State) : Prop :=
  (∀ id t, Timers.live (timers s) !! id = Some t →
           (id < Timers.next_id (timers s))%positive)
  ∧ (∀ id t, Timers.live (timers s) !! id = Some t →
             is_ApplyDepositChanges (Timers.callback t) = true →
             pollInterval s = Some id)
  ∧ (∀ id, pollInterval s = Some id →
           Timers.live (timers s) !! id
           = Some (Timers.Timer ApplyDepositChanges POLL_INTERVAL_MS true)).

(** A number that is zero, finite or infinite, with the sign bit clear. *)
Definition nonneg (x : number) : Prop :=
  match x with
  | S754_zero false | S754_finite false _ _ | S754_infinity false => True
  | _ => False
  end.

(** ** The text the rewritten elements show *)

Definition digit_char (d : N) : ascii := ascii_of_N (48 + d).

(** The decimal digits of [n], without leading zeros. *)
Fixpoint render_digits (fuel : nat) (n : N) : string :=
  match fuel with
  | O => EmptyString
  | S fuel' =>
      if (n <? 10)%N then String (digit_char n) EmptyString
      else render_digits fuel' (n / 10)
           ++ String (digit_char (n mod 10)) EmptyString
  end.

Definition render_N (n : N) : string := render_digits (S (N.to_nat (N.log2 n))) n.

(** The string [toFixed(2)] prints for the value of [h] hundredths. *)
Definition render_hundredths (h : N) : string :=
  render_N (h / 100)
  ++ String "." (String (digit_char (h mod 100 / 10))
                        (String (digit_char (h mod 10)) EmptyString)).

Definition nl : string := String "010" EmptyString.
Definition spaces (n : nat) : string := Nat.iter n (String " ") EmptyString.

(** [bannerContent] *)
Definition banner_text (halfSubtotal : N) : string :=
  "Only Pay USD " ++ render_hundredths halfSubtotal ++ " Today".

(** The [textContent] of the grand total after [innerHTML = grandContent]:
    the two spans and the white space of the template around them. *)
Definition grand_text (halfSubtotal balance : N) : string :=
  nl ++ spaces 24 ++ "Only Pay USD " ++ render_hundredths halfSubtotal ++ " Today"
  ++ nl ++ spaces 24
  ++ nl ++ spaces 24 ++ "Balance (USD " ++ render_hundredths balance
  ++ ") When you arrive"
  ++ nl ++ spaces 20.

Definition banner_loading_text : string := "Loading Deposit...".
Definition grand_loading_text : string := "Loading Deposit and Balance...".

(** Pages used to run the script on concrete inputs. *)
Definition cart_loading : Page :=
  {| subtotal := None; taxes_and_fees := None;
     grand_total := true; banner_grand_total := true |}.

Definition cart_ready : Page :=
  {| subtotal := Some "USD 341.71"; taxes_and_fees := Some "USD 0.00";
     grand_total := true; banner_grand_total := true |}.

(** The cart of script 2 and the confirmation page of script 1 after a
    rewrite with deposit 170.85 and balance 200.00. *)
Definition rewritten_cart : Funnel.Page :=
  {| Funnel.search_params := [];
     Funnel.banner_grand_total := Some (banner_text 17085);
     Funnel.fbq_is_function := true |}.

Definition rewritten_confirmation : Purchase.Page :=
  {| Purchase.href := Purchase.href Purchase.confirmation_page;
     Purchase.cookie := Purchase.cookie Purchase.confirmation_page;
     Purchase.userAgent := Purchase.userAgent Purchase.confirmation_page;
     Purchase.be_text_paragraphs :=
       Purchase.be_text_paragraphs Purchase.confirmation_page;
     Purchase.summary_grand_total := Some (grand_text 17085 20000);
     Purchase.fbq := Purchase.fbq Purchase.confirmation_page |}.

End DepositRewrite.

(* ================================================================== *)
(** * Script 8: the security message *)

Module SecurityMessage.
#[local] Open Scope string_scope.
Import JsString Regex.

(** A pattern character under the [i] flag: ASCII letters match in both
    cases; a character outside ASCII is never folded onto an ASCII one. *)
Definition to_upper (c : ascii) : ascii :=
  if is_lower c then ascii_of_N (code c - 32) else c.

Definition chr_i (c : ascii) : re :=
  Class (λ x, (code (to_upper x) =? code (to_upper c))%N).

Fixpoint lit_i (t : string) : re :=
  match t with
  | EmptyString => Eps
  | String c rest => Seq (chr_i c) (lit_i rest)
  end.

(** [TARGET_PAGE_REGEX = /\/reservation\/[a-zA-Z0-9]+\/payment/i] *)
Definition TARGET_PAGE_REGEX : re :=
  Seq (lit_i "/reservation/") (Seq (Plus (Class is_alnum)) (lit_i "/payment")).

Record Page := {
  href : string;
  target : bool;
    (* document.querySelector(TARGET_SELECTOR) is not null *)
  message : bool;
    (* document.getElementById(MESSAGE_ID) is not null *)
  message_in_target : bool
    (* the message exists and its parentElement is the target *)
}.

Definition isPaymentPage (p : Page) : bool := test TARGET_PAGE_REGEX (href p).

Inductive Callback :=
| PollTick           (* the arrow function given to setInterval *)
| HandleUrlChange.   (* handleUrlChange given to setTimeout by the wrappers *)

Record State := {
  pollAttempts : nat;
  pollInterval : option positive;
  observer : option positive;
  timers : Timers.table Callback;
  observing : gset positive;   (* the MutationObservers that are connected *)
  next_observer : positive;    (* identity of the next observer created *)
  insertions : nat;            (* messages written into the target *)
  removals : nat;              (* messages removed *)
  warnings : nat               (* 'Max poll attempts reached without finding target.' *)
}.

Definition initial : State :=
  {| pollAttempts := 0; pollInterval := None; observer := None;
     timers := Timers.empty; observing := ∅; next_observer := 1%positive;
     insertions := 0; removals := 0; warnings := 0 |}.

Definition POLL_INTERVAL_MS : nat := 100.
Definition MAX_POLL_ATTEMPTS : nat := 300.

Definition set_attempts (n : nat) (s : State) : State :=
  {| pollAttempts := n; pollInterval := pollInterval s; observer := observer s;
     timers := timers s; observing := observing s;
     next_observer := next_observer s; insertions := insertions s;
     removals := removals s; warnings := warnings s |}.

Definition set_timers (tb : Timers.table Callback) (s : State) : State :=
  {| pollAttempts := pollAttempts s; pollInterval := pollInterval s;
     observer := observer s; timers := tb; observing := observing s;
     next_observer := next_observer s; insertions := insertions s;
     removals := removals s; warnings := warnings s |}.

(** [clearInterval(pollInterval); pollInterval = null] *)
Definition stop (s : State) : State :=
  {| pollAttempts := pollAttempts s; pollInterval := None; observer := observer s;
     timers := Timers.clear (pollInterval s) (timers s);
     observing := observing s; next_observer := next_observer s;
     insertions := insertions s; removals := removals s; warnings := warnings s |}.

(** [if (observer) observer.disconnect(); observer = null] *)
Definition drop_observer (s : State) : State :=
  {| pollAttempts := pollAttempts s; pollInterval := pollInterval s;
     observer := None; timers := timers s;
     observing := match observer s with
                  | Some oid => observing s ∖ {[oid]}
                  | None => observing s
                  end;
     next_observer := next_observer s; insertions := insertions s;
     removals := removals s; warnings := warnings s |}.

Definition add_insertion (s : State) : State :=
  {| pollAttempts := pollAttempts s; pollInterval := pollInterval s;
     observer := observer s; timers := timers s; observing := observing s;
     next_observer := next_observer s; insertions := S (insertions s);
     removals := removals s; warnings := warnings s |}.

Definition add_removal (s : State) : State :=
  {| pollAttempts := pollAttempts s; pollInterval := pollInterval s;
     observer := observer s; timers := timers s; observing := observing s;
     next_observer := next_observer s; insertions := insertions s;
     removals := S (removals s); warnings := warnings s |}.

Definition warn (s : State) : State :=
  {| pollAttempts := pollAttempts s; pollInterval := pollInterval s;
     observer := observer s; timers := timers s; observing := observing s;
     next_observer := next_observer s; insertions := insertions s;
     removals := removals s; warnings := S (warnings s) |}.

(** [insertMessage()].  [insertAdjacentHTML('beforeend', ...)] on an
    element does not throw, so the [catch] branch is left out. *)
Definition insertMessage (p : Page) (s : State) : bool * State :=
  if negb (target p) then (false, s)
  else if message_in_target p then (true, stop s)
  else
    let s := if message p then add_removal s else s in
    (true, stop (add_insertion s)).

(** [initializeObserver()] *)
Definition initializeObserver (s : State) : State :=
  let s := drop_observer s in
  let oid := next_observer s in
  {| pollAttempts := pollAttempts s; pollInterval := pollInterval s;
     observer := Some oid; timers := timers s;
     observing := {[oid]} ∪ observing s; next_observer := Pos.succ oid;
     insertions := insertions s; removals := removals s; warnings := warnings s |}.

(** The callback of the MutationObserver; [relevant] is the value of
    [relevantMutation] for the delivered records. *)
Definition onMutations (relevant : bool) (p : Page) (s : State) : State :=
  if relevant && negb (message p) then
    let '(inserted, s) := insertMessage p s in
    if inserted then drop_observer s else s
  else s.

(** The interval callback of [handleUrlChange]. *)
Definition pollTick (p : Page) (s : State) : State :=
  let s := set_attempts (S (pollAttempts s)) s in
  let '(inserted, s) := insertMessage p s in
  if inserted || (MAX_POLL_ATTEMPTS <=? pollAttempts s)%nat then
    let s := stop s in
    let s := if (MAX_POLL_ATTEMPTS <=? pollAttempts s)%nat then warn s else s in
    initializeObserver s
  else s.

Definition handleUrlChange (p : Page) (s : State) : State :=
  if isPaymentPage p then
    let s := set_attempts 0 (drop_observer (stop s)) in
    let '(id, tb) := Timers.setInterval PollTick POLL_INTERVAL_MS (timers s) in
    initializeObserver
      {| pollAttempts := pollAttempts s; pollInterval := Some id;
         observer := observer s; timers := tb; observing := observing s;
         next_observer := next_observer s; insertions := insertions s;
         removals := removals s; warnings := warnings s |}
  else
    let s := drop_observer (stop s) in
    if message p then add_removal s else s.

Definition run_callback (cb : Callback) (p : Page) (s : State) : State :=
  match cb with
  | PollTick => pollTick p s
  | HandleUrlChange => handleUrlChange p s
  end.

Definition timerFires (id : positive) (p : Page) (s : State) : State :=
  match Timers.take id (timers s) with
  | None => s
  | Some (cb, tb) => run_callback cb p (set_timers tb s)
  end.

(** The browser delivers mutation records to observer [oid]; a
    disconnected observer receives nothing. *)
Definition mutationsDelivered (oid : positive) (relevant : bool) (p : Page)
           (s : State) : State :=
  if bool_decide (oid ∈ observing s) then onMutations relevant p s else s.

Inductive Event :=
| UrlSignal (p : Page)   (* DOMContentLoaded, or the script load with the document ready *)
| HistoryCall            (* history.pushState or history.replaceState *)
| TimerFires (id : positive) (p : Page)
| Mutations (oid : positive) (relevant : bool) (p : Page).

Definition step (s : State) (e : Event) : State :=
  match e with
  | UrlSignal p => handleUrlChange p s
  | HistoryCall =>
      set_timers (snd (Timers.setTimeout HandleUrlChange 50 (timers s))) s
  | TimerFires id p => timerFires id p s
  | Mutations oid relevant p => mutationsDelivered oid relevant p s
  end.

Definition run (evs : list Event) (s : State) : State := fold_left step evs s.

Definition reachable (s : State) : Prop := ∃ evs, s = run evs initial.

Definition is_PollTick (cb : Callback) : bool :=
  match cb with PollTick => true | _ => false end.

(** The script's variables name everything that can still call back, and
    what they name is there: a pending poll is the interval
    [pollInterval] holds, a connected observer is the one [observer]
    holds, and the interval [pollInterval] holds is pending. *)
Definition consistent (s : State) : Prop :=
  (∀ id t, Timers.live (timers s) !! id = Some t →
           (id < Timers.next_id (timers s))%positive)
  ∧ (∀ id t, Timers.live (timers s) !! id = Some t →
             is_PollTick (Timers.callback t) = true →
             pollInterval s = Some id)
  ∧ (∀ id, pollInterval s = Some id →
           Timers.live (timers s) !! id
           = Some (Timers.Timer PollTick POLL_INTERVAL_MS true))
  ∧ (∀ oid, oid ∈ observing s → observer s = Some oid).

(** Nothing of the script is left that could write the message: no
    poll is pending and no observer is connected. *)
Definition idle (s : State) : Prop :=
  pollInterval s = None ∧ observer s = None ∧ observing s = ∅
  ∧ ∀ id t, Timers.live (timers s) !! id = Some t →
            is_PollTick (Timers.callback t) = false.

(** Pages used to run the script on concrete inputs. *)
Definition payment_page_loading : Page :=
  {| href := "https://hotels.cloudbeds.com/reservation/abc123/payment";
     target := false; message := false; message_in_target := false |}.

Definition payment_page : Page :=
  {| href := "https://hotels.cloudbeds.com/reservation/abc123/payment";
     target := true; message := false; message_in_target := false |}.

Definition guests_page : Page :=
  {| href := "https://hotels.cloudbeds.com/reservation/abc123/guests";
     target := false; message := true; message_in_target := false |}.

End SecurityMessage.

(* ================================================================== *)
(** * Script 6: the deposit clarification *)

Module DepositClarification.
#[local] Open Scope string_scope.
Import JsString Regex.

(** A price element as [insertClarification] sees it. *)
Record PriceElement := {
  text : string;            (* priceElement.textContent *)
  deposit_amount : bool;
    (* getDepositAmount(text.trim(), DEPOSIT_PERCENTAGE) is not null *)
  clarification : bool      (* the element holds this script's span *)
}.

Record Page := {
  href : string;
  room_prices : list PriceElement;
    (* document.querySelectorAll(ROOM_PRICE_SELECTOR) *)
  summary_total : option PriceElement;
    (* document.querySelector(SUMMARY_TOTAL_PRICE_SELECTOR) *)
  banner_total : option PriceElement
    (* document.querySelector(BANNER_TOTAL_PRICE_SELECTOR) *)
}.

Definition price_elements (p : Page) : list PriceElement :=
  room_prices p ++ option_list (summary_total p) ++ option_list (banner_total p).

Inductive Callback :=
| InitialCheck        (* the arrow function given to setInterval by handleUrlChange *)
| PersistentRecheck   (* the arrow function given to setInterval by attemptInsertionLogic *)
| HandleUrlChange.    (* handleUrlChange given to setTimeout by the wrappers *)

Record State := {
  initialCheckAttempt : nat;
  initialCheckIntervalId : option positive;
  persistentRecheckIntervalId : option positive;
  observer : option positive;
  timers : Timers.table Callback;
  observing : gset positive;   (* the MutationObservers that are connected *)
  next_observer : positive;    (* identity of the next observer created *)
  clarified : nat;             (* calls of insertClarification that returned true *)
  warnings : nat               (* 'Max attempts reached, elements not found ...' *)
}.

Definition initial : State :=
  {| initialCheckAttempt := 0; initialCheckIntervalId := None;
     persistentRecheckIntervalId := None; observer := None;
     timers := Timers.empty; observing := ∅; next_observer := 1%positive;
     clarified := 0; warnings := 0 |}.

Definition INITIAL_CHECK_INTERVAL_MS : nat := 100.
Definition INITIAL_CHECK_MAX_ATTEMPTS : nat := 50.
Definition PERSISTENT_RECHECK_INTERVAL_MS : nat := 300.

Definition set_attempt (n : nat) (s : State) : State :=
  {| initialCheckAttempt := n; initialCheckIntervalId := initialCheckIntervalId s;
     persistentRecheckIntervalId := persistentRecheckIntervalId s;
     observer := observer s; timers := timers s; observing := observing s;
     next_observer := next_observer s; clarified := clarified s;
     warnings := warnings s |}.

Definition set_timers (tb : Timers.table Callback) (s : State) : State :=
  {| initialCheckAttempt := initialCheckAttempt s;
     initialCheckIntervalId := initialCheckIntervalId s;
     persistentRecheckIntervalId := persistentRecheckIntervalId s;
     observer := observer s; timers := tb; observing := observing s;
     next_observer := next_observer s; clarified := clarified s;
     warnings := warnings s |}.

(** [clearInterval(initialCheckIntervalId); initialCheckIntervalId = null] *)
Definition stop_initial (s : State) : State :=
  {| initialCheckAttempt := initialCheckAttempt s; initialCheckIntervalId := None;
     persistentRecheckIntervalId := persistentRecheckIntervalId s;
     observer := observer s;
     timers := Timers.clear (initialCheckIntervalId s) (timers s);
     observing := observing s; next_observer := next_observer s;
     clarified := clarified s; warnings := warnings s |}.

(** [clearInterval(persistentRecheckIntervalId);
     persistentRecheckIntervalId = null] *)
Definition stop_persistent (s : State) : State :=
  {| initialCheckAttempt := initialCheckAttempt s;
     initialCheckIntervalId := initialCheckIntervalId s;
     persistentRecheckIntervalId := None; observer := observer s;
     timers := Timers.clear (persistentRecheckIntervalId s) (timers s);
     observing := observing s; next_observer := next_observer s;
     clarified := clarified s; warnings := warnings s |}.

(** [if (observer) observer.disconnect()]; the variable keeps its value. *)
Definition disconnect (s : State) : State :=
  {| initialCheckAttempt := initialCheckAttempt s;
     initialCheckIntervalId := initialCheckIntervalId s;
     persistentRecheckIntervalId := persistentRecheckIntervalId s;
     observer := observer s; timers := timers s;
     observing := match observer s with
                  | Some oid => observing s ∖ {[oid]}
                  | None => observing s
                  end;
     next_observer := next_observer s; clarified := clarified s;
     warnings := warnings s |}.

Definition set_observer (o : option positive) (s : State) : State :=
  {| initialCheckAttempt := initialCheckAttempt s;
     initialCheckIntervalId := initialCheckIntervalId s;
     persistentRecheckIntervalId := persistentRecheckIntervalId s;
     observer := o; timers := timers s; observing := observing s;
     next_observer := next_observer s; clarified := clarified s;
     warnings := warnings s |}.

Definition add_clarified (n : nat) (s : State) : State :=
  {| initialCheckAttempt := initialCheckAttempt s;
     initialCheckIntervalId := initialCheckIntervalId s;
     persistentRecheckIntervalId := persistentRecheckIntervalId s;
     observer := observer s; timers := timers s; observing := observing s;
     next_observer := next_observer s; clarified := clarified s + n;
     warnings := warnings s |}.

Definition warn (s : State) : State :=
  {| initialCheckAttempt := initialCheckAttempt s;
     initialCheckIntervalId := initialCheckIntervalId s;
     persistentRecheckIntervalId := persistentRecheckIntervalId s;
     observer := observer s; timers := timers s; observing := observing s;
     next_observer := next_observer s; clarified := clarified s;
     warnings := S (warnings s) |}.

(** The value [insertClarification] returns.  An element that shows
    "Only Pay" is skipped; otherwise the span is inserted (or kept up to
    date) when a deposit could be computed.  [createElement] and
    [appendChild] do not throw here, so the [catch] branch is left out. *)
Definition insertClarification (el : PriceElement) : bool :=
  if includes "Only Pay" (text el) then false else deposit_amount el.

(** [insertedAny] at the end of the three passes of
    [attemptInsertionLogic]; every element is visited. *)
Definition insertedAny (p : Page) : bool :=
  existsb insertClarification (price_elements p).

(** [attemptInsertionLogic()] *)
Definition attemptInsertionLogic (p : Page) (s : State) : bool * State :=
  let s := add_clarified
             (length (List.filter insertClarification (price_elements p))) s in
  if insertedAny p then
    let s :=
      match persistentRecheckIntervalId s with
      | Some _ => s
      | None =>
          let '(h, tb) :=
            Timers.setInterval PersistentRecheck PERSISTENT_RECHECK_INTERVAL_MS
                               (timers s) in
          {| initialCheckAttempt := initialCheckAttempt s;
             initialCheckIntervalId := initialCheckIntervalId s;
             persistentRecheckIntervalId := Some h;
             observer := observer s; timers := tb; observing := observing s;
             next_observer := next_observer s; clarified := clarified s;
             warnings := warnings s |}
      end in
    (true, stop_initial s)
  else (false, s).

(** The callback of the persistent re-check. *)
Definition needsReinsertion (p : Page) : bool :=
  existsb (λ el, negb (clarification el) && negb (includes "Only Pay" (text el)))
          (price_elements p).

Definition persistentRecheck (p : Page) (s : State) : State :=
  if needsReinsertion p then snd (attemptInsertionLogic p s) else s.

(** [initializeDepositObserver()] *)
Definition initializeDepositObserver (s : State) : State :=
  let s := disconnect s in
  let oid := next_observer s in
  {| initialCheckAttempt := initialCheckAttempt s;
     initialCheckIntervalId := initialCheckIntervalId s;
     persistentRecheckIntervalId := persistentRecheckIntervalId s;
     observer := Some oid; timers := timers s;
     observing := {[oid]} ∪ observing s; next_observer := Pos.succ oid;
     clarified := clarified s; warnings := warnings s |}.

(** The callback of the MutationObserver; [relevant] is the value of
    [relevantMutation] for the delivered records. *)
Definition onMutations (relevant : bool) (p : Page) (s : State) : State :=
  if relevant then snd (attemptInsertionLogic p s) else s.

(** The interval callback of [handleUrlChange]. *)
Definition initialCheck (p : Page) (s : State) : State :=
  let '(inserted, s) := attemptInsertionLogic p s in
  let s :=
    if inserted || (INITIAL_CHECK_MAX_ATTEMPTS <=? initialCheckAttempt s)%nat then
      let s := stop_initial s in
      let s := if (INITIAL_CHECK_MAX_ATTEMPTS <=? initialCheckAttempt s)%nat
               then warn s else s in
      initializeDepositObserver s
    else s in
  set_attempt (S (initialCheckAttempt s)) s.

(** The three clears and resets both branches of [handleUrlChange] share. *)
Definition release (s : State) : State :=
  set_observer None (disconnect (stop_persistent (stop_initial s))).

Definition handleUrlChange (p : Page) (s : State) : State :=
  if isRoomSelectionPage (href p) then
    let s := set_attempt 0 (release s) in
    let '(h, tb) :=
      Timers.setInterval InitialCheck INITIAL_CHECK_INTERVAL_MS (timers s) in
    {| initialCheckAttempt := initialCheckAttempt s;
       initialCheckIntervalId := Some h;
       persistentRecheckIntervalId := persistentRecheckIntervalId s;
       observer := observer s; timers := tb; observing := observing s;
       next_observer := next_observer s; clarified := clarified s;
       warnings := warnings s |}
  else release s.

Definition run_callback (cb : Callback) (p : Page) (s : State) : State :=
  match cb with
  | InitialCheck => initialCheck p s
  | PersistentRecheck => persistentRecheck p s
  | HandleUrlChange => handleUrlChange p s
  end.

Definition timerFires (id : positive) (p : Page) (s : State) : State :=
  match Timers.take id (timers s) with
  | None => s
  | Some (cb, tb) => run_callback cb p (set_timers tb s)
  end.

(** The browser delivers mutation records to observer [oid]; a
    disconnected observer receives nothing. *)
Definition mutationsDelivered (oid : positive) (relevant : bool) (p : Page)
           (s : State) : State :=
  if bool_decide (oid ∈ observing s) then onMutations relevant p s else s.

Inductive Event :=
| UrlSignal (p : Page)   (* DOMContentLoaded, or the script load with the document ready *)
| HistoryCall            (* history.pushState or history.replaceState *)
| TimerFires (id : positive) (p : Page)
| Mutations (oid : positive) (relevant : bool) (p : Page).

Definition step (s : State) (e : Event) : State :=
  match e with
  | UrlSignal p => handleUrlChange p s
  | HistoryCall =>
      set_timers (snd (Timers.setTimeout HandleUrlChange 50 (timers s))) s
  | TimerFires id p => timerFires id p s
  | Mutations oid relevant p => mutationsDelivered oid relevant p s
  end.

Definition run (evs : list Event) (s : State) : State := fold_left step evs s.

Definition reachable (s : State) : Prop := ∃ evs, s = run evs initial.

Definition is_InitialCheck (cb : Callback) : bool :=
  match cb with InitialCheck => true | _ => false end.

Definition is_PersistentRecheck (cb : Callback) : bool :=
  match cb with PersistentRecheck => true | _ => false end.

(** The script's variables name everything that can still call back, and
    the intervals they name are pending. *)
Definition consistent (s : State) : Prop :=
  (∀ id t, Timers.live (timers s) !! id = Some t →
           (id < Timers.next_id (timers s))%positive)
  ∧ (∀ id t, Timers.live (timers s) !! id = Some t →
             is_InitialCheck (Timers.callback t) = true →
             initialCheckIntervalId s = Some id)
  ∧ (∀ id t, Timers.live (timers s) !! id = Some t →
             is_PersistentRecheck (Timers.callback t) = true →
             persistentRecheckIntervalId s = Some id)
  ∧ (∀ id, initialCheckIntervalId s = Some id →
           Timers.live (timers s) !! id
           = Some (Timers.Timer InitialCheck INITIAL_CHECK_INTERVAL_MS true))
  ∧ (∀ id, persistentRecheckIntervalId s = Some id →
           Timers.live (timers s) !! id
           = Some (Timers.Timer PersistentRecheck PERSISTENT_RECHECK_INTERVAL_MS true))
  ∧ (∀ oid, oid ∈ observing s → observer s = Some oid).

(** An event that is not a URL change: no signal and no history call. *)
Definition quiet (e : Event) : bool :=
  match e with
  | UrlSignal _ | HistoryCall => false
  | TimerFires _ _ | Mutations _ _ _ => true
  end.

(** No [handleUrlChange] is waiting in a timeout. *)
Definition no_url_change_pending (s : State) : Prop :=
  ∀ id t, Timers.live (timers s) !! id = Some t →
          Timers.callback t ≠ HandleUrlChange.

(** Nothing of the script is left running. *)
Definition idle (s : State) : Prop :=
  initialCheckIntervalId s = None ∧ persistentRecheckIntervalId s = None
  ∧ observer s = None ∧ observing s = ∅
  ∧ ∀ id t, Timers.live (timers s) !! id = Some t →
            Timers.callback t = HandleUrlChange.

(** Pages used to run the script on concrete inputs. *)
Definition room_price : PriceElement :=
  {| text := "USD 341.71"; deposit_amount := true; clarification := false |}.

Definition rooms_page : Page :=
  {| href := "https://hotels.cloudbeds.com/reservation/abc123";
     room_prices := [room_price]; summary_total := None; banner_total := None |}.

Definition rooms_page_loading : Page :=
  {| href := "https://hotels.cloudbeds.com/reservation/abc123";
     room_prices := []; summary_total := None; banner_total := None |}.

Definition home_page : Page :=
  {| href := "https://hotels.cloudbeds.com/";
     room_prices := []; summary_total := None; banner_total := None |}.

(** The cart after script 7 has rewritten both totals. *)
Definition rewritten_cart (half balance : N) : Page :=
  {| href := "https://hotels.cloudbeds.com/reservation/abc123";
     room_prices := [];
     summary_total :=
       Some {| text := DepositRewrite.grand_text half balance;
               deposit_amount := true; clarification := false |};
     banner_total :=
       Some {| text := DepositRewrite.banner_text half;
               deposit_amount := true; clarification := false |} |}.

End DepositClarification.

(* ================================================================== *)
(** * Script 1, continued: the sentence that carries the reservation number *)

Module ReservationText.
#[local] Open Scope string_scope.
Import JsString Purchase.

Definition no_hash (c : ascii) : bool := negb (code c =? 35)%N.

(** The text ends the identifier: it is empty or starts with a character
    outside [[A-Z0-9-]]. *)
Definition ends_id (rest : string) : bool :=
  match rest with
  | EmptyString => true
  | String c _ => negb (is_id_char c)
  end.

(** A paragraph that announces reservation [id]. *)
Definition sentence (pre id rest : string) : string :=
  pre ++ "reservation number is #" ++ id ++ rest.

(** The page [p] with the paragraphs [ps]. *)
Definition with_paragraphs (p : Page) (ps : list string) : Page :=
  {| href := href p; cookie := cookie p; userAgent := userAgent p;
     be_text_paragraphs := ps;
     summary_grand_total := summary_grand_total p; fbq := fbq p |}.

End ReservationText.

(* ================================================================== *)
(** * Script 3, continued: the senders of the payment events *)

Module PaymentEvents.
#[local] Open Scope string_scope.
Import JsString.

Record Page := {
  pathname : string;                    (* window.location.pathname *)
  href : string;                        (* window.location.href *)
  summary_grand_total : option string;
    (* textContent of p[data-testid="shopping-cart-summary-grand-total"] *)
  fbq : Purchase.Fbq
    (* typeof fbq === 'function' or not, and whether a call returns *)
}.

Inductive EventName := AddPaymentInfo | PaymentSubmitClick | PaymentError.

Inductive Webhook :=
| ZAPIER_WEBHOOK_ADD_PAYMENT_INFO
| ZAPIER_WEBHOOK_CUSTOM_EVENTS.

(** [eventData]: the URL captured when the event was triggered and the
    value, in hundredths.  The value is greater than zero, so [currency]
    is always 'USD'; [error_message_detected] goes with [PaymentError]. *)
Record EventData := { event_source_url : string; value : N }.

(** The pixel call and the relay POST.  The POST also carries the URL of
    the page at the time it is sent; [event_id] ('evt_' + Date.now()),
    the cookies and the user agent are left out. *)
Inductive Effect :=
| Pixel (name : EventName) (data : EventData)
| Capi (name : EventName) (hook : Webhook) (url : string) (data : EventData).

Inductive Callback :=
| CheckPrice (name : EventName) (url : string) (attempts : nat)
    (* checkPrice of the getPaymentValue call made for [name], with the
       URL its continuation has captured and the closure's counter *)
| CheckForTrackingEvents.

Record State := {
  addPaymentInfoFired : bool;       (* window.__addPaymentInfoFired *)
  paymentSubmitClickFired : bool;   (* window.__paymentSubmitClickFired *)
  paymentErrorFired : bool;         (* window.__paymentErrorFired *)
  timers : Timers.table Callback;
  effects : list Effect             (* oldest first *)
}.

Definition initial : State :=
  {| addPaymentInfoFired := false; paymentSubmitClickFired := false;
     paymentErrorFired := false; timers := Timers.empty; effects := [] |}.

Definition set_timers (tb : Timers.table Callback) (s : State) : State :=
  {| addPaymentInfoFired := addPaymentInfoFired s;
     paymentSubmitClickFired := paymentSubmitClickFired s;
     paymentErrorFired := paymentErrorFired s; timers := tb;
     effects := effects s |}.

Definition hook_of (name : EventName) : Webhook :=
  match name with
  | AddPaymentInfo => ZAPIER_WEBHOOK_ADD_PAYMENT_INFO
  | PaymentSubmitClick | PaymentError => ZAPIER_WEBHOOK_CUSTOM_EVENTS
  end.

(** The value a poll extracts: a match of [/\d+\.\d{2}/] whose value is
    greater than zero.  ([trim] does not change what the pattern finds.) *)
Definition extracted_value (p : Page) : option N :=
  match summary_grand_total p with
  | None => None
  | Some text =>
      match match_amount text with
      | Some m => if (0 <? amount_cents m)%N then Some (amount_cents m) else None
      | None => None
      end
  end.

(** The continuation given to [getPaymentValue().then]: the pixel call
    when [fbq] is a function, then [sendCAPIEvent].  An exception of
    [fbq] ends the continuation before the POST. *)
Definition send (name : EventName) (url : string) (v : N) (p : Page) (s : State)
  : State :=
  let eventData := {| event_source_url := url; value := v |} in
  {| addPaymentInfoFired := addPaymentInfoFired s;
     paymentSubmitClickFired := paymentSubmitClickFired s;
     paymentErrorFired := paymentErrorFired s; timers := timers s;
     effects := effects s
                ++ match fbq p with
                   | Purchase.FbqUndefined =>
                       [Capi name (hook_of name) (href p) eventData]
                   | Purchase.FbqReturns =>
                       [Pixel name eventData;
                        Capi name (hook_of name) (href p) eventData]
                   | Purchase.FbqThrows => [Pixel name eventData]
                   end |}.

(** [checkPrice] inside [getPaymentValue]. *)
Definition checkPrice (name : EventName) (url : string) (attempts : nat)
           (p : Page) (s : State) : State :=
  match extracted_value p with
  | Some v => send name url v p s
  | None =>
      set_timers (snd (Timers.setTimeout (CheckPrice name url (S attempts)) 200
                                         (timers s))) s
  end.

(** [getPaymentValue().then(...)] with [url] captured. *)
Definition getPaymentValue (name : EventName) (url : string) (s : State) : State :=
  set_timers (snd (Timers.setTimeout (CheckPrice name url 0) 500 (timers s))) s.

Definition fireAddPaymentInfoOnce (p : Page) (s : State) : State :=
  if addPaymentInfoFired s then s
  else
    getPaymentValue AddPaymentInfo (href p)
      {| addPaymentInfoFired := true;
         paymentSubmitClickFired := paymentSubmitClickFired s;
         paymentErrorFired := paymentErrorFired s; timers := timers s;
         effects := effects s |}.

Definition on_payment_step (p : Page) : bool :=
  includes "/reservation/" (pathname p) && includes "/payment" (href p).

(** [checkForTrackingEvents], as far as it acts on the senders. *)
Definition checkForTrackingEvents (p : Page) (s : State) : State :=
  let s := {| addPaymentInfoFired := addPaymentInfoFired s;
              paymentSubmitClickFired := false; paymentErrorFired := false;
              timers := timers s; effects := effects s |} in
  if on_payment_step p then fireAddPaymentInfoOnce p s else s.

(** The click listener [checkButton] attached to the Book Now button. *)
Definition bookNowClicked (p : Page) (s : State) : State :=
  if paymentSubmitClickFired s then s
  else
    getPaymentValue PaymentSubmitClick (href p)
      {| addPaymentInfoFired := addPaymentInfoFired s;
         paymentSubmitClickFired := true;
         paymentErrorFired := paymentErrorFired s; timers := timers s;
         effects := effects s |}.

(** The observer callback of [trackPaymentError] on one added node that
    is or holds an error element. *)
Definition errorNodeAdded (p : Page) (s : State) : State :=
  if paymentErrorFired s then s
  else
    getPaymentValue PaymentError (href p)
      {| addPaymentInfoFired := addPaymentInfoFired s;
         paymentSubmitClickFired := paymentSubmitClickFired s;
         paymentErrorFired := true; timers := timers s;
         effects := effects s |}.

Definition run_callback (cb : Callback) (p : Page) (s : State) : State :=
  match cb with
  | CheckPrice name url attempts => checkPrice name url attempts p s
  | CheckForTrackingEvents => checkForTrackingEvents p s
  end.

Definition timerFires (id : positive) (p : Page) (s : State) : State :=
  match Timers.take id (timers s) with
  | None => s
  | Some (cb, tb) => run_callback cb p (set_timers tb s)
  end.

Inductive Event :=
| Signal (p : Page)          (* script load, DOMContentLoaded, popstate *)
| PushState
| BookNowClick (p : Page)    (* a click listener of the Book Now button runs *)
| ErrorNode (p : Page)       (* an observer callback meets an error node *)
| TimerFires (id : positive) (p : Page).

Definition step (s : State) (e : Event) : State :=
  match e with
  | Signal p => checkForTrackingEvents p s
  | PushState =>
      set_timers (snd (Timers.setTimeout CheckForTrackingEvents 50 (timers s))) s
  | BookNowClick p => bookNowClicked p s
  | ErrorNode p => errorNodeAdded p s
  | TimerFires id p => timerFires id p s
  end.

Definition run (evs : list Event) (s : State) : State := fold_left step evs s.

Definition is_AddPaymentInfo (e : Effect) : bool :=
  match e with
  | Pixel AddPaymentInfo _ | Capi AddPaymentInfo _ _ _ => true
  | _ => false
  end.


Definition posts (s : State) : list (string * EventData) :=
  omap (λ e, match e with Capi AddPaymentInfo _ u d => Some (u, d) | _ => None end)
       (effects s).





(** The poll at timer [id] and its successors run once on each page of
    [ps], in turn. *)
Fixpoint poll_chain (id : positive) (ps : list Page) (s : State)
  : positive * State :=
  match ps with
  | [] => (id, s)
  | p :: rest => poll_chain (Timers.next_id (timers s)) rest (timerFires id p s)
  end.

(** Pages used to run the script on concrete inputs. *)
Definition payment_page_loading : Page :=
  {| pathname := "/reservation/abc123/payment";
     href := "https://hotels.cloudbeds.com/reservation/abc123/payment";
     summary_grand_total := None; fbq := Purchase.FbqReturns |}.

Definition confirmation_page : Page :=
  {| pathname := "/reservation/abc123/confirmation";
     href := "https://hotels.cloudbeds.com/reservation/abc123/confirmation";
     summary_grand_total := Some "USD 341.71"; fbq := Purchase.FbqReturns |}.

Definition guests_page : Page :=
  {| pathname := "/reservation/abc123/guests";
     href := "https://hotels.cloudbeds.com/reservation/abc123/guests";
     summary_grand_total := None; fbq := Purchase.FbqReturns |}.

End PaymentEvents.

(* ================================================================== *)
(** * Properties of script 1 *)
(* ================================================================== *)

Module PurchaseSpec.
Import JsString Purchase.

(** The captured identifier is never the empty string. *)
Lemma match_hash_id_truthy s id : match_hash_id s = Some id → truthy id = true.
Proof.
  induction s as [|c rest IH]; cbn; [discriminate|].
  destruct (code c =? 35)%N; [|exact IH].
  destruct (take_while is_id_char rest) eqn:E; [exact IH|].
  intros [= <-]. reflexivity.
Qed.

Lemma reservation_id_truthy p id :
  getReservationIdFromPageText p = Some id → truthy id = true.
Proof.
  unfold getReservationIdFromPageText.
  induction (be_text_paragraphs p) as [|t rest IH]; cbn; [discriminate|].
  destruct (truthy t && includes "reservation number is #" t); [|exact IH].
  destruct (match_hash_id t) eqn:E; [|exact IH].
  intros [= <-]. eauto using match_hash_id_truthy.
Qed.

Lemma pixel_calls_emit_fetch u b s :
  pixel_calls (emit (Fetch u b) s) = pixel_calls s.
Proof. unfold pixel_calls, emit; cbn. rewrite omap_app; cbn. apply app_nil_r. Qed.

(** Once the flag is set, [executeTrackingLogic] returns normally,
    leaves the flag and the timers alone and makes no pixel call. *)
Lemma executeTrackingLogic_fired p s :
  purchaseEventFired s = true →
  ∃ b s', executeTrackingLogic p s = (Normal b, s')
          ∧ purchaseEventFired s' = true
          ∧ purchaseEventCheckInterval s' = purchaseEventCheckInterval s
          ∧ timers s' = timers s
          ∧ pixel_calls s' = pixel_calls s.
Proof.
  intros Hf. unfold executeTrackingLogic.
  destruct (getReservationIdFromPageText p) as [rid|]; [|by eauto 10].
  destruct (negb (truthy rid)); [by eauto 10|].
  destruct (getTotalAmount p) as [v|]; [|by eauto 10].
  destruct (v =? 0)%N; [by eauto 10|].
  cbn. rewrite Hf. cbn.
  destruct (fbq p); eexists _, _; (split; [reflexivity|]);
    repeat split; try assumption; apply pixel_calls_emit_fetch.
Qed.

Lemma checkConfirmationPage_keeps p s :
  on_confirmation p = true →
  purchaseEventFired (checkConfirmationPage p s) = purchaseEventFired s
  ∧ effects (checkConfirmationPage p s) = effects s.
Proof.
  intros Hc. unfold checkConfirmationPage. rewrite Hc.
  destruct (purchaseEventCheckInterval s); auto.
Qed.

Lemma step_in_session s e :
  purchaseEventFired s = true → in_session e = true →
  purchaseEventFired (step s e) = true ∧ pixel_calls (step s e) = pixel_calls s.
Proof.
  intros Hf He.
  assert (Hcheck : ∀ p s0, purchaseEventFired s0 = true → on_confirmation p = true →
            pixel_calls s0 = pixel_calls s →
            purchaseEventFired (checkConfirmationPage p s0) = true
            ∧ pixel_calls (checkConfirmationPage p s0) = pixel_calls s).
  { intros p s0 H0 Hp Hpx.
    destruct (checkConfirmationPage_keeps p s0 Hp) as [H1 H2].
    unfold pixel_calls in *. rewrite H1, H2. auto. }
  destruct e as [p|p| | |id p]; cbn in *; auto.
  unfold timerFires.
  destruct (Timers.take id (timers s)) as [[cb tb]|]; [|auto].
  destruct cb; cbn.
  - unfold intervalCheck.
    destruct (executeTrackingLogic_fired p (set_timers tb s) Hf)
      as (b & s' & -> & Hf' & _ & _ & Hpx).
    destruct b; cbn; auto.
  - apply Hcheck; auto.
Qed.

(** The reservation renders on the third tick: the first two ticks change
    nothing, the third posts the webhook and fires the pixel once, sets
    the flag and clears the interval. *)
Example tracked_on_third_tick :
  let s2 := run [DOMContentLoaded confirmation_loading;
                 TimerFires 1 confirmation_loading;
                 TimerFires 1 confirmation_loading] initial in
  let s3 := step s2 (TimerFires 1 confirmation_page) in
  effects s2 = []
  ∧ Timers.pending 1 (timers s2) = true
  ∧ length (webhook_posts s3) = 1
  ∧ pixel_calls s3
    = [ {| event_id := "7742-ZX";
           event_source_url := href confirmation_page;
           px_value := 34171 |} ]
  ∧ purchaseEventFired s3 = true
  ∧ purchaseEventCheckInterval s3 = None
  ∧ Timers.pending 1 (timers s3) = false.
Proof. vm_compute. repeat split. Qed.

(** C9. Whenever no reservation ID is found, or the grand total is
    missing ([null]) or reads zero, [executeTrackingLogic] returns
    [false] and leaves everything as it was: no webhook POST, no pixel
    call, the fired flag untouched. *)
Theorem executeTrackingLogic_aborts p s :
  getReservationIdFromPageText p = None
  ∨ getTotalAmount p = None
  ∨ getTotalAmount p = Some 0%N →
  executeTrackingLogic p s = (Normal false, s).
Proof.
  unfold executeTrackingLogic.
  intros [-> | [H | H]]; [reflexivity| |];
    destruct (getReservationIdFromPageText p) as [rid|]; try reflexivity;
    destruct (negb (truthy rid)); try reflexivity; rewrite H; reflexivity.
Qed.

Lemma executeTrackingLogic_aborts_witness :
  executeTrackingLogic confirmation_loading initial = (Normal false, initial)
  ∧ executeTrackingLogic confirmation_zero_total initial = (Normal false, initial).
Proof.
  split.
  - apply (executeTrackingLogic_aborts confirmation_loading initial).
    left. reflexivity.
  - apply (executeTrackingLogic_aborts confirmation_zero_total initial).
    right. right. reflexivity.
Defined.

(** C5. [checkConfirmationPage] is idempotent: run twice on the same
    page it leaves the state the first run produced (one interval on a
    confirmation URL, nothing to clear elsewhere), and it never makes a
    call that leaves the page. *)
Theorem checkConfirmationPage_idempotent p s :
  checkConfirmationPage p (checkConfirmationPage p s) = checkConfirmationPage p s
  ∧ effects (checkConfirmationPage p s) = effects s.
Proof.
  unfold checkConfirmationPage.
  destruct (on_confirmation p), (purchaseEventCheckInterval s) eqn:E;
    cbn; rewrite ?E; auto.
Qed.

(** C1, as stated, fails.  The first tick on the confirmation page
    tracks the purchase, sets the fired flag and clears the interval.
    A further navigation signal in the same session (here popstate)
    finds no interval and creates a new one, and its first tick runs
    [executeTrackingLogic] again: it returns [true] once more and posts
    the webhook a second time. *)
Lemma second_tracking_run_in_session :
  let s1 := run [DOMContentLoaded confirmation_page;
                 TimerFires 1 confirmation_page] initial in
  let evs := [PopState confirmation_page; TimerFires 2 confirmation_page] in
  purchaseEventFired s1 = true
  ∧ forallb in_session evs = true
  ∧ length (webhook_posts s1) = 1
  ∧ fst (executeTrackingLogic confirmation_page
           (run [PopState confirmation_page] s1)) = Normal true
  ∧ length (webhook_posts (run evs s1)) = 2.
Proof. vm_compute. repeat split. Qed.

(** C1, amended. Once the fired flag is set, no sequence of timer ticks
    and navigation signals within the same session (every handler sees a
    confirmation URL) clears the flag or makes another Purchase pixel
    call, whatever the page shows and whatever state the timers are in. *)
Theorem no_second_pixel_in_session evs s :
  purchaseEventFired s = true →
  forallb in_session evs = true →
  purchaseEventFired (run evs s) = true
  ∧ pixel_calls (run evs s) = pixel_calls s.
Proof.
  revert s. induction evs as [|e evs IH]; intros s Hf Hs; [auto|].
  cbn in Hs. apply andb_prop in Hs as [He Hs].
  destruct (step_in_session s e Hf He) as [Hf' Hpx].
  destruct (IH (step s e) Hf' Hs) as [H1 H2].
  cbn. split; [exact H1|]. rewrite <- Hpx. exact H2.
Qed.

Lemma no_second_pixel_in_session_witness :
  let s1 := run [DOMContentLoaded confirmation_page;
                 TimerFires 1 confirmation_page] initial in
  let evs := [PopState confirmation_page; PushState; TimerFires 2 confirmation_page;
              TimerFires 3 confirmation_page] in
  purchaseEventFired (run evs s1) = true
  ∧ pixel_calls (run evs s1) = pixel_calls s1.
Proof.
  apply (no_second_pixel_in_session
           [PopState confirmation_page; PushState; TimerFires 2 confirmation_page;
            TimerFires 3 confirmation_page]
           (run [DOMContentLoaded confirmation_page;
                 TimerFires 1 confirmation_page] initial));
    reflexivity.
Defined.

(** C4 on the code. After the purchase is tracked the interval variable
    is [null], so leaving the confirmation page skips the block that
    holds [delete window.__purchaseEventFired]: the flag is still set
    after the transition to a non-matching URL, and on the return to the
    confirmation page the Purchase pixel does not fire again (one pixel
    call in all, next to two webhook posts). *)
Lemma fired_flag_survives_leaving :
  let s1 := run [DOMContentLoaded confirmation_page;
                 TimerFires 1 confirmation_page] initial in
  let s2 := step s1 (PopState rooms_page) in
  let s3 := run [PopState confirmation_page; TimerFires 2 confirmation_page] s2 in
  purchaseEventFired s1 = true
  ∧ on_confirmation rooms_page = false
  ∧ purchaseEventFired s2 = true
  ∧ length (pixel_calls s3) = 1
  ∧ length (webhook_posts s3) = 2.
Proof. vm_compute. repeat split. Qed.

(** A run of [executeTrackingLogic] that makes the pixel call and
    returns has set the flag. *)
Lemma flag_set_with_pixel p s b s' :
  executeTrackingLogic p s = (Normal b, s') →
  pixel_calls s' ≠ pixel_calls s →
  purchaseEventFired s' = true.
Proof.
  unfold executeTrackingLogic.
  destruct (getReservationIdFromPageText p) as [rid|]; [|intros [= _ <-] H; by destruct H].
  destruct (negb (truthy rid)); [intros [= _ <-] H; by destruct H|].
  destruct (getTotalAmount p) as [v|]; [|intros [= _ <-] H; by destruct H].
  destruct (v =? 0)%N; [intros [= _ <-] H; by destruct H|].
  cbn. destruct (fbq p), (purchaseEventFired s) eqn:E; cbn;
    try discriminate; intros [= _ <-] H; try reflexivity;
    exfalso; apply H; apply pixel_calls_emit_fetch.
Qed.

(** The flag is cleared on leaving only while the interval is pending. *)
Lemma leaving_clears_only_with_interval p s :
  on_confirmation p = false →
  purchaseEventFired (checkConfirmationPage p s)
  = match purchaseEventCheckInterval s with
    | Some _ => false
    | None => purchaseEventFired s
    end.
Proof.
  intros H. unfold checkConfirmationPage. rewrite H.
  destruct (purchaseEventCheckInterval s); reflexivity.
Qed.

(** While the tracking data is missing, a tick of the interval changes
    nothing: the interval stays pending, tick after tick. *)
Lemma interval_has_no_budget n id d p s :
  Timers.live (timers s) !! id = Some (Timers.Timer IntervalCheck d true) →
  executeTrackingLogic p s = (Normal false, s) →
  Nat.iter n (timerFires id p) s = s.
Proof.
  intros Hl Hx.
  assert (H1 : timerFires id p s = s).
  { unfold timerFires, Timers.take. rewrite Hl. cbn.
    assert (Hs : set_timers (timers s) s = s) by (destruct s; reflexivity).
    unfold intervalCheck. rewrite Hs, Hx. reflexivity. }
  induction n as [|n IH]; [reflexivity|]. rewrite Nat.iter_succ, IH. exact H1.
Qed.

(** C7. Failures stay inside the watcher.  Loading the script returns
    normally, having run none of the tracking code (no call has left the
    page, no exception was reported).  When the interval callback throws
    during a tick, the browser reports the exception and nothing else
    happens to the watcher: the timer table and the interval variable are
    as before the tick, so the interval is still pending and its next
    tick runs the callback afresh. *)
Theorem failures_contained :
  (∀ p, ∃ s, scriptLoad p = (Normal tt, s) ∧ effects s = [] ∧ uncaught s = 0)
  ∧ (∀ id d p s s',
       Timers.live (timers s) !! id = Some (Timers.Timer IntervalCheck d true) →
       executeTrackingLogic p s = (Throw, s') →
       timers (timerFires id p s) = timers s
       ∧ purchaseEventCheckInterval (timerFires id p s) = purchaseEventCheckInterval s
       ∧ Timers.pending id (timers (timerFires id p s)) = true
       ∧ uncaught (timerFires id p s) = S (uncaught s)).
Proof.
  split.
  - intros p. eexists. split; [reflexivity|].
    unfold checkConfirmationPage. destruct (on_confirmation p); cbn; auto.
  - intros id d p s s' Hl Hx.
    assert (Hs : set_timers (timers s) s = s) by (destruct s; reflexivity).
    assert (Hk : timers s' = timers s
                 ∧ purchaseEventCheckInterval s' = purchaseEventCheckInterval s
                 ∧ uncaught s' = uncaught s).
    { revert Hx. unfold executeTrackingLogic.
      destruct (getReservationIdFromPageText p); [|discriminate].
      destruct (negb (truthy s0)); [discriminate|].
      destruct (getTotalAmount p); [|discriminate].
      destruct (n =? 0)%N; [discriminate|].
      cbn. destruct (fbq p); try discriminate.
      - destruct (negb (purchaseEventFired s)); discriminate.
      - destruct (negb (purchaseEventFired s)); [|discriminate].
        intros [= <-]. cbn. auto. }
    destruct Hk as (Ht & Hi & Hu).
    unfold timerFires, Timers.take. rewrite Hl. cbn.
    unfold intervalCheck. rewrite Hs, Hx. cbn.
    rewrite Ht, Hi, Hu. repeat split.
    unfold Timers.pending. rewrite Hl. apply bool_decide_eq_true. eauto.
Qed.

Lemma failures_contained_witness :
  let s := checkConfirmationPage confirmation_fbq_throws initial in
  timers (timerFires 1 confirmation_fbq_throws s) = timers s
  ∧ purchaseEventCheckInterval (timerFires 1 confirmation_fbq_throws s)
    = purchaseEventCheckInterval s
  ∧ Timers.pending 1 (timers (timerFires 1 confirmation_fbq_throws s)) = true
  ∧ uncaught (timerFires 1 confirmation_fbq_throws s) = S (uncaught s).
Proof.
  apply (proj2 failures_contained 1%positive 200 confirmation_fbq_throws
           (checkConfirmationPage confirmation_fbq_throws initial)
           (snd (executeTrackingLogic confirmation_fbq_throws
                   (checkConfirmationPage confirmation_fbq_throws initial))));
    reflexivity.
Defined.

End PurchaseSpec.

(* ================================================================== *)
(** * Properties of the polls of scripts 2 and 3 *)
(* ================================================================== *)

Module FunnelSpec.
Import JsString Funnel.

Lemma poll_timer_fires id cb d p s :
  Timers.live (timers s) !! id = Some (Timers.Timer cb d false) →
  timerFires id p s
  = run_callback cb p
      (set_timers (Timers.Table (delete id (Timers.live (timers s)))
                                (Timers.next_id (timers s))) s).
Proof. intros H. unfold timerFires, Timers.take. rewrite H. reflexivity. Qed.

(** A poll that finds no price schedules its successor, 200 ms later,
    and does nothing else. *)
Lemma checkPrice_retries id a d p s :
  Timers.live (timers s) !! id = Some (Timers.Timer (CheckPrice a) d false) →
  extracted_price p = None →
  Timers.live (timers (timerFires id p s)) !! Timers.next_id (timers s)
  = Some (Timers.Timer (CheckPrice (S a)) 200 false)
  ∧ effects (timerFires id p s) = effects s
  ∧ fired_AddToCart (timerFires id p s) = fired_AddToCart s.
Proof.
  intros Hl Hp. rewrite (poll_timer_fires _ _ _ _ _ Hl). cbn.
  unfold checkPrice. rewrite Hp. cbn. rewrite lookup_insert_eq. auto.
Qed.

(** [getPriceValue] has no attempt budget: as long as no positive price
    is on the page, after any number of polls the next poll is pending. *)
Lemma price_poll_has_no_budget n : ∀ id a d p s,
  Timers.live (timers s) !! id = Some (Timers.Timer (CheckPrice a) d false) →
  extracted_price p = None →
  ∃ d', Timers.live (timers (snd (poll_times n id p s))) !! fst (poll_times n id p s)
        = Some (Timers.Timer (CheckPrice (n + a)) d' false)
        ∧ effects (snd (poll_times n id p s)) = effects s.
Proof.
  induction n as [|n IH]; intros id a d p s Hl Hp; cbn; [eauto|].
  destruct (checkPrice_retries id a d p s Hl Hp) as (H1 & H2 & _).
  destruct (IH _ _ _ p _ H1 Hp) as (d' & H3 & H4).
  exists d'. rewrite H3, H4, H2. rewrite Nat.add_succ_r. auto.
Qed.

Lemma polling_after_polls n id a d p s :
  Timers.live (timers s) !! id = Some (Timers.Timer (CheckPrice a) d false) →
  extracted_price p = None →
  polling (snd (poll_times n id p s)).
Proof.
  intros Hl Hp. destruct (price_poll_has_no_budget n id a d p s Hl Hp) as (d' & H & _).
  unfold polling. eauto.
Qed.

(** Navigation signals run [init], which never touches a timer. *)
Lemma init_keeps_timers p s : timers (init p s) = timers s.
Proof.
  unfold init, checkSearchStep.
  destruct (fired_Search s); [reflexivity|].
  destruct (_ && _); reflexivity.
Qed.

(** The price renders before the first poll: the poll sends AddToCart
    with the price and schedules nothing. *)
Example price_found_on_first_poll :
  let s := step waiting_for_price (TimerFires 1 cart_priced) in
  effects s
  = [PixelCustom Search None; FetchZapier Search None;
     PixelCustom AddToCart (Some 34171%N); FetchZapier AddToCart (Some 34171%N)]
  ∧ fired_AddToCart s = true
  ∧ Timers.live (timers s) = ∅.
Proof. vm_compute. repeat split. Qed.

End FunnelSpec.

Module PaymentSpec.
Import JsString Payment.

Lemma chain_timer_fires id cb d p s :
  Timers.live (timers s) !! id = Some (Timers.Timer cb d false) →
  timerFires id p s
  = run_callback cb p
      (set_timers (Timers.Table (delete id (Timers.live (timers s)))
                                (Timers.next_id (timers s))) s).
Proof. intros H. unfold timerFires, Timers.take. rewrite H. reflexivity. Qed.

Lemma sole_after_retry kind cb cb' d id (s : State) :
  sole kind cb d id s →
  ∀ id' t,
    <[Timers.next_id (timers s) := Timers.Timer cb' 200 false]>
       (delete id (Timers.live (timers s))) !! id' = Some t →
    kind (Timers.callback t) = true → id' = Timers.next_id (timers s).
Proof.
  intros [_ Hu] id' t Hl Hk.
  destruct (decide (id' = Timers.next_id (timers s))) as [->|Hne]; [reflexivity|].
  rewrite lookup_insert_ne in Hl by congruence.
  destruct (decide (id' = id)) as [->|Hne'].
  - rewrite lookup_delete_eq in Hl. discriminate.
  - rewrite lookup_delete_ne in Hl by congruence.
    exfalso. apply Hne'. eauto.
Qed.

Lemma none_after_last kind cb d id (s : State) :
  sole kind cb d id s →
  ∀ id' t, delete id (Timers.live (timers s)) !! id' = Some t →
           kind (Timers.callback t) = false.
Proof.
  intros [_ Hu] id' t Hl.
  destruct (decide (id' = id)) as [->|Hne].
  - rewrite lookup_delete_eq in Hl. discriminate.
  - rewrite lookup_delete_ne in Hl by congruence.
    destruct (kind (Timers.callback t)) eqn:E; [|reflexivity].
    exfalso. apply Hne. eauto.
Qed.

Lemma sole_first kind cb d (s : State) :
  none_pending kind s →
  ∀ id' t, <[Timers.next_id (timers s) := Timers.Timer cb d false]>
             (Timers.live (timers s)) !! id' = Some t →
           kind (Timers.callback t) = true → id' = Timers.next_id (timers s).
Proof.
  intros Hn id' t Hl Hk.
  destruct (decide (id' = Timers.next_id (timers s))) as [->|Hne]; [reflexivity|].
  rewrite lookup_insert_ne in Hl by congruence.
  rewrite (Hn _ _ Hl) in Hk. discriminate.
Qed.

(** ** The Book Now poll *)

Lemma checkButton_retries k d id p s :
  sole is_CheckButton (CheckButton k) d id s →
  no_button p → k < maxAttempts →
  sole is_CheckButton (CheckButton (S k)) 200 (Timers.next_id (timers s))
       (timerFires id p s)
  ∧ warnings (timerFires id p s) = warnings s
  ∧ button_listeners (timerFires id p s) = button_listeners s
  ∧ paymentSubmitClickInitialized (timerFires id p s)
    = paymentSubmitClickInitialized s.
Proof.
  intros Hs Hp Hk. pose proof Hs as [Hl _].
  rewrite (chain_timer_fires _ _ _ _ _ Hl). cbn. unfold checkButton.
  rewrite Hp. apply Nat.ltb_lt in Hk. rewrite Hk. cbn.
  repeat split; [apply lookup_insert_eq|].
  eapply sole_after_retry; eauto.
Qed.

Lemma checkButton_gives_up d id p s :
  sole is_CheckButton (CheckButton maxAttempts) d id s →
  no_button p →
  none_pending is_CheckButton (timerFires id p s)
  ∧ warnings (timerFires id p s) = warnings s ++ [BookNowButtonNotFound]
  ∧ button_listeners (timerFires id p s) = button_listeners s
  ∧ paymentSubmitClickInitialized (timerFires id p s)
    = paymentSubmitClickInitialized s.
Proof.
  intros Hs Hp. pose proof Hs as [Hl _].
  rewrite (chain_timer_fires _ _ _ _ _ Hl). cbn. unfold checkButton.
  rewrite Hp. cbn. repeat split.
  intros id' t. cbn. eapply none_after_last; eauto.
Qed.

Lemma chain_times_succ n id p s :
  chain_times (S n) id p s
  = (Timers.next_id (timers (snd (chain_times n id p s))),
     timerFires (fst (chain_times n id p s)) p (snd (chain_times n id p s))).
Proof.
  revert id s. induction n as [|n IH]; intros id s; [reflexivity|].
  change (chain_times (S (S n)) id p s)
    with (chain_times (S n) (Timers.next_id (timers s)) p (timerFires id p s)).
  rewrite IH. reflexivity.
Qed.

Lemma checkButton_chain n : ∀ k d id p s,
  sole is_CheckButton (CheckButton k) d id s →
  no_button p → k + n ≤ maxAttempts →
  (∃ d', sole is_CheckButton (CheckButton (k + n)) d'
              (fst (chain_times n id p s)) (snd (chain_times n id p s))
         ∧ d' = match n with 0 => d | S _ => 200 end)
  ∧ warnings (snd (chain_times n id p s)) = warnings s
  ∧ button_listeners (snd (chain_times n id p s)) = button_listeners s
  ∧ paymentSubmitClickInitialized (snd (chain_times n id p s))
    = paymentSubmitClickInitialized s.
Proof.
  induction n as [|n IH]; intros k d id p s Hs Hp Hk.
  - cbn. rewrite Nat.add_0_r. eauto 10.
  - rewrite chain_times_succ. cbn [fst snd].
    destruct (IH k d id p s Hs Hp) as ((d' & H5 & _) & H6 & H7 & H8); [lia|].
    destruct (checkButton_retries _ _ _ p _ H5 Hp) as (H1 & H2 & H3 & H4); [lia|].
    rewrite H2, H3, H4, H6, H7, H8.
    replace (k + S n) with (S (k + n)) by lia. eauto 10.
Qed.


(** Once the listener poll is initialised and no [checkButton] timer is
    pending, nothing starts the poll again or repeats its warning. *)
Lemma step_after_give_up s e :
  paymentSubmitClickInitialized s = true →
  none_pending is_CheckButton s →
  paymentSubmitClickInitialized (step s e) = true
  ∧ none_pending is_CheckButton (step s e)
  ∧ book_now_warnings (step s e) = book_now_warnings s.
Proof.
  intros Hi Hn.
  assert (Hadd : ∀ (s0 : State) cb d id t,
             none_pending is_CheckButton s0 →
             <[Timers.next_id (timers s0) := Timers.Timer cb d false]>
                (Timers.live (timers s0)) !! id = Some t →
             is_CheckButton cb = false →
             is_CheckButton (Timers.callback t) = false).
  { intros s0 cb d id t H0 Hl Hcb.
    destruct (decide (id = Timers.next_id (timers s0))) as [->|Hne].
    - rewrite lookup_insert_eq in Hl. by injection Hl as <-.
    - rewrite lookup_insert_ne in Hl by congruence. eauto. }
  assert (Hcheck : ∀ p s0, paymentSubmitClickInitialized s0 = true →
             none_pending is_CheckButton s0 →
             paymentSubmitClickInitialized (checkForTrackingEvents p s0) = true
             ∧ none_pending is_CheckButton (checkForTrackingEvents p s0)
             ∧ book_now_warnings (checkForTrackingEvents p s0) = book_now_warnings s0).
  { intros p s0 H0 Hn0. unfold checkForTrackingEvents, trackPaymentSubmitClick.
    rewrite H0. replace (if on_payment_step p then s0 else s0) with s0
      by (destruct (on_payment_step p); reflexivity).
    unfold trackPaymentError.
    destruct (paymentErrorObserverInitialized s0); [auto|].
    cbn. repeat split; [exact H0|].
    intros id t; cbn; intros Hl. eapply (Hadd s0); eauto. }
  destruct e as [p| |id p]; cbn.
  - apply Hcheck; assumption.
  - repeat split; [exact Hi|]. intros id t; cbn; intros Hl. eapply (Hadd s); eauto.
  - unfold timerFires, Timers.take.
    destruct (Timers.live (timers s) !! id) as [t|] eqn:El; [|auto].
    pose proof (Hn _ _ El) as Hcb.
    set (s0 := set_timers _ s).
    assert (Hn0 : none_pending is_CheckButton s0).
    { subst s0. intros id' t'. cbn. destruct (Timers.repeating t); cbn; [apply Hn|].
      intros Hl. destruct (decide (id' = id)) as [->|Hne].
      - rewrite lookup_delete_eq in Hl. discriminate.
      - rewrite lookup_delete_ne in Hl by congruence. eauto. }
    assert (Hi0 : paymentSubmitClickInitialized s0 = true) by exact Hi.
    assert (Hw0 : book_now_warnings s0 = book_now_warnings s) by reflexivity.
    clearbody s0. rewrite <- Hw0.
    destruct (Timers.callback t) as [a|a|]; [discriminate| |]; cbn.
    + unfold tryObserveBody.
      destruct (document_body p); [auto|].
      destruct (a <? maxBodyCheckAttempts).
      * repeat split; [exact Hi0|]. intros id' t'; cbn; intros Hl. eapply (Hadd s0); eauto.
      * repeat split; [exact Hi0|exact Hn0|].
        unfold book_now_warnings, warn; cbn.
        rewrite List.filter_app, length_app. cbn. lia.
    + apply Hcheck; assumption.
Qed.

Lemma run_after_give_up evs : ∀ s,
  paymentSubmitClickInitialized s = true →
  none_pending is_CheckButton s →
  none_pending is_CheckButton (run evs s)
  ∧ book_now_warnings (run evs s) = book_now_warnings s.
Proof.
  induction evs as [|e evs IH]; intros s Hi Hn; [auto|].
  destruct (step_after_give_up s e Hi Hn) as (H1 & H2 & H3).
  destruct (IH _ H1 H2) as [H4 H5]. cbn. rewrite <- H3. auto.
Qed.

(** The Book Now poll started by [trackPaymentSubmitClick] on a page
    that never shows the button: [checkButton] runs 21 times (attempts
    0 to 20), each of the first 21 runs but the last schedules the next,
    the last logs the warning; after that no [checkButton] is pending and
    no later event logs the warning again. *)
Lemma book_now_poll_gives_up p s :
  paymentSubmitClickInitialized s = false →
  none_pending is_CheckButton s →
  no_button p →
  let s0 := trackPaymentSubmitClick s in
  let id0 := Timers.next_id (timers s) in
  (∀ n, n ≤ maxAttempts →
     Timers.live (timers (snd (chain_times n id0 p s0)))
       !! fst (chain_times n id0 p s0)
     = Some (Timers.Timer (CheckButton n) (match n with 0 => 500 | S _ => 200 end)
                          false)
     ∧ warnings (snd (chain_times n id0 p s0)) = warnings s)
  ∧ let s21 := snd (chain_times (S maxAttempts) id0 p s0) in
    warnings s21 = warnings s ++ [BookNowButtonNotFound]
    ∧ none_pending is_CheckButton s21
    ∧ button_listeners s21 = button_listeners s
    ∧ ∀ evs, none_pending is_CheckButton (run evs s21)
             ∧ book_now_warnings (run evs s21) = book_now_warnings s21.
Proof.
  intros Hi Hn Hp s0 id0.
  assert (H0 : sole is_CheckButton (CheckButton 0) 500 id0 s0).
  { subst s0 id0. unfold trackPaymentSubmitClick. rewrite Hi. split; cbn.
    - apply lookup_insert_eq.
    - apply sole_first. exact Hn. }
  assert (Hf : paymentSubmitClickInitialized s0 = true
               ∧ warnings s0 = warnings s ∧ button_listeners s0 = button_listeners s).
  { subst s0. unfold trackPaymentSubmitClick. rewrite Hi. auto. }
  destruct Hf as (Hf1 & Hf2 & Hf3).
  split.
  - intros n Hle.
    destruct (checkButton_chain n 0 500 id0 p s0 H0 Hp)
      as ((d & [Hl _] & ->) & Hw & _); [cbn; lia|].
    rewrite Hw, Hf2. auto.
  - cbn zeta. rewrite chain_times_succ. cbn [snd].
    destruct (checkButton_chain maxAttempts 0 500 id0 p s0 H0 Hp)
      as ((d & Hs & _) & Hw & Hb & Hi'); [cbn; lia|].
    destruct (checkButton_gives_up d _ p _ Hs Hp) as (G1 & G2 & G3 & G4).
    rewrite G2, G3, Hw, Hb, Hf2, Hf3. repeat split; [exact G1|..];
      apply run_after_give_up; try exact G1; rewrite G4, Hi'; exact Hf1.
Qed.

(** ** The payment-error observer *)

Lemma tryObserveBody_retries k d id p s :
  sole is_TryObserveBody (TryObserveBody k) d id s →
  no_body p → k < maxBodyCheckAttempts →
  sole is_TryObserveBody (TryObserveBody (S k)) 200 (Timers.next_id (timers s))
       (timerFires id p s)
  ∧ warnings (timerFires id p s) = warnings s
  ∧ body_observers (timerFires id p s) = body_observers s
  ∧ paymentErrorObserverInitialized (timerFires id p s)
    = paymentErrorObserverInitialized s.
Proof.
  intros Hs Hp Hk. pose proof Hs as [Hl _].
  rewrite (chain_timer_fires _ _ _ _ _ Hl). cbn. unfold tryObserveBody.
  rewrite Hp. apply Nat.ltb_lt in Hk. rewrite Hk. cbn.
  repeat split; [apply lookup_insert_eq|].
  eapply sole_after_retry; eauto.
Qed.

Lemma tryObserveBody_gives_up d id p s :
  sole is_TryObserveBody (TryObserveBody maxBodyCheckAttempts) d id s →
  no_body p →
  none_pending is_TryObserveBody (timerFires id p s)
  ∧ warnings (timerFires id p s) = warnings s ++ [BodyNotFound]
  ∧ body_observers (timerFires id p s) = body_observers s
  ∧ paymentErrorObserverInitialized (timerFires id p s)
    = paymentErrorObserverInitialized s.
Proof.
  intros Hs Hp. pose proof Hs as [Hl _].
  rewrite (chain_timer_fires _ _ _ _ _ Hl). cbn. unfold tryObserveBody.
  rewrite Hp. cbn. repeat split.
  intros id' t. cbn. eapply none_after_last; eauto.
Qed.

Lemma tryObserveBody_attaches k d id p s :
  sole is_TryObserveBody (TryObserveBody k) d id s →
  document_body p = true →
  none_pending is_TryObserveBody (timerFires id p s)
  ∧ body_observers (timerFires id p s) = S (body_observers s)
  ∧ paymentErrorObserverInitialized (timerFires id p s) = true.
Proof.
  intros Hs Hp. pose proof Hs as [Hl _].
  rewrite (chain_timer_fires _ _ _ _ _ Hl). cbn. unfold tryObserveBody.
  rewrite Hp. cbn. repeat split.
  intros id' t. cbn. eapply none_after_last; eauto.
Qed.

Lemma tryObserveBody_chain n : ∀ k d id p s,
  sole is_TryObserveBody (TryObserveBody k) d id s →
  no_body p → k + n ≤ maxBodyCheckAttempts →
  (∃ d', sole is_TryObserveBody (TryObserveBody (k + n)) d'
              (fst (chain_times n id p s)) (snd (chain_times n id p s))
         ∧ (0 < n → d' = 200))
  ∧ warnings (snd (chain_times n id p s)) = warnings s
  ∧ body_observers (snd (chain_times n id p s)) = body_observers s
  ∧ paymentErrorObserverInitialized (snd (chain_times n id p s))
    = paymentErrorObserverInitialized s.
Proof.
  induction n as [|n IH]; intros k d id p s Hs Hp Hk.
  - cbn. rewrite Nat.add_0_r. repeat split; auto. exists d. split; [auto|lia].
  - rewrite chain_times_succ. cbn [fst snd].
    destruct (IH k d id p s Hs Hp) as ((d' & H5 & _) & H6 & H7 & H8); [lia|].
    destruct (tryObserveBody_retries _ _ _ p _ H5 Hp) as (H1 & H2 & H3 & H4); [lia|].
    rewrite H2, H3, H4, H6, H7, H8.
    replace (k + S n) with (S (k + n)) by lia.
    repeat split; auto. exists 200. auto.
Qed.

(** A step leaves the flag and the observers alone, or it is the step
    in which an observer starts observing and the flag is set. *)
Lemma step_flag_observer s e :
  (paymentErrorObserverInitialized (step s e) = paymentErrorObserverInitialized s
   ∧ body_observers (step s e) = body_observers s)
  ∨ (paymentErrorObserverInitialized (step s e) = true
     ∧ body_observers (step s e) = S (body_observers s)).
Proof.
  assert (Hcheck : ∀ p s0,
            paymentErrorObserverInitialized (checkForTrackingEvents p s0)
            = paymentErrorObserverInitialized s0
            ∧ body_observers (checkForTrackingEvents p s0) = body_observers s0).
  { intros p s0. unfold checkForTrackingEvents, trackPaymentError,
      trackPaymentSubmitClick.
    destruct (on_payment_step p), (paymentSubmitClickInitialized s0); cbn;
      destruct (paymentErrorObserverInitialized s0) eqn:E; cbn; auto. }
  destruct e as [p| |id p]; cbn; auto.
  unfold timerFires.
  destruct (Timers.take id (timers s)) as [[cb tb]|]; [|auto].
  destruct cb as [a|a|]; cbn.
  - unfold checkButton. destruct (book_now_button p); [auto|].
    destruct (a <? maxAttempts); auto.
  - unfold tryObserveBody. destruct (document_body p); [auto|].
    destruct (a <? maxBodyCheckAttempts); auto.
  - left. apply (Hcheck p (set_timers tb s)).
Qed.

Lemma flag_implies_observer evs : ∀ s,
  (paymentErrorObserverInitialized s = true → 0 < body_observers s) →
  paymentErrorObserverInitialized (run evs s) = true → 0 < body_observers (run evs s).
Proof.
  induction evs as [|e evs IH]; intros s Hs; [exact Hs|].
  cbn. apply IH.
  destruct (step_flag_observer s e) as [[-> ->]|[_ ->]]; [exact Hs|lia].
Qed.

(** C6. [trackPaymentError] on a document whose body is not there yet
    retries [tryObserveBody] every 200 ms and at most 20 times, the
    cadence and the budget of the Book Now poll; the run after the last
    retry logs the warning and attaches nothing.  Whenever a run finds
    the body, it attaches the observer and sets the flag in that run; and
    in every reachable state a set flag means an observer is observing. *)
Theorem observer_attach_retries p s :
  paymentErrorObserverInitialized s = false →
  none_pending is_TryObserveBody s →
  no_body p →
  let s0 := trackPaymentError s in
  let id0 := Timers.next_id (timers s) in
  maxBodyCheckAttempts = maxAttempts
  ∧ (∀ n, 1 ≤ n ≤ maxBodyCheckAttempts →
       Timers.live (timers (snd (chain_times n id0 p s0)))
         !! fst (chain_times n id0 p s0)
       = Some (Timers.Timer (TryObserveBody n) 200 false)
       ∧ warnings (snd (chain_times n id0 p s0)) = warnings s
       ∧ body_observers (snd (chain_times n id0 p s0)) = body_observers s
       ∧ paymentErrorObserverInitialized (snd (chain_times n id0 p s0)) = false)
  ∧ (let s21 := snd (chain_times (S maxBodyCheckAttempts) id0 p s0) in
     warnings s21 = warnings s ++ [BodyNotFound]
     ∧ none_pending is_TryObserveBody s21
     ∧ body_observers s21 = body_observers s
     ∧ paymentErrorObserverInitialized s21 = false)
  ∧ (∀ n p', n ≤ maxBodyCheckAttempts → document_body p' = true →
       let s' := timerFires (fst (chain_times n id0 p s0)) p'
                            (snd (chain_times n id0 p s0)) in
       paymentErrorObserverInitialized s' = true
       ∧ body_observers s' = S (body_observers s)
       ∧ none_pending is_TryObserveBody s')
  ∧ (∀ evs, paymentErrorObserverInitialized (run evs initial) = true →
            0 < body_observers (run evs initial)).
Proof.
  intros Hi Hn Hp s0 id0.
  assert (H0 : sole is_TryObserveBody (TryObserveBody 0) 100 id0 s0).
  { subst s0 id0. unfold trackPaymentError. rewrite Hi. split; cbn.
    - apply lookup_insert_eq.
    - apply sole_first. exact Hn. }
  assert (Hf : paymentErrorObserverInitialized s0 = false
               ∧ warnings s0 = warnings s ∧ body_observers s0 = body_observers s).
  { subst s0. unfold trackPaymentError. rewrite Hi. auto. }
  destruct Hf as (Hf1 & Hf2 & Hf3).
  split; [reflexivity|]. split; [|split; [|split]].
  - intros n [Hge Hle].
    destruct (tryObserveBody_chain n 0 100 id0 p s0 H0 Hp)
      as ((d & [Hl _] & Hd) & Hw & Hb & Hfl); [cbn; lia|].
    rewrite Hw, Hb, Hfl, Hf2, Hf3, Hf1. rewrite Hd in Hl by lia. auto.
  - cbn zeta. rewrite chain_times_succ. cbn [snd].
    destruct (tryObserveBody_chain maxBodyCheckAttempts 0 100 id0 p s0 H0 Hp)
      as ((d & Hs & _) & Hw & Hb & Hfl); [cbn; lia|].
    destruct (tryObserveBody_gives_up d _ p _ Hs Hp) as (G1 & G2 & G3 & G4).
    rewrite G2, G3, G4, Hw, Hb, Hfl, Hf2, Hf3, Hf1. auto.
  - intros n p' Hle Hb'.
    destruct (tryObserveBody_chain n 0 100 id0 p s0 H0 Hp)
      as ((d & Hs & _) & Hw & Hb & Hfl); [cbn; lia|].
    destruct (tryObserveBody_attaches _ d _ p' _ Hs Hb') as (G1 & G2 & G3).
    cbn zeta. rewrite G2, G3, Hb, Hf3. auto.
  - intros evs. apply flag_implies_observer. discriminate.
Qed.

Lemma none_pending_initial kind : none_pending kind initial.
Proof. intros id t H. cbn in H. rewrite lookup_empty in H. discriminate. Qed.

Lemma observer_attach_retries_witness :
  let p := payment_page_bare in
  let s21 := snd (chain_times 21 1%positive p (trackPaymentError initial)) in
  warnings s21 = [BodyNotFound]
  ∧ body_observers s21 = 0
  ∧ paymentErrorObserverInitialized s21 = false.
Proof.
  destruct (observer_attach_retries payment_page_bare initial)
    as (_ & _ & (H1 & _ & H2 & H3) & _);
    [reflexivity | apply none_pending_initial | reflexivity |].
  cbn zeta. split; [exact H1|]. split; [exact H2|exact H3].
Defined.

(** The button renders before the third run of [checkButton]: the
    listener is attached, the poll ends, nothing is logged. *)
Example book_now_button_found :
  let s := run [Signal payment_page_bare; TimerFires 1 payment_page_bare;
                TimerFires 3 payment_page_bare; TimerFires 4 payment_page_ready]
               initial in
  button_listeners s = 1
  ∧ warnings s = []
  ∧ Timers.pending 4 (timers s) = false
  ∧ Timers.live (timers s) !! 5%positive = None.
Proof. vm_compute. repeat split. Qed.

End PaymentSpec.

(* ================================================================== *)
(** * Attempt budgets of the polls *)
(* ================================================================== *)

Module PollSpec.

(** C2, as stated, fails: neither the price poll of [getPriceValue] nor
    the interval of [checkConfirmationPage] stops after a bounded number
    of attempts.  On a page that never shows the price (the reservation),
    whatever budget is proposed, the poll is still pending after that
    many runs. *)
Lemma price_poll_and_interval_never_stop :
  (¬ ∃ budget, ∀ n, budget ≤ n →
       ¬ Funnel.polling
           (snd (Funnel.poll_times n 1%positive Funnel.cart_loading
                                   Funnel.waiting_for_price)))
  ∧ (¬ ∃ budget, ∀ n, budget ≤ n →
         Timers.pending 1%positive
           (Purchase.timers
              (Nat.iter n (Purchase.timerFires 1%positive Purchase.confirmation_loading)
                        Purchase.waiting_for_reservation)) = false).
Proof.
  split.
  - intros [budget H]. apply (H budget (Nat.le_refl _)).
    apply (FunnelSpec.polling_after_polls budget 1%positive 0 500); reflexivity.
  - intros [budget H]. specialize (H budget (Nat.le_refl _)).
    rewrite (PurchaseSpec.interval_has_no_budget budget 1%positive 200) in H;
      [|reflexivity|reflexivity].
    vm_compute in H. discriminate.
Qed.

(** C2, amended.  The attempt-bounded loop of [trackPaymentSubmitClick]
    stops: on a page that never shows the button [checkButton] runs 21
    times (attempts 0 to 20), then no [checkButton] is pending, exactly
    one warning was logged, and no later event logs another.  The price
    poll of [getPriceValue] and the interval of [checkConfirmationPage]
    have no attempt budget: while the price (the tracking data) is
    missing, the poll is pending after any number of runs. *)
Theorem poll_budgets :
  (∀ p s,
     Payment.paymentSubmitClickInitialized s = false →
     Payment.none_pending Payment.is_CheckButton s →
     Payment.no_button p →
     let s0 := Payment.trackPaymentSubmitClick s in
     let id0 := Timers.next_id (Payment.timers s) in
     (∀ n, n ≤ Payment.maxAttempts →
        Timers.live (Payment.timers (snd (Payment.chain_times n id0 p s0)))
          !! fst (Payment.chain_times n id0 p s0)
        = Some (Timers.Timer (Payment.CheckButton n)
                             (match n with 0 => 500 | S _ => 200 end) false)
        ∧ Payment.warnings (snd (Payment.chain_times n id0 p s0))
          = Payment.warnings s)
     ∧ let s21 := snd (Payment.chain_times (S Payment.maxAttempts) id0 p s0) in
       Payment.warnings s21 = Payment.warnings s ++ [Payment.BookNowButtonNotFound]
       ∧ Payment.none_pending Payment.is_CheckButton s21
       ∧ Payment.button_listeners s21 = Payment.button_listeners s
       ∧ ∀ evs, Payment.none_pending Payment.is_CheckButton (Payment.run evs s21)
                ∧ Payment.book_now_warnings (Payment.run evs s21)
                  = Payment.book_now_warnings s21)
  ∧ (∀ n id attempts d p s,
       Timers.live (Funnel.timers s) !! id
       = Some (Timers.Timer (Funnel.CheckPrice attempts) d false) →
       Funnel.extracted_price p = None →
       Funnel.polling (snd (Funnel.poll_times n id p s)))
  ∧ (∀ n id d p s,
       Timers.live (Purchase.timers s) !! id
       = Some (Timers.Timer Purchase.IntervalCheck d true) →
       Purchase.executeTrackingLogic p s = (Normal false, s) →
       Nat.iter n (Purchase.timerFires id p) s = s).
Proof.
  split; [|split].
  - apply PaymentSpec.book_now_poll_gives_up.
  - apply FunnelSpec.polling_after_polls.
  - apply PurchaseSpec.interval_has_no_budget.
Qed.

Lemma poll_budgets_witness :
  (let s21 := snd (Payment.chain_times 21 1%positive Payment.payment_page_bare
                     (Payment.trackPaymentSubmitClick Payment.initial)) in
   Payment.warnings s21 = [Payment.BookNowButtonNotFound]
   ∧ Payment.none_pending Payment.is_CheckButton s21)
  ∧ Funnel.polling
      (snd (Funnel.poll_times 300 1%positive Funnel.cart_loading Funnel.waiting_for_price))
  ∧ Nat.iter 300 (Purchase.timerFires 1%positive Purchase.confirmation_loading)
             Purchase.waiting_for_reservation
    = Purchase.waiting_for_reservation.
Proof.
  destruct poll_budgets as (H1 & H2 & H3).
  split; [|split].
  - destruct (H1 Payment.payment_page_bare Payment.initial)
      as (_ & G1 & G2 & _);
      [reflexivity | apply PaymentSpec.none_pending_initial | reflexivity |].
    split; [exact G1|exact G2].
  - apply (H2 300 1%positive 0 500); reflexivity.
  - apply (H3 300 1%positive 200); reflexivity.
Defined.

End PollSpec.

(* ================================================================== *)
(** * Release of the banner watcher *)
(* ================================================================== *)

Module BannerSpec.
Import JsString Banner.

Lemma insertBanner_frame p s :
  let s' := snd (insertBanner p s) in
  timers s' = timers s
  ∧ initialCheckIntervalId s' = initialCheckIntervalId s
  ∧ observer s' = observer s
  ∧ observing s' = observing s
  ∧ next_observer s' = next_observer s
  ∧ initialCheckAttempt s' = initialCheckAttempt s.
Proof.
  unfold insertBanner.
  destruct (negb (target p)); [cbn; auto 10|].
  destruct (banner_in_place p); [cbn; auto 10|].
  destruct (insertion_lands p); cbn; auto 10.
Qed.

Lemma consistent_insertBanner p s :
  consistent s → consistent (snd (insertBanner p s)).
Proof.
  destruct (insertBanner_frame p s) as (H1 & H2 & H3 & H4 & _).
  unfold consistent. rewrite H1, H2, H3, H4. auto.
Qed.

Lemma released_insertBanner k ko p s :
  released k ko s → released k ko (snd (insertBanner p s)).
Proof.
  destruct (insertBanner_frame p s) as (H1 & _ & _ & H4 & H5 & _).
  unfold released. rewrite H1, H4, H5. auto.
Qed.

(** ** The variables name every pending interval and connected observer *)

Lemma consistent_initializeBannerObserver s :
  consistent s → consistent (initializeBannerObserver s).
Proof.
  intros [HT HO]. unfold initializeBannerObserver, disconnect.
  split; [destruct (observer s); exact HT|].
  intros oid. destruct (observer s) as [o|] eqn:E; cbn; intros Hin.
  - apply elem_of_union in Hin as [Hin|Hin].
    + apply elem_of_singleton in Hin. congruence.
    + apply elem_of_difference in Hin as [Hin Hne].
      apply HO in Hin. exfalso. apply Hne. apply elem_of_singleton. congruence.
  - apply elem_of_union in Hin as [Hin|Hin].
    + apply elem_of_singleton in Hin. congruence.
    + apply HO in Hin. discriminate.
Qed.

Lemma consistent_handleUrlChange p s :
  consistent s → consistent (handleUrlChange p s).
Proof.
  unfold consistent, handleUrlChange, disconnect.
  destruct s as [att iid obs deb tb og no ins w]. cbn.
  intros [HT HO].
  assert (HO' : ∀ o oid, obs = Some o → oid ∈ og ∖ {[o]} → False).
  { intros o oid -> Hin. apply elem_of_difference in Hin as [Hin Hne].
    apply HO in Hin. apply Hne, elem_of_singleton. congruence. }
  destruct (isTargetPage p).
  - destruct iid as [i|], obs as [o|]; cbn; split;
      try (intros id t Hl Hk;
           apply lookup_insert_Some in Hl as [[-> _]|[Hne Hl]]; [reflexivity|];
           try apply lookup_delete_Some in Hl as [Hne' Hl];
           specialize (HT _ _ Hl Hk); congruence);
      intros oid Hin; try (exfalso; eapply HO'; eauto; fail);
      apply HO in Hin; discriminate.
  - destruct iid as [i|], obs as [o|]; cbn; split;
      try (intros id t Hl Hk;
           try apply lookup_delete_Some in Hl as [Hne' Hl];
           specialize (HT _ _ Hl Hk); congruence);
      intros oid Hin; try (exfalso; eapply HO'; eauto; fail);
      apply HO in Hin; discriminate.
Qed.

Lemma consistent_initialCheck p s :
  consistent s → consistent (initialCheck p s).
Proof.
  intros Hc. unfold initialCheck.
  destruct (insertBanner p s) as [inserted s1] eqn:E.
  pose proof (consistent_insertBanner p s Hc) as Hc1.
  rewrite E in Hc1. cbn in Hc1.
  destruct (inserted || (INITIAL_CHECK_MAX_ATTEMPTS <=? initialCheckAttempt s1)).
  - assert (Hc2 : consistent
              (set_interval_id None
                 (set_timers (Timers.clear (initialCheckIntervalId s1) (timers s1)) s1))).
    { destruct Hc1 as [HT HO]. split; [|exact HO].
      destruct (initialCheckIntervalId s1) as [i0|] eqn:Ei; cbn; intros i t Hl Hk.
      - apply lookup_delete_Some in Hl as [Hne Hl].
        specialize (HT _ _ Hl Hk). congruence.
      - specialize (HT _ _ Hl Hk). discriminate. }
    cbn [initialCheckAttempt set_interval_id set_timers].
    destruct (INITIAL_CHECK_MAX_ATTEMPTS <=? initialCheckAttempt s1).
    + exact Hc2.
    + apply consistent_initializeBannerObserver in Hc2. exact Hc2.
  - exact Hc1.
Qed.

Lemma consistent_step s e : consistent s → consistent (step s e).
Proof.
  intros Hc. destruct e as [p| |id p|oid relevant]; cbn.
  - apply consistent_handleUrlChange, Hc.
  - destruct Hc as [HT HO]. split; [|exact HO]. cbn. intros id t Hl Hk.
    apply lookup_insert_Some in Hl as [[_ <-]|[_ Hl]]; [discriminate|eauto].
  - unfold timerFires, Timers.take.
    destruct (Timers.live (timers s) !! id) as [t|] eqn:El; [|exact Hc].
    assert (Hc0 : consistent
              (set_timers (if Timers.repeating t then timers s
                           else Timers.Table (delete id (Timers.live (timers s)))
                                             (Timers.next_id (timers s))) s)).
    { destruct Hc as [HT HO]. split; [|exact HO].
      destruct (Timers.repeating t); cbn; [exact HT|].
      intros i t' Hl Hk. apply lookup_delete_Some in Hl as [_ Hl]. eauto. }
    destruct (Timers.callback t); cbn.
    + apply consistent_initialCheck, Hc0.
    + unfold debounced. destruct (negb (banner_in_place p)); [|exact Hc0].
      apply consistent_insertBanner, Hc0.
    + apply consistent_handleUrlChange, Hc0.
  - unfold mutationsDelivered, onMutations.
    destruct (bool_decide (oid ∈ observing s)); [|exact Hc].
    destruct relevant; [|exact Hc].
    destruct Hc as [HT HO]. split; [|exact HO].
    destruct (bannerInsertDebounceTimer s) as [i0|]; cbn; intros id t Hl Hk;
      apply lookup_insert_Some in Hl as [[_ <-]|[_ Hl]]; try discriminate;
      try apply lookup_delete_Some in Hl as [_ Hl]; eauto.
Qed.

Lemma consistent_run evs : ∀ s, consistent s → consistent (run evs s).
Proof.
  induction evs as [|e evs IH]; intros s Hc; [exact Hc|].
  apply IH, consistent_step, Hc.
Qed.

Lemma consistent_reachable s : reachable s → consistent s.
Proof.
  intros [evs ->]. apply consistent_run. split; cbn.
  - intros id t H. rewrite lookup_empty in H. discriminate.
  - intros oid H. apply not_elem_of_empty in H. contradiction.
Qed.

(** ** Handles that were released stay released *)

Lemma released_add k ko cb d rep (s : State) :
  released k ko s →
  released k ko (set_timers (snd (Timers.add (Timers.Timer cb d rep) (timers s))) s).
Proof.
  intros (HT & HO & Hk & Hko). repeat split; cbn; [|exact HO|lia|exact Hko].
  intros id t Hlt Hl. apply lookup_insert_Some in Hl as [[E _]|[_ Hl]]; [lia|eauto].
Qed.

Lemma released_clear k ko h (s : State) :
  released k ko s → released k ko (set_timers (Timers.clear h (timers s)) s).
Proof.
  intros (HT & HO & Hk & Hko). destruct h as [i|]; repeat split; cbn; auto.
  intros id t Hlt Hl. apply lookup_delete_Some in Hl as [_ Hl]. eauto.
Qed.

Lemma released_disconnect k ko o s :
  released k ko s → released k ko (disconnect o s).
Proof.
  intros (HT & HO & Hk & Hko). destruct o as [oid|]; repeat split; cbn; auto.
  intros o Hlt Hin. apply elem_of_difference in Hin as [Hin _]. eapply HO; eauto.
Qed.

Lemma released_set_interval_id k ko h s :
  released k ko s → released k ko (set_interval_id h s).
Proof. auto. Qed.

Lemma released_set_observer k ko o s :
  released k ko s → released k ko (set_observer o s).
Proof. auto. Qed.

Lemma released_set_attempt k ko n s :
  released k ko s → released k ko (set_attempt n s).
Proof. auto. Qed.

Lemma released_set_debounce k ko h s :
  released k ko s → released k ko (set_debounce h s).
Proof. auto. Qed.

Lemma released_warn k ko w s :
  released k ko s → released k ko (warn w s).
Proof. auto. Qed.

Lemma released_initializeBannerObserver k ko s :
  released k ko s → released k ko (initializeBannerObserver s).
Proof.
  intros H. apply (released_disconnect k ko (observer s)) in H.
  unfold initializeBannerObserver. set (s1 := disconnect (observer s) s) in *.
  destruct H as (HT & HO & Hk & Hko). repeat split; cbn; auto; [|lia].
  intros oid Hlt Hin. apply elem_of_union in Hin as [Hin|Hin].
  - apply elem_of_singleton in Hin. lia.
  - eapply HO; eauto.
Qed.

Lemma released_handleUrlChange k ko p s :
  released k ko s → released k ko (handleUrlChange p s).
Proof.
  intros H. unfold handleUrlChange. destruct (isTargetPage p).
  - set (s1 := match initialCheckIntervalId s with Some _ => _ | None => _ end).
    assert (H1 : released k ko s1).
    { subst s1. destruct (initialCheckIntervalId s);
        [apply released_set_interval_id, released_clear|]; exact H. }
    clearbody s1.
    set (s2 := match observer s1 with Some _ => _ | None => _ end).
    assert (H2 : released k ko s2).
    { subst s2. destruct (observer s1);
        [apply released_set_observer, released_disconnect|]; exact H1. }
    clearbody s2.
    apply (released_set_attempt k ko 0) in H2.
    apply (released_add k ko InitialCheck INITIAL_CHECK_INTERVAL_MS true) in H2.
    exact H2.
  - apply released_set_observer, released_set_interval_id, released_disconnect,
      released_clear, H.
Qed.

Lemma released_initialCheck k ko p s :
  released k ko s → released k ko (initialCheck p s).
Proof.
  intros H. unfold initialCheck.
  pose proof (released_insertBanner k ko p s H) as H1.
  destruct (insertBanner p s) as [inserted s1]. cbn in H1.
  apply released_set_attempt.
  destruct (inserted || (INITIAL_CHECK_MAX_ATTEMPTS <=? initialCheckAttempt s1));
    [|exact H1].
  apply (released_clear k ko (initialCheckIntervalId s1)) in H1.
  apply (released_set_interval_id k ko None) in H1.
  match goal with |- context [if ?c then _ else _] => destruct c end.
  - apply released_warn, H1.
  - apply released_initializeBannerObserver, H1.
Qed.

Lemma released_step k ko s e : released k ko s → released k ko (step s e).
Proof.
  intros H. destruct e as [p| |id p|oid relevant]; cbn.
  - apply released_handleUrlChange, H.
  - apply (released_add k ko HandleUrlChange 50 false), H.
  - unfold timerFires, Timers.take.
    destruct (Timers.live (timers s) !! id) as [t|] eqn:El; [|exact H].
    assert (H0 : released k ko
              (set_timers (if Timers.repeating t then timers s
                           else Timers.Table (delete id (Timers.live (timers s)))
                                             (Timers.next_id (timers s))) s)).
    { destruct (Timers.repeating t).
      - destruct s; exact H.
      - apply (released_clear k ko (Some id)), H. }
    destruct (Timers.callback t); cbn.
    + apply released_initialCheck, H0.
    + unfold debounced. destruct (negb (banner_in_place p)); [|exact H0].
      apply released_insertBanner, H0.
    + apply released_handleUrlChange, H0.
  - unfold mutationsDelivered, onMutations.
    destruct (bool_decide (oid ∈ observing s)); [|exact H].
    destruct relevant; [|exact H].
    apply (released_clear k ko (bannerInsertDebounceTimer s)) in H.
    apply (released_add k ko Debounce 50 false) in H.
    apply (released_set_debounce k ko
             (Some (Timers.next_id
                      (Timers.clear (bannerInsertDebounceTimer s) (timers s))))) in H.
    destruct s as [att iid obs deb tb og no ins w]; destruct deb; exact H.
Qed.

Lemma released_run k ko evs : ∀ s, released k ko s → released k ko (run evs s).
Proof.
  induction evs as [|e evs IH]; intros s H; [exact H|].
  apply IH, released_step, H.
Qed.

Lemma handleUrlChange_releases p s :
  consistent s → isTargetPage p = false →
  let s1 := handleUrlChange p s in
  initialCheckIntervalId s1 = None
  ∧ observer s1 = None
  ∧ (∀ id t, Timers.live (timers s1) !! id = Some t →
             is_InitialCheck (Timers.callback t) = false)
  ∧ observing s1 = ∅.
Proof.
  unfold consistent, handleUrlChange, disconnect.
  destruct s as [att iid obs deb tb og no ins w]. cbn.
  intros [HT HO] ->.
  assert (Hk : ∀ id t, Timers.live tb !! id = Some t →
                       iid ≠ Some id →
                       is_InitialCheck (Timers.callback t) = false).
  { intros id t Hl Hd. destruct (is_InitialCheck (Timers.callback t)) eqn:E; [|reflexivity].
    specialize (HT _ _ Hl E). subst iid. exfalso. apply Hd. reflexivity. }
  destruct iid as [i|], obs as [o|]; cbn; repeat split;
    try (intros id t Hl; try apply lookup_delete_Some in Hl as [Hne Hl];
         eapply Hk; [exact Hl|]; cbn; congruence);
    apply leibniz_equiv, elem_of_equiv_empty; intros oid Hin;
    try apply elem_of_difference in Hin as [Hin Hne];
    pose proof (HO _ Hin) as Ho; try discriminate;
    injection Ho as ->; apply Hne, elem_of_singleton; reflexivity.
Qed.

(** C3, as stated, fails on the price poll: [getPriceValue] is never
    released.  The poll started by an AddToCart click is still pending
    after the page has navigated (popstate, pushState and the re-check it
    schedules, all on a URL without the search parameters), and when its
    timer fires there, [checkPrice] runs and schedules itself again. *)
Lemma price_poll_outlives_navigation :
  let s1 := Funnel.waiting_for_price in
  let s2 := Funnel.run [Funnel.PopState Funnel.home_page; Funnel.PushState;
                        Funnel.TimerFires 2 Funnel.home_page] s1 in
  let s3 := Funnel.step s2 (Funnel.TimerFires 1 Funnel.home_page) in
  Timers.live (Funnel.timers s1) !! 1%positive
  = Some (Timers.Timer (Funnel.CheckPrice 0) 500 false)
  ∧ Timers.live (Funnel.timers s2) !! 1%positive
    = Some (Timers.Timer (Funnel.CheckPrice 0) 500 false)
  ∧ Timers.live (Funnel.timers s3) !! 3%positive
    = Some (Timers.Timer (Funnel.CheckPrice 1) 200 false).
Proof. vm_compute. repeat split. Qed.

(** The debounce timer of the banner observer is not part of the
    release: set by a mutation just before the page leaves the route, it
    is still pending after [handleUrlChange] has released the session,
    and when it fires it inserts the banner. *)
Lemma debounce_outlives_release :
  let s1 := run [UrlSignal guests_page; TimerFires 1 guests_page;
                 Mutations 1 true] initial in
  let s2 := step s1 (UrlSignal payment_page) in
  let s3 := step s2 (TimerFires 2 payment_page) in
  isTargetPage payment_page = false
  ∧ Timers.live (timers s2) !! 2%positive = Some (Timers.Timer Debounce 50 false)
  ∧ insertions s2 = 1
  ∧ insertions s3 = 2.
Proof. vm_compute. repeat split. Qed.

(** C3, amended.  Releasing the banner watch session ([handleUrlChange]
    on a URL off the route, in any reachable state) at once clears the
    poll interval and disconnects the mutation observer: both variables
    are [null], no poll interval is pending and no observer is connected.
    Whatever events follow, no poll interval and no observer created
    before the release comes back: their ticks and mutation records run
    no callback. *)
Theorem release_stops_poll_and_observer p s evs :
  reachable s → isTargetPage p = false →
  let s1 := handleUrlChange p s in
  initialCheckIntervalId s1 = None
  ∧ observer s1 = None
  ∧ (∀ id t, Timers.live (timers s1) !! id = Some t →
             is_InitialCheck (Timers.callback t) = false)
  ∧ observing s1 = ∅
  ∧ (∀ id t, (id < Timers.next_id (timers s1))%positive →
             Timers.live (timers (run evs s1)) !! id = Some t →
             is_InitialCheck (Timers.callback t) = false)
  ∧ (∀ oid relevant, (oid < next_observer s1)%positive →
             (oid ∉ observing (run evs s1))
             ∧ mutationsDelivered oid relevant (run evs s1) = run evs s1).
Proof.
  intros Hr Hp s1.
  destruct (handleUrlChange_releases p s (consistent_reachable s Hr) Hp)
    as (H1 & H2 & H3 & H4).
  fold s1 in H1, H2, H3, H4.
  assert (Hrel : released (Timers.next_id (timers s1)) (next_observer s1) s1).
  { repeat split; [eauto| |lia|lia]. rewrite H4. intros oid _. apply not_elem_of_empty. }
  apply (released_run _ _ evs) in Hrel. destruct Hrel as (R1 & R2 & _).
  repeat split; auto.
  unfold mutationsDelivered. rewrite bool_decide_eq_false_2; auto.
Qed.

Lemma release_stops_poll_and_observer_witness :
  let s := run [UrlSignal guests_page; TimerFires 1 guests_page;
                Mutations 1 true] initial in
  let s1 := handleUrlChange payment_page s in
  let evs := [TimerFires 1 payment_page; Mutations 1 true;
              TimerFires 2 payment_page] in
  initialCheckIntervalId s1 = None
  ∧ observer s1 = None
  ∧ observing s1 = ∅
  ∧ 1%positive ∉ observing (run evs s1).
Proof.
  destruct (release_stops_poll_and_observer payment_page
              (run [UrlSignal guests_page; TimerFires 1 guests_page;
                    Mutations 1 true] initial)
              [TimerFires 1 payment_page; Mutations 1 true;
               TimerFires 2 payment_page])
    as (H1 & H2 & _ & H4 & _ & H6).
  - eexists. reflexivity.
  - reflexivity.
  - split; [exact H1|]. split; [exact H2|]. split; [exact H4|].
    apply (H6 1%positive true). reflexivity.
Defined.

(** On the guests page the first tick inserts the banner, stops the
    poll and attaches the observer; with the banner in place a later
    debounced re-check inserts nothing. *)
Example banner_inserted_once :
  let s := run [UrlSignal guests_page; TimerFires 1 guests_page;
                Mutations 1 true; TimerFires 2 guests_page_with_banner] initial in
  insertions s = 1
  ∧ initialCheckIntervalId s = None
  ∧ observer s = Some 1%positive
  ∧ observing s = {[1%positive]}
  ∧ Timers.live (timers s) = ∅.
Proof. vm_compute. repeat split. Qed.

End BannerSpec.

(* ================================================================== *)
(** * The history wrappers are transparent *)
(* ================================================================== *)

Module HistoryHookSpec.
Import HistoryHook.

Lemma install_snoc scripts sc original :
  install (scripts ++ [sc]) original = wrap sc (install scripts original).
Proof. unfold install. rewrite fold_left_app. reflexivity. Qed.

Lemma scheduled_snoc scripts sc tb :
  scheduled (scripts ++ [sc]) tb
  = snd (Timers.setTimeout sc 50 (scheduled scripts tb)).
Proof. unfold scheduled. rewrite fold_left_app. reflexivity. Qed.

Lemma nativePushState_returns_undefined : returns_undefined nativePushState.
Proof.
  intros this args w v w'. unfold nativePushState.
  destruct this; [|discriminate].
  destruct args as [|data [|unused rest]]; try discriminate.
  intros [= <- _]. reflexivity.
Qed.

Lemma nativeReplaceState_returns_undefined : returns_undefined nativeReplaceState.
Proof.
  intros this args w v w'. unfold nativeReplaceState.
  destruct this; [|discriminate].
  destruct args as [|data [|unused rest]]; try discriminate.
  intros [= <- _]. reflexivity.
Qed.

(** C8. Whatever function a script finds at [history.pushState] or
    [history.replaceState], and however many scripts wrap it in turn, a
    call of the wrapped function first runs the original with the same
    receiver and arguments on the world as the caller left it, and only
    when that has returned schedules the re-checks (one timer of 50 ms
    per wrapper, innermost first); an exception of the original comes
    out unchanged and schedules nothing.  The history after the call is
    the history the original produces, and for an original that returns
    [undefined], as both history operations do, the caller sees the same
    completion. *)
Theorem wrappers_transparent scripts original this args w :
  returns_undefined original →
  let r0 := original this args w in
  let r := install scripts original this args w in
  fst r = fst r0
  ∧ hist (snd r) = hist (snd r0)
  ∧ timers (snd r)
    = match fst r0 with
      | Normal _ => scheduled scripts (timers (snd r0))
      | Throw => timers (snd r0)
      end.
Proof.
  intros Hu. cbn zeta.
  induction scripts as [|sc scripts IH] using rev_ind.
  - cbn. destruct (original this args w) as [[v|] w']; auto.
  - rewrite install_snoc, scheduled_snoc. unfold wrap at 1 2 3.
    destruct IH as (I1 & I2 & I3).
    destruct (install scripts original this args w) as [[v|] w1] eqn:E;
      cbn in I1, I2, I3 |- *.
    + destruct (original this args w) as [[v0|] w0] eqn:E0; [|discriminate].
      cbn in *. rewrite (Hu _ _ _ _ _ E0), I3. auto.
    + rewrite <- I1 in *. auto.
Qed.

Lemma wrappers_transparent_witness :
  fst (pushState HistoryObject sample_args sample_world)
  = fst (nativePushState HistoryObject sample_args sample_world)
  ∧ hist (snd (pushState HistoryObject sample_args sample_world))
    = hist (snd (nativePushState HistoryObject sample_args sample_world))
  ∧ fst (replaceState OtherObject sample_args sample_world) = Throw
  ∧ timers (snd (replaceState OtherObject sample_args sample_world))
    = timers sample_world.
Proof.
  destruct (wrappers_transparent pushState_scripts nativePushState
              HistoryObject sample_args sample_world
              nativePushState_returns_undefined) as (H1 & H2 & _).
  destruct (wrappers_transparent replaceState_scripts nativeReplaceState
              OtherObject sample_args sample_world
              nativeReplaceState_returns_undefined) as (H3 & _ & H4).
  split; [exact H1|]. split; [exact H2|]. split; [exact H3|exact H4].
Defined.

End HistoryHookSpec.

(* ================================================================== *)
(** * The amounts on the deal badge *)
(* ================================================================== *)

Module BadgeSpec.
Import Badge.

(** The weekly rate per night, [+(299 / 7).toFixed(2)], is the binary64
    number nearest to 42.71. *)
Lemma WEEK_N_value : WEEK_N = parse_hundredths 4271.
Proof. vm_compute. reflexivity. Qed.





End BadgeSpec.

Module RegexSpec.
Import JsString Regex.

Lemma code_eqb x c : (code x =? code c)%N = true ↔ x = c.
Proof.
  rewrite N.eqb_eq. unfold code. split; [|by intros ->].
  intros H. rewrite <- (ascii_N_embedding x), <- (ascii_N_embedding c). by rewrite H.
Qed.

Lemma take_drop_while p s : (take_while p s ++ drop_while p s)%string = s.
Proof.
  induction s as [|c r IH]; [reflexivity|].
  cbn [take_while drop_while]. destruct (p c); [|reflexivity].
  change (String c (take_while p r ++ drop_while p r)%string = String c r).
  by rewrite IH.
Qed.

Lemma length_append x y :
  String.length (x ++ y)%string = String.length x + String.length y.
Proof.
  induction x as [|c x IH]; [reflexivity|].
  change (S (String.length (x ++ y)%string) = S (String.length x + String.length y)).
  by rewrite IH.
Qed.

Lemma string_take_app x y :
  string_take (String.length (x ++ y)%string - String.length y) (x ++ y)%string = x.
Proof.
  induction x as [|c x IH].
  - cbn. rewrite Nat.sub_diag. by destruct y.
  - change (String c x ++ y)%string with (String c (x ++ y)%string).
    cbn [String.length].
    assert (E : S (String.length (x ++ y)%string) - String.length y
                = S (String.length (x ++ y)%string - String.length y)).
    { rewrite length_append. lia. }
    rewrite E. cbn [string_take]. by rewrite IH.
Qed.

(** The greedy star over a character class runs to the end of the run
    when the continuation accepts there. *)
Lemma star_class_max {A} p (k : string → option A) x : ∀ s fuel,
  String.length s ≤ fuel →
  k (drop_while p s) = Some x →
  star_loop (exec (Class p) A) k fuel s = Some x.
Proof.
  induction s as [|c r IH]; intros fuel Hf Hk.
  - destruct fuel; cbn in *; exact Hk.
  - destruct fuel as [|fuel]; [cbn in Hf; lia|].
    cbn [String.length] in Hf. cbn [star_loop exec drop_while] in Hk |- *.
    destruct (p c).
    + replace (String.length r <? String.length (String c r)) with true
        by (symmetry; apply Nat.ltb_lt; cbn [String.length]; lia).
      rewrite IH; [reflexivity|lia|exact Hk].
    + exact Hk.
Qed.

(** When the continuation rejects every input that starts inside the
    class, giving characters back cannot help: the star either succeeds
    at the end of the run or fails. *)
Lemma star_class_run {A} p (k : string → option A) :
  (∀ c r, p c = true → k (String c r) = None) →
  ∀ s fuel, String.length s ≤ fuel →
  star_loop (exec (Class p) A) k fuel s = k (drop_while p s).
Proof.
  intros Hk. induction s as [|c r IH]; intros fuel Hf.
  - destruct fuel; reflexivity.
  - destruct fuel as [|fuel]; [cbn in Hf; lia|].
    cbn [String.length] in Hf. cbn [star_loop exec drop_while].
    destruct (p c) eqn:Ep; [|reflexivity].
    replace (String.length r <? String.length (String c r)) with true
      by (symmetry; apply Nat.ltb_lt; cbn [String.length]; lia).
    rewrite IH by lia.
    destruct (k (drop_while p r)); [reflexivity|]. by apply Hk.
Qed.

Lemma exec_star_class_max {A} p (k : string → option A) x s :
  k (drop_while p s) = Some x → exec (Star (Class p)) A s k = Some x.
Proof. intros H. apply star_class_max; [lia|exact H]. Qed.

Lemma exec_star_class_run {A} p (k : string → option A) s :
  (∀ c r, p c = true → k (String c r) = None) →
  exec (Star (Class p)) A s k = k (drop_while p s).
Proof. intros H. apply star_class_run; [exact H|lia]. Qed.

Lemma prefix_cons a x b y :
  String.prefix (String a x) (String b y)
  = if ascii_dec a b then String.prefix x y else false.
Proof. reflexivity. Qed.

Lemma exec_chr {A} a (k : string → option A) s :
  exec (chr a) A s k
  = match s with
    | String c r => if (code c =? code a)%N then k r else None
    | EmptyString => None
    end.
Proof. reflexivity. Qed.

Lemma exec_lit {A} (k : string → option A) : ∀ L s,
  exec (lit L) A s k
  = if String.prefix L s then k (Purchase.string_drop (String.length L) s) else None.
Proof.
  induction L as [|c L IH]; intros s; cbn.
  - by destruct s.
  - destruct s as [|x s]; [reflexivity|]. cbn.
    destruct (code x =? code c)%N eqn:E.
    + apply code_eqb in E as ->. destruct (ascii_dec c c); [apply IH|done].
    + destruct (ascii_dec c x) as [->|]; [|reflexivity].
      rewrite N.eqb_refl in E. discriminate.
Qed.

Lemma not_dot_digit c : is_digit c = true → (code c =? code ".")%N = false.
Proof.
  unfold is_digit. intros H. apply andb_prop in H as [H _].
  apply N.leb_le in H. apply N.eqb_neq. change (code ".") with 46%N. lia.
Qed.

Lemma after_digits_spec t :
  after_digits t
  = match t with
    | String dot (String d1 (String d2 r)) =>
        if (code dot =? 46)%N && is_digit d1 && is_digit d2 then Some r else None
    | _ => None
    end.
Proof.
  unfold after_digits. cbn [exec chr].
  destruct t as [|dot [|d1 [|d2 r]]]; try reflexivity;
    change (code ".") with 46%N; destruct (code dot =? 46)%N; try reflexivity.
  - destruct (is_digit d1); reflexivity.
  - destruct (is_digit d1), (is_digit d2); reflexivity.
Qed.

Lemma exec_amount s :
  exec amount_pattern string s Some
  = match s with
    | String c rest => if is_digit c then after_digits (drop_while is_digit s) else None
    | EmptyString => None
    end.
Proof.
  destruct s as [|c rest]; [reflexivity|].
  change (exec amount_pattern string (String c rest) Some)
    with (if is_digit c then exec (Star (Class is_digit)) string rest after_digits
          else None).
  cbn [drop_while].
  destruct (is_digit c) eqn:Ec; [|reflexivity].
  apply exec_star_class_run.
  intros d r Hd. rewrite after_digits_spec.
  destruct r as [|d1 [|d2 r]]; try reflexivity;
    change 46%N with (code "."); rewrite (not_dot_digit d Hd); reflexivity.
Qed.

(** X1. [match_amount] is the backtracking match of [/\d+\.\d{2}/]: it
    finds a match exactly when the pattern has one, and returns the text of
    the leftmost match. *)
Theorem match_amount_is_regex_match s :
  option_map amount_text (match_amount s) = option_map fst (search amount_pattern s).
Proof.
  induction s as [|c rest IH]; [reflexivity|].
  cbn [search match_amount]. rewrite exec_amount.
  destruct (is_digit c) eqn:Ec; [|exact IH].
  rewrite after_digits_spec.
  pose proof (take_drop_while is_digit (String c rest)) as Hs.
  destruct (drop_while is_digit (String c rest)) as [|dot [|d1 [|d2 r]]] eqn:Et;
    try exact IH.
  destruct ((code dot =? 46)%N && is_digit d1 && is_digit d2) eqn:Econd; [|exact IH].
  apply andb_prop in Econd as [Econd _]. apply andb_prop in Econd as [Edot _].
  change 46%N with (code ".") in Edot. apply code_eqb in Edot as ->.
  cbn [option_map fst]. f_equal. unfold amount_text. cbn [fst snd].
  rewrite <- Hs at 2 3.
  change (String "." (String d1 (String d2 r)))
    with (String "." (String d1 (String d2 EmptyString)) ++ r)%string.
  set (t := String "." (String d1 (String d2 EmptyString))).
  assert (Ha : ∀ x y z : string, (x ++ (y ++ z))%string = ((x ++ y) ++ z)%string).
  { induction x as [|a x IHx]; intros y z; [reflexivity|].
    change (String a (x ++ (y ++ z))%string = String a ((x ++ y) ++ z)%string).
    by rewrite IHx. }
  rewrite Ha. symmetry. apply string_take_app.
Qed.

(** X2. [match_hash_id] is capture group 1 of the backtracking match of
    [/#([A-Z0-9-]+)/i]: the leftmost match without its [#]. *)
Theorem match_hash_id_is_regex_group s :
  match_hash_id s = option_map (λ m, string_tail (fst m)) (search reservation_pattern s).
Proof.
  induction s as [|c rest IH]; [reflexivity|].
  cbn [search match_hash_id].
  change (exec reservation_pattern string (String c rest) Some)
    with (if (code c =? code "#")%N
          then match rest with
               | String d r => if is_id_char d
                               then exec (Star (Class is_id_char)) string r Some
                               else None
               | EmptyString => None
               end
          else None).
  change (code "#") with 35%N.
  destruct (code c =? 35)%N eqn:Ec; [|exact IH].
  destruct rest as [|d r]; [exact IH|].
  cbn [take_while]. destruct (is_id_char d) eqn:Ed; [|exact IH].
  rewrite (exec_star_class_max is_id_char Some (drop_while is_id_char r)) by reflexivity.
  cbn [option_map fst]. f_equal.
  assert (E : String c (String d r)
              = (String c (String d (take_while is_id_char r))
                 ++ drop_while is_id_char r)%string).
  { change (String c (String d r)
            = String c (String d (take_while is_id_char r ++ drop_while is_id_char r)%string)).
    by rewrite take_drop_while. }
  rewrite E, string_take_app. reflexivity.
Qed.

(** After the identifier, the optional slash and the lookahead accept
    every input: when the lookahead rejects after taking the slash, it
    accepts without it. *)
Lemma after_identifier_accepts t :
  exec (Seq (Opt (chr "/")) (NotAhead (lit "/guests"))) string t Some ≠ None.
Proof.
  change (exec (Seq (Opt (chr "/")) (NotAhead (lit "/guests"))) string t Some)
    with (match exec (chr "/") string t (λ s', exec (NotAhead (lit "/guests")) string s' Some) with
          | Some x => Some x
          | None => exec (NotAhead (lit "/guests")) string t Some
          end).
  assert (Hn : ∀ u, exec (NotAhead (lit "/guests")) string u Some
                    = if String.prefix "/guests" u then None else Some u).
  { intros u. cbn [exec]. rewrite exec_lit. by destruct (String.prefix "/guests" u). }
  destruct t as [|c r].
  - rewrite exec_chr, Hn. discriminate.
  - rewrite exec_chr. cbv beta. rewrite !Hn.
    destruct (code c =? code "/")%N eqn:Ec.
    + apply code_eqb in Ec as ->.
      destruct (String.prefix "/guests" r) eqn:Er; [|discriminate].
      destruct r as [|c2 r2]; [discriminate|].
      change "/guests"%string with (String "/" "guests") in Er |- *.
      rewrite !prefix_cons in *.
      destruct (ascii_dec "/" c2) as [<-|]; [|discriminate].
      destruct (ascii_dec "/" "/"); [|done].
      destruct (ascii_dec "g" "/"); discriminate.
    + destruct (String.prefix "/guests" (String c r)) eqn:Er; [|discriminate].
      change "/guests"%string with (String "/" "guests") in Er.
      rewrite prefix_cons in Er.
      destruct (ascii_dec "/" c) as [<-|]; [|discriminate].
      rewrite N.eqb_refl in Ec. discriminate.
Qed.

Lemma exec_room_selection s :
  exec room_selection_pattern string s Some = None
  ↔ exec reservation_path_pattern string s Some = None.
Proof.
  unfold room_selection_pattern, reservation_path_pattern.
  change (exec (Seq (lit "/reservation/") ?r) string s Some)
    with (exec (lit "/reservation/") string s (λ s', exec r string s' Some)).
  cbv beta. rewrite !exec_lit.
  destruct (String.prefix "/reservation/" s); [|tauto].
  set (t := Purchase.string_drop _ s). clearbody t.
  destruct t as [|c r]; [tauto|].
  change (exec (Seq (Plus (Class is_alnum)) ?k) string (String c r) Some)
    with (if is_alnum c
          then exec (Star (Class is_alnum)) string r (λ s', exec k string s' Some)
          else None).
  change (exec (Class is_alnum) string (String c r) Some)
    with (if is_alnum c then Some r else None).
  destruct (is_alnum c); [|tauto].
  split; [|discriminate]. intros H. exfalso.
  destruct (exec (Seq (Opt (chr "/")) (NotAhead (lit "/guests"))) string
                 (drop_while is_alnum r) Some) as [x|] eqn:E.
  - rewrite (exec_star_class_max is_alnum
               (λ s', exec (Seq (Opt (chr "/")) (NotAhead (lit "/guests"))) string s' Some)
               x) in H by exact E.
    discriminate.
  - by apply after_identifier_accepts in E.
Qed.

Lemma test_same_positions r1 r2 :
  (∀ s, exec r1 string s Some = None ↔ exec r2 string s Some = None) →
  ∀ s, test r1 s = test r2 s.
Proof.
  intros H. unfold test. induction s as [|c s IH]; cbn [search].
  - specialize (H EmptyString).
    destruct (exec r1 string EmptyString Some), (exec r2 string EmptyString Some);
      try reflexivity;
      [pose proof (proj2 H eq_refl)|pose proof (proj1 H eq_refl)]; discriminate.
  - specialize (H (String c s)).
    destruct (exec r1 string (String c s) Some), (exec r2 string (String c s) Some);
      try reflexivity; [| |exact IH];
      [pose proof (proj2 H eq_refl)|pose proof (proj1 H eq_refl)]; discriminate.
Qed.

(** X3. The route predicate of the deposit-clarification script accepts
    exactly the URLs that contain [/reservation/] followed by a letter or
    digit.  The optional slash and the lookahead [(?!\/guests)] never
    exclude a URL. *)
Theorem isRoomSelectionPage_ignores_lookahead currentUrl :
  isRoomSelectionPage currentUrl = test reservation_path_pattern currentUrl.
Proof. apply test_same_positions. apply exec_room_selection. Qed.

Example guests_page_is_room_selection :
  isRoomSelectionPage "https://hotels.cloudbeds.com/reservation/abc123/guests" = true.
Proof. reflexivity. Qed.

End RegexSpec.

Module PurchaseTraceSpec.
Import JsString Purchase PurchaseTrace.

Lemma take_while_forall p s : Regex.string_forall p (take_while p s) = true.
Proof.
  induction s as [|c r IH]; [reflexivity|]. cbn [take_while].
  destruct (p c) eqn:E; [|reflexivity]. cbn [Regex.string_forall]. by rewrite E, IH.
Qed.

Lemma match_hash_id_well_formed s id : match_hash_id s = Some id → well_formed_id id.
Proof.
  induction s as [|c rest IH]; cbn [match_hash_id]; [discriminate|].
  destruct (code c =? 35)%N; [|exact IH].
  pose proof (take_while_forall is_id_char rest) as Hf.
  destruct (take_while is_id_char rest) eqn:E; [exact IH|].
  intros [= <-]. split; [reflexivity|exact Hf].
Qed.

Lemma reservation_id_well_formed p id :
  getReservationIdFromPageText p = Some id → well_formed_id id.
Proof.
  unfold getReservationIdFromPageText.
  induction (be_text_paragraphs p) as [|t rest IH];
    cbn [getReservationIdFromPageText_loop]; [discriminate|].
  destruct (truthy t && includes "reservation number is #" t); [|exact IH].
  destruct (match_hash_id t) eqn:E; [|exact IH].
  intros [= <-]. eauto using match_hash_id_well_formed.
Qed.

Lemma trace_ok_executeTrackingLogic p s :
  trace_ok (effects s) → trace_ok (effects (snd (executeTrackingLogic p s))).
Proof.
  intros [H1 H2]. unfold executeTrackingLogic.
  destruct (getReservationIdFromPageText p) as [rid|] eqn:Er; [|by split].
  destruct (negb (truthy rid)); [by split|].
  destruct (getTotalAmount p) as [v|]; [|by split].
  destruct (v =? 0)%N eqn:Ev; [by split|].
  apply N.eqb_neq in Ev. apply reservation_id_well_formed in Er.
  set (b := {| cloudbeds_reservation_id := rid |}).
  set (d := {| event_id := rid |}).
  assert (Hb : trace_ok (effects s ++ [Fetch zapierWebhookUrl b])).
  { split.
    - intros u b' Hin. apply elem_of_app in Hin as [Hin|Hin]; [eauto|].
      apply list_elem_of_singleton in Hin as [= -> ->]. cbn. split; [done|]. split; [lia|done].
    - intros d' Hin. apply elem_of_app in Hin as [Hin|Hin].
      + destruct (H2 _ Hin) as (u & b' & Hb' & Hs). exists u, b'. split; [|done].
        apply elem_of_app. by left.
      + apply list_elem_of_singleton in Hin. discriminate. }
  assert (Hd : trace_ok ((effects s ++ [Fetch zapierWebhookUrl b]) ++ [PixelPurchase d])).
  { destruct Hb as [B1 B2]. split.
    - intros u b' Hin. apply elem_of_app in Hin as [Hin|Hin]; [eauto|].
      apply list_elem_of_singleton in Hin. discriminate.
    - intros d' Hin. apply elem_of_app in Hin as [Hin|Hin].
      + destruct (B2 _ Hin) as (u & b' & Hb' & Hs). exists u, b'. split; [|done].
        apply elem_of_app. by left.
      + apply list_elem_of_singleton in Hin as [= ->].
        exists zapierWebhookUrl, b. split; [|done].
        apply elem_of_app. left. apply elem_of_app. right. by apply list_elem_of_singleton. }
  cbn. destruct (fbq p); cbn; try exact Hb;
    destruct (purchaseEventFired s); cbn; assumption.
Qed.

Lemma effects_checkConfirmationPage p s :
  effects (checkConfirmationPage p s) = effects s.
Proof.
  unfold checkConfirmationPage.
  destruct (on_confirmation p), (purchaseEventCheckInterval s); reflexivity.
Qed.

Lemma trace_ok_step s e : trace_ok (effects s) → trace_ok (effects (step s e)).
Proof.
  intros H. destruct e as [p|p| | |id p]; cbn;
    rewrite ?effects_checkConfirmationPage; try exact H.
  unfold timerFires.
  destruct (Timers.take id (timers s)) as [[cb tb]|]; [|exact H].
  destruct cb; cbn.
  - unfold intervalCheck.
    pose proof (trace_ok_executeTrackingLogic p (set_timers tb s) H) as H'.
    destruct (executeTrackingLogic p (set_timers tb s)) as [[[|]|] s']; exact H'.
  - rewrite effects_checkConfirmationPage. exact H.
Qed.

(** X4. Over every run of the script, each webhook post goes to the
    configured URL and reports a value greater than zero under a
    non-empty reservation identifier made of letters, digits and hyphens;
    and each Purchase pixel call has a webhook post for the same
    reservation, URL and value in the same run. *)
Theorem purchase_reports_are_paired evs :
  let s := run evs initial in
  (∀ u b, Fetch u b ∈ effects s →
          u = zapierWebhookUrl
          ∧ (0 < zp_value b)%N
          ∧ well_formed_id (cloudbeds_reservation_id b))
  ∧ (∀ d, PixelPurchase d ∈ effects s →
          ∃ u b, Fetch u b ∈ effects s ∧ same_purchase d b).
Proof.
  cbn zeta. change (trace_ok (effects (run evs initial))).
  assert (H : ∀ s, trace_ok (effects s) → trace_ok (effects (run evs s))).
  { induction evs as [|e evs IH]; intros s Hs; [exact Hs|].
    apply IH, trace_ok_step, Hs. }
  apply H. split; [intros u b Hin|intros d Hin]; cbn in Hin;
    by apply elem_of_nil in Hin.
Qed.

(** ** One interval at a time *)

Lemma executeTrackingLogic_frame p s :
  timers (snd (executeTrackingLogic p s)) = timers s
  ∧ purchaseEventCheckInterval (snd (executeTrackingLogic p s))
    = purchaseEventCheckInterval s.
Proof.
  unfold executeTrackingLogic.
  destruct (getReservationIdFromPageText p) as [rid|]; [|by split].
  destruct (negb (truthy rid)); [by split|].
  destruct (getTotalAmount p) as [v|]; [|by split].
  destruct (v =? 0)%N; [by split|].
  cbn. destruct (fbq p); cbn; try done; by destruct (purchaseEventFired s).
Qed.

Lemma single_interval_checkConfirmationPage p s :
  single_interval s → single_interval (checkConfirmationPage p s).
Proof.
  unfold single_interval, checkConfirmationPage. intros H.
  destruct (on_confirmation p), (purchaseEventCheckInterval s) as [i|] eqn:Ei;
    intros id t; cbn; intros Hl Hk.
  - rewrite Ei. by eapply H.
  - apply lookup_insert_Some in Hl as [[-> _]|[_ Hl]]; [reflexivity|].
    specialize (H _ _ Hl Hk). congruence.
  - apply lookup_delete_Some in Hl as [Hne Hl].
    specialize (H _ _ Hl Hk). congruence.
  - rewrite Ei. by eapply H.
Qed.

Lemma single_interval_step s e : single_interval s → single_interval (step s e).
Proof.
  intros H. destruct e as [p|p| | |id p]; cbn;
    try (by apply single_interval_checkConfirmationPage).
  1,2: (intros i t Hl Hk; cbn in Hl;
        apply lookup_insert_Some in Hl as [[_ <-]|[_ Hl]]; [discriminate|by eapply H]).
  unfold timerFires, Timers.take.
  destruct (Timers.live (timers s) !! id) as [t|] eqn:El; [|exact H].
  set (s0 := set_timers _ s).
  assert (H0 : single_interval s0).
  { subst s0. intros i t' Hl Hk. cbn in Hl |- *.
    destruct (Timers.repeating t); cbn in Hl; [by eapply H|].
    apply lookup_delete_Some in Hl as [_ Hl]. by eapply H. }
  clearbody s0. destruct (Timers.callback t); cbn.
  - unfold intervalCheck.
    destruct (executeTrackingLogic_frame p s0) as [Ft Fi].
    assert (H1 : single_interval (snd (executeTrackingLogic p s0))).
    { intros i t' Hl Hk. rewrite Ft in Hl. rewrite Fi. by eapply H0. }
    destruct (executeTrackingLogic p s0) as [[[|]|] s1]; cbn in *; try exact H1.
    intros i t' Hl Hk. cbn in Hl |- *.
    destruct (purchaseEventCheckInterval s1) as [j|] eqn:Ej; cbn in Hl.
    + apply lookup_delete_Some in Hl as [Hne Hl].
      specialize (H1 _ _ Hl Hk). congruence.
    + specialize (H1 _ _ Hl Hk). congruence.
  - by apply single_interval_checkConfirmationPage.
Qed.

Lemma single_interval_reachable s : reachable s → single_interval s.
Proof.
  intros [evs ->].
  assert (H : ∀ s, single_interval s → single_interval (run evs s)).
  { induction evs as [|e evs IH]; intros s Hs; [exact Hs|].
    apply IH, single_interval_step, Hs. }
  apply H. intros id t Hl. cbn in Hl. rewrite lookup_empty in Hl. discriminate.
Qed.

(** X5. The script never runs two polls: in every reachable state any two
    pending intervals are the same timer, the one the window variable
    holds; and once a handler has seen a URL off the confirmation page, no
    interval is pending and the variable is [null]. *)
Theorem never_two_intervals s :
  reachable s →
  (∀ id id' t t',
     Timers.live (timers s) !! id = Some t → Timers.callback t = IntervalCheck →
     Timers.live (timers s) !! id' = Some t' → Timers.callback t' = IntervalCheck →
     id = id' ∧ purchaseEventCheckInterval s = Some id)
  ∧ (∀ p, on_confirmation p = false →
          purchaseEventCheckInterval (checkConfirmationPage p s) = None
          ∧ ∀ id t, Timers.live (timers (checkConfirmationPage p s)) !! id = Some t →
                    Timers.callback t ≠ IntervalCheck).
Proof.
  intros Hr. pose proof (single_interval_reachable s Hr) as H. split.
  - intros id id' t t' Hl Hk Hl' Hk'.
    pose proof (H _ _ Hl Hk) as E. pose proof (H _ _ Hl' Hk') as E'.
    split; [congruence|exact E].
  - intros p Hp. unfold checkConfirmationPage. rewrite Hp.
    destruct (purchaseEventCheckInterval s) as [i|] eqn:Ei; cbn.
    + split; [reflexivity|]. intros id t Hl Hk.
      apply lookup_delete_Some in Hl as [Hne Hl].
      specialize (H _ _ Hl Hk). congruence.
    + split; [exact Ei|]. intros id t Hl Hk.
      specialize (H _ _ Hl Hk). congruence.
Qed.

Lemma never_two_intervals_witness :
  let s := run [DOMContentLoaded confirmation_loading; PopState confirmation_loading;
                PushState; TimerFires 2 confirmation_loading] initial in
  purchaseEventCheckInterval (checkConfirmationPage rooms_page s) = None.
Proof.
  apply (never_two_intervals
           (run [DOMContentLoaded confirmation_loading; PopState confirmation_loading;
                 PushState; TimerFires 2 confirmation_loading] initial)).
  - eexists. reflexivity.
  - reflexivity.
Defined.

End PurchaseTraceSpec.

Module CookiesSpec.
Import JsString Purchase Cookies.

Lemma append_assoc (x y z : string) : ((x ++ y) ++ z)%string = (x ++ (y ++ z))%string.
Proof.
  induction x as [|a x IH]; [reflexivity|].
  change (String a ((x ++ y) ++ z)%string = String a (x ++ (y ++ z))%string).
  by rewrite IH.
Qed.

Lemma append_nil_r (x : string) : (x ++ "")%string = x.
Proof.
  induction x as [|a x IH]; [reflexivity|].
  change (String a (x ++ "")%string = String a x). by rewrite IH.
Qed.

Lemma append_cons a (x y : string) : (String a x ++ y)%string = String a (x ++ y)%string.
Proof. reflexivity. Qed.

(** Splitting reads a piece without semicolon in one go. *)
Lemma split_piece x : ∀ cur t,
  Regex.string_forall no_semicolon x = true →
  split_semicolon_from cur (x ++ t)%string
  = split_semicolon_from (String.rev_app x cur) t.
Proof.
  induction x as [|a x IH]; intros cur t Hx; [reflexivity|].
  cbn [Regex.string_forall] in Hx. apply andb_prop in Hx as [Ha Hx].
  rewrite append_cons. cbn [split_semicolon_from].
  unfold no_semicolon in Ha. apply negb_true_iff in Ha. rewrite Ha.
  by rewrite IH.
Qed.

Lemma rev_app_rev_app x : ∀ y z,
  String.rev_app (String.rev_app x y) z = String.rev_app y (x ++ z)%string.
Proof.
  induction x as [|a x IH]; intros y z; [reflexivity|].
  change (String.rev_app (String a x) y) with (String.rev_app x (String a y)).
  by rewrite IH.
Qed.

Lemma rev_rev_app x : String.rev (String.rev_app x "") = x.
Proof. unfold String.rev. rewrite rev_app_rev_app. cbn. apply append_nil_r. Qed.

Lemma split_last x :
  Regex.string_forall no_semicolon x = true → split_semicolon x = [x].
Proof.
  intros Hx. unfold split_semicolon.
  rewrite <- (append_nil_r x) at 1. rewrite split_piece by exact Hx.
  cbn [split_semicolon_from]. by rewrite rev_rev_app.
Qed.

Lemma split_first x t :
  Regex.string_forall no_semicolon x = true →
  split_semicolon (x ++ String ";" t)%string = x :: split_semicolon t.
Proof.
  intros Hx. unfold split_semicolon. rewrite split_piece by exact Hx.
  cbn [split_semicolon_from]. change (code ";" =? 59)%N with true. cbn iota.
  by rewrite rev_rev_app.
Qed.

Lemma forall_append p (x y : string) :
  Regex.string_forall p (x ++ y)%string = Regex.string_forall p x && Regex.string_forall p y.
Proof.
  induction x as [|a x IH]; [reflexivity|].
  rewrite append_cons. cbn [Regex.string_forall]. rewrite IH. by rewrite andb_assoc.
Qed.

Lemma name_no_semicolon k :
  Regex.string_forall name_char k = true → Regex.string_forall no_semicolon k = true.
Proof.
  induction k as [|a k IH]; [reflexivity|]. cbn [Regex.string_forall].
  intros H. apply andb_prop in H as [Ha Hk]. rewrite IH by exact Hk.
  unfold name_char in Ha. apply andb_prop in Ha as [Ha _]. apply andb_prop in Ha as [Ha _].
  unfold no_semicolon. by rewrite Ha.
Qed.

Lemma entry_no_semicolon kv :
  Regex.string_forall name_char (fst kv) = true →
  Regex.string_forall no_semicolon (snd kv) = true →
  Regex.string_forall no_semicolon (entry kv) = true.
Proof.
  intros Hk Hv. unfold entry. rewrite !forall_append, Hv, name_no_semicolon by exact Hk.
  reflexivity.
Qed.

(** The header splits into its entries; every entry but the first keeps
    the space that followed the semicolon. *)
Lemma split_header kv rest : ∀ pre,
  Regex.string_forall no_semicolon pre = true →
  well_formed_jar (kv :: rest) →
  split_semicolon (pre ++ cookie_header (kv :: rest))%string
  = (pre ++ entry kv)%string :: map (λ e, (" " ++ entry e)%string) rest.
Proof.
  revert kv. induction rest as [|kv' rest IH]; intros [k v] pre Hpre Hwf.
  - apply Forall_cons in Hwf as [[Hk Hv] _].
    cbn [cookie_header map]. rewrite append_nil_r.
    change (k ++ "=" ++ v)%string with (entry (k, v)).
    apply split_last. rewrite forall_append, Hpre. by apply entry_no_semicolon.
  - pose proof Hwf as Hwf0. apply Forall_cons in Hwf as [[Hk Hv] Hwf].
    change (cookie_header ((k, v) :: kv' :: rest))
      with (k ++ "=" ++ v ++ "; " ++ cookie_header (kv' :: rest))%string.
    assert (E : (pre ++ k ++ "=" ++ v ++ "; " ++ cookie_header (kv' :: rest))%string
                = ((pre ++ entry (k, v)) ++ String ";" (" " ++ cookie_header (kv' :: rest)))%string).
    { unfold entry. cbn [fst snd]. rewrite !append_assoc. reflexivity. }
    rewrite E, split_first.
    + rewrite (IH kv' " "%string); [reflexivity|reflexivity|exact Hwf].
    + rewrite forall_append, Hpre. by apply entry_no_semicolon.
Qed.

Lemma prefix_nil y : String.prefix "" y = true.
Proof. by destruct y. Qed.

Lemma prefix_name name k v :
  Regex.string_forall name_char name = true →
  Regex.string_forall name_char k = true →
  String.prefix (name ++ "=")%string (k ++ "=" ++ v)%string = String.eqb k name.
Proof.
  revert k. induction name as [|a name IH]; intros k Hn Hk.
  - destruct k as [|b k].
    { change (String.prefix (String "=" "") (String "=" v) = true).
      rewrite RegexSpec.prefix_cons, prefix_nil. by destruct (ascii_dec "=" "="). }
    cbn [Regex.string_forall] in Hk. apply andb_prop in Hk as [Hb _].
    unfold name_char in Hb. apply andb_prop in Hb as [Hb _]. apply andb_prop in Hb as [_ Hb].
    apply negb_true_iff, N.eqb_neq in Hb.
    change (String.prefix (String "=" "") (String b (k ++ "=" ++ v)%string) = false).
    rewrite RegexSpec.prefix_cons. destruct (ascii_dec "=" b) as [<-|]; [|reflexivity].
    exfalso. apply Hb. reflexivity.
  - cbn [Regex.string_forall] in Hn. apply andb_prop in Hn as [Ha Hn].
    destruct k as [|b k].
    + unfold name_char in Ha. apply andb_prop in Ha as [Ha _]. apply andb_prop in Ha as [_ Ha].
      apply negb_true_iff, N.eqb_neq in Ha.
      change (String.prefix (String a (name ++ "=")%string) (String "=" v) = false).
      rewrite RegexSpec.prefix_cons. destruct (ascii_dec a "=") as [->|]; [|reflexivity].
      exfalso. apply Ha. reflexivity.
    + cbn [Regex.string_forall] in Hk. apply andb_prop in Hk as [_ Hk].
      change (String.prefix (String a (name ++ "=")%string) (String b (k ++ "=" ++ v)%string)
              = String.eqb (String b k) (String a name)).
      rewrite RegexSpec.prefix_cons. cbn [String.eqb]. rewrite (IH k Hn Hk).
      destruct (ascii_dec a b) as [->|Hne].
      * by rewrite Ascii.eqb_refl.
      * destruct (Ascii.eqb b a) eqn:E; [|reflexivity].
        apply Ascii.eqb_eq in E. congruence.
Qed.

Lemma drop_name name v :
  string_drop (String.length (name ++ "=")%string) (name ++ "=" ++ v)%string = v.
Proof. induction name as [|a name IH]; [reflexivity|exact IH]. Qed.

Lemma drop_spaces_entry kv :
  Regex.string_forall name_char (fst kv) = true →
  drop_while is_space (entry kv) = entry kv.
Proof.
  intros Hk. unfold entry. destruct (fst kv) as [|b k]; [reflexivity|].
  cbn [Regex.string_forall] in Hk. apply andb_prop in Hk as [Hb _].
  unfold name_char in Hb. apply andb_prop in Hb as [_ Hb]. apply negb_true_iff in Hb.
  rewrite append_cons. cbn [drop_while]. unfold is_space. by rewrite Hb.
Qed.

Lemma getCookie_loop_entries name jar :
  Regex.string_forall name_char name = true →
  well_formed_jar jar →
  getCookie_loop (name ++ "=")%string (map (λ e, (" " ++ entry e)%string) jar)
  = jar_lookup name jar.
Proof.
  intros Hn Hwf. induction jar as [|[k v] jar IH]; [reflexivity|].
  apply Forall_cons in Hwf as [[Hk Hv] Hwf].
  cbn [map getCookie_loop jar_lookup].
  change (drop_while is_space (" " ++ entry (k, v))%string)
    with (drop_while is_space (entry (k, v))).
  rewrite drop_spaces_entry by exact Hk.
  unfold entry at 1 2. cbn [fst snd]. rewrite prefix_name by assumption.
  destruct (String.eqb k name) eqn:E; [|by apply IH].
  apply String.eqb_eq in E as ->. by rewrite drop_name.
Qed.

(** X6. [getCookie] reads the jar: for a jar of named cookies serialised
    as [document.cookie] does, it returns the value of the first cookie
    with the name asked for, and [null] when the jar has none. *)
Theorem getCookie_reads_jar name jar p :
  Regex.string_forall name_char name = true →
  well_formed_jar jar →
  cookie p = cookie_header jar →
  getCookie name p = jar_lookup name jar.
Proof.
  intros Hn Hwf Hc. unfold getCookie. rewrite Hc.
  destruct jar as [|[k v] jar].
  { change (split_semicolon (cookie_header [])) with [""%string].
    cbn [getCookie_loop drop_while jar_lookup]. by destruct name. }
  change (cookie_header ((k, v) :: jar)) with ("" ++ cookie_header ((k, v) :: jar))%string.
  rewrite split_header by (reflexivity || exact Hwf).
  pose proof Hwf as Hwf0. apply Forall_cons in Hwf as [[Hk Hv] Hwf].
  cbn [getCookie_loop jar_lookup].
  change ("" ++ entry (k, v))%string with (entry (k, v)).
  rewrite drop_spaces_entry by exact Hk.
  unfold entry at 1 2. cbn [fst snd]. rewrite prefix_name by assumption.
  destruct (String.eqb k name) eqn:E.
  - apply String.eqb_eq in E as ->. by rewrite drop_name.
  - by apply getCookie_loop_entries.
Qed.

Lemma getCookie_reads_jar_witness :
  getCookie "_fbc" confirmation_page
  = jar_lookup "_fbc" [("_fbp", "fb.1.1700000000000.1234");
                       ("_fbc", "fb.1.1700000000000.AbCd")]%string.
Proof.
  apply getCookie_reads_jar.
  - reflexivity.
  - repeat constructor.
  - reflexivity.
Defined.

End CookiesSpec.

Module FunnelTraceSpec.
Import JsString Funnel FunnelTrace.

Lemma posts_app name s l :
  omap (λ e, match e, name with
             | FetchZapier Search v, Search => Some v
             | FetchZapier AddToCart v, AddToCart => Some v
             | _, _ => None
             end) (effects s ++ l)
  = posts name s ++ omap (λ e, match e, name with
             | FetchZapier Search v, Search => Some v
             | FetchZapier AddToCart v, AddToCart => Some v
             | _, _ => None
             end) l.
Proof. unfold posts. apply omap_app. Qed.

Lemma extracted_price_positive p v : extracted_price p = Some v → (0 < v)%N.
Proof.
  unfold extracted_price. destruct (banner_grand_total p) as [t|]; [|discriminate].
  destruct (match_amount t) as [m|]; [|discriminate].
  destruct (0 <? amount_cents m)%N eqn:E; [|discriminate].
  intros [= <-]. by apply N.ltb_lt.
Qed.

Lemma search_inv_checkSearchStep p s :
  search_inv s → search_inv (checkSearchStep p s).
Proof.
  intros H. unfold checkSearchStep.
  destruct (fired_Search s) eqn:Ef; [exact H|].
  destruct (_ && _); [|exact H].
  destruct H as [H0 H1].
  unfold sendEvent, search_inv, posts. cbn [effects fired_Search].
  rewrite !omap_app. fold (posts Search s). rewrite (H0 Ef).
  destruct (fbq_is_function p); cbn; split; (discriminate || lia).
Qed.

Lemma posts_search_frame s s' :
  effects s' = effects s → fired_Search s' = fired_Search s →
  search_inv s → search_inv s'.
Proof. unfold search_inv, posts. by intros -> ->. Qed.

Lemma clickListener_frame b s :
  effects (clickListener b s) = effects s
  ∧ fired_Search (clickListener b s) = fired_Search s
  ∧ fired_AddToCart (clickListener b s) = fired_AddToCart s
  ∧ click_listeners (clickListener b s) = click_listeners s.
Proof.
  unfold clickListener. destruct (fired_AddToCart s) eqn:E; [by rewrite E|].
  destruct b; [|by rewrite E]. cbn. by rewrite E.
Qed.

Lemma click_frame b s :
  effects (click b s) = effects s
  ∧ fired_Search (click b s) = fired_Search s
  ∧ fired_AddToCart (click b s) = fired_AddToCart s
  ∧ click_listeners (click b s) = 0.
Proof.
  unfold click. generalize (click_listeners s) as n.
  induction n as [|n IH]; [done|].
  rewrite Nat.iter_succ.
  destruct (clickListener_frame b
              (Nat.iter n (clickListener b)
                 {| fired_Search := fired_Search s; fired_AddToCart := fired_AddToCart s;
                    click_listeners := 0; timers := timers s; effects := effects s |}))
    as (-> & -> & -> & ->).
  exact IH.
Qed.

Lemma init_frame p s :
  effects (init p s) = effects (checkSearchStep p s)
  ∧ fired_Search (init p s) = fired_Search (checkSearchStep p s)
  ∧ fired_AddToCart (init p s) = fired_AddToCart s.
Proof.
  unfold init, initAddToCartListener. cbn. repeat split.
  unfold checkSearchStep. destruct (fired_Search s); [done|]. by destruct (_ && _).
Qed.

Lemma search_posts_init p s :
  posts Search (init p s) ≠ posts Search s → has_dates p.
Proof.
  unfold posts. destruct (init_frame p s) as (-> & _ & _).
  unfold checkSearchStep. destruct (fired_Search s); [done|].
  destruct (bool_decide ("checkin"%string ∈ search_params p)) eqn:E1; [|done].
  destruct (bool_decide ("checkout"%string ∈ search_params p)) eqn:E2; [|done].
  intros _. split; [by apply bool_decide_eq_true_1 in E1|by apply bool_decide_eq_true_1 in E2].
Qed.

Lemma search_posts_checkPrice a p s :
  posts Search (checkPrice a p s) = posts Search s
  ∧ fired_Search (checkPrice a p s) = fired_Search s.
Proof.
  unfold checkPrice. destruct (extracted_price p); [|done].
  unfold afterPrice, sendEvent, posts. cbn [effects fired_Search].
  rewrite !omap_app. destruct (fbq_is_function p); cbn; by rewrite ?app_nil_r.
Qed.

Lemma search_inv_step s e : search_inv s → search_inv (step s e).
Proof.
  intros H.
  assert (Hinit : ∀ p s0, search_inv s0 → search_inv (init p s0)).
  { intros p s0 H0. destruct (init_frame p s0) as (E1 & E2 & _).
    eapply posts_search_frame; [exact E1|exact E2|].
    by apply search_inv_checkSearchStep. }
  destruct e as [p|p| |b|id p]; cbn; try (by apply Hinit); try exact H.
  - destruct (click_frame b s) as (E1 & E2 & _).
    by eapply posts_search_frame.
  - unfold timerFires. destruct (Timers.take id (timers s)) as [[cb tb]|]; [|exact H].
    destruct cb as [a|]; cbn.
    + destruct (search_posts_checkPrice a p (set_timers tb s)) as [E1 E2].
      destruct H as [H0 H1]. split.
      * rewrite E1, E2. exact H0.
      * rewrite E1. exact H1.
    + by apply Hinit.
Qed.

(** X7. The Search event is sent at most once in the life of the page,
    whatever navigation signals, clicks and timers follow; and a step that
    sends it runs a handler on a URL that carries both the [checkin] and
    the [checkout] parameter. *)
Theorem search_sent_once :
  (∀ evs, length (posts Search (run evs initial)) ≤ 1)
  ∧ (∀ s e, posts Search (step s e) ≠ posts Search s →
            ∃ p, event_page e = Some p ∧ has_dates p).
Proof.
  split.
  - intros evs.
    assert (H : ∀ s, search_inv s → search_inv (run evs s)).
    { induction evs as [|e evs IH]; intros s Hs; [exact Hs|].
      apply IH, search_inv_step, Hs. }
    apply H. split; [done|cbn; lia].
  - intros s e Hne. destruct e as [p|p| |b|id p]; cbn [step event_page] in Hne |- *.
    + exists p. split; [done|]. by eapply search_posts_init.
    + exists p. split; [done|]. by eapply search_posts_init.
    + exfalso. by apply Hne.
    + exfalso. apply Hne. unfold posts. by destruct (click_frame b s) as (-> & _).
    + exists p. split; [done|]. revert Hne. unfold timerFires.
      destruct (Timers.take id (timers s)) as [[cb tb]|]; [|done].
      destruct cb as [a|]; cbn.
      * destruct (search_posts_checkPrice a p (set_timers tb s)) as [E1 _].
        rewrite E1. done.
      * intros Hne. apply (search_posts_init p (set_timers tb s)). exact Hne.
Qed.

Lemma events_inv_frame s s' :
  effects s' = effects s → fired_AddToCart s' = fired_AddToCart s →
  events_inv s → events_inv s'.
Proof. unfold events_inv, posts. by intros -> ->. Qed.

Lemma events_inv_checkSearchStep p s : events_inv s → events_inv (checkSearchStep p s).
Proof.
  intros H. unfold checkSearchStep.
  destruct (fired_Search s); [exact H|]. destruct (_ && _); [|exact H].
  destruct H as [H1 H2]. unfold sendEvent, events_inv, posts. cbn [effects fired_AddToCart].
  split.
  - apply Forall_app. split; [exact H1|].
    destruct (fbq_is_function p); repeat constructor.
  - rewrite !omap_app. fold (posts AddToCart s).
    destruct (fbq_is_function p); cbn; rewrite ?app_nil_r; exact H2.
Qed.

Lemma events_inv_checkPrice a p s : events_inv s → events_inv (checkPrice a p s).
Proof.
  intros H. unfold checkPrice.
  destruct (extracted_price p) as [v|] eqn:Ev; [|exact H].
  apply extracted_price_positive in Ev.
  destruct H as [H1 H2]. unfold afterPrice, sendEvent, events_inv. cbn [effects fired_AddToCart].
  split; [|done].
  apply Forall_app. split; [exact H1|].
  destruct (fbq_is_function p); repeat constructor; exists v; done.
Qed.

Lemma events_inv_step s e : events_inv s → events_inv (step s e).
Proof.
  intros H.
  assert (Hinit : ∀ p s0, events_inv s0 → events_inv (init p s0)).
  { intros p s0 H0. destruct (init_frame p s0) as (E1 & _ & E3).
    apply (events_inv_frame (checkSearchStep p s0)); [exact E1| |].
    - rewrite E3. unfold checkSearchStep. destruct (fired_Search s0); [done|].
      by destruct (_ && _).
    - by apply events_inv_checkSearchStep. }
  destruct e as [p|p| |b|id p]; cbn; try (by apply Hinit); try exact H.
  - destruct (click_frame b s) as (E1 & _ & E3 & _). by eapply events_inv_frame.
  - unfold timerFires. destruct (Timers.take id (timers s)) as [[cb tb]|]; [|exact H].
    destruct cb as [a|]; cbn; [by apply events_inv_checkPrice|by apply Hinit].
Qed.

(** X8. In every run, a Search event carries no value, an AddToCart event
    carries a price greater than zero, and once an AddToCart event has
    been posted the AddToCart guard is set. *)
Theorem funnel_events_well_formed evs :
  let s := run evs initial in
  Forall effect_ok (effects s)
  ∧ (posts AddToCart s ≠ [] → fired_AddToCart s = true).
Proof.
  cbn zeta. change (events_inv (run evs initial)).
  assert (H : ∀ s, events_inv s → events_inv (run evs s)).
  { induction evs as [|e evs IH]; intros s Hs; [exact Hs|].
    apply IH, events_inv_step, Hs. }
  apply H. split; [constructor|done].
Qed.

Lemma handle_after_nat id i :
  Pos.to_nat (handle_after id i) = Pos.to_nat id + i.
Proof.
  unfold handle_after. induction i as [|i IH]; [cbn; lia|].
  rewrite Nat.iter_succ, Pos2Nat.inj_succ, IH. lia.
Qed.

Lemma clickListener_unfired s :
  fired_AddToCart s = false → clickListener true s = getPriceValue s.
Proof. intros H. unfold clickListener. by rewrite H. Qed.

Lemma listeners_fan_out n : ∀ s0,
  fired_AddToCart s0 = false →
  let s' := Nat.iter n (clickListener true) s0 in
  fired_AddToCart s' = false
  ∧ Timers.next_id (timers s') = handle_after (Timers.next_id (timers s0)) n
  ∧ ∀ i, i < n →
         Timers.live (timers s') !! handle_after (Timers.next_id (timers s0)) i
         = Some (Timers.Timer (CheckPrice 0) 500 false).
Proof.
  induction n as [|n IH]; intros s0 Hf; cbn zeta.
  - repeat split; [exact Hf|]. intros i Hi. lia.
  - rewrite Nat.iter_succ. destruct (IH s0 Hf) as (If & In & Il).
    rewrite (clickListener_unfired _ If). unfold getPriceValue.
    cbn [set_timers fired_AddToCart timers Timers.setTimeout Timers.add snd
         Timers.next_id Timers.live].
    repeat split; [exact If|by rewrite In|].
    intros i Hi. rewrite In.
    destruct (decide (i = n)) as [->|Hne]; [apply lookup_insert_eq|].
    rewrite lookup_insert_ne; [apply Il; lia|].
    intros E. apply (f_equal Pos.to_nat) in E. rewrite !handle_after_nat in E. lia.
Qed.

(** X9. The once-listeners pile up: every run of [init] adds one, and a
    click in an Add button while the AddToCart guard is unset runs them
    all, each starting its own price poll (500 ms); the listeners are
    gone afterwards.  Each poll that finds the price posts an AddToCart
    event, whether or not another poll has posted one before. *)
Theorem click_starts_a_poll_per_listener :
  (∀ p s, click_listeners (init p s) = S (click_listeners s))
  ∧ (∀ s, fired_AddToCart s = false →
          click_listeners (click true s) = 0
          ∧ Timers.next_id (timers (click true s))
            = handle_after (Timers.next_id (timers s)) (click_listeners s)
          ∧ ∀ i, i < click_listeners s →
                 Timers.live (timers (click true s))
                   !! handle_after (Timers.next_id (timers s)) i
                 = Some (Timers.Timer (CheckPrice 0) 500 false))
  ∧ (∀ id a d p s v,
       Timers.live (timers s) !! id = Some (Timers.Timer (CheckPrice a) d false) →
       extracted_price p = Some v →
       posts AddToCart (timerFires id p s) = posts AddToCart s ++ [Some v]).
Proof.
  split; [|split].
  - intros p s. unfold init, initAddToCartListener. cbn. f_equal.
    unfold checkSearchStep. destruct (fired_Search s); [done|]. by destruct (_ && _).
  - intros s Hf. destruct (click_frame true s) as (_ & _ & _ & E0).
    split; [exact E0|]. unfold click.
    destruct (listeners_fan_out (click_listeners s)
                {| fired_Search := fired_Search s; fired_AddToCart := fired_AddToCart s;
                   click_listeners := 0; timers := timers s; effects := effects s |} Hf)
      as (_ & H1 & H2).
    split; [exact H1|exact H2].
  - intros id a d p s v Hl Hv. unfold timerFires, Timers.take. rewrite Hl. cbn.
    unfold checkPrice. rewrite Hv. unfold afterPrice, sendEvent, posts. cbn [effects].
    rewrite !omap_app. destruct (fbq_is_function p); cbn; by rewrite ?app_nil_r.
Qed.

Lemma click_starts_a_poll_per_listener_witness :
  let s := run [DOMContentLoaded cart_loading; PopState cart_loading] initial in
  let s2 := run [TimerFires 1 cart_priced; TimerFires 2 cart_priced] (click true s) in
  click_listeners s = 2
  ∧ posts AddToCart s2 = [Some 34171%N; Some 34171%N].
Proof.
  destruct click_starts_a_poll_per_listener as (H1 & H2 & H3).
  split.
  - cbn [run fold_left step]. rewrite !H1. reflexivity.
  - cbn [run fold_left step].
    rewrite (H3 2%positive 0 500 cart_priced _ 34171%N); [|reflexivity|reflexivity].
    rewrite (H3 1%positive 0 500 cart_priced _ 34171%N); reflexivity.
Defined.

End FunnelTraceSpec.

Module PaymentTraceSpec.
Import Payment PaymentTrace.

Lemma setup_ext s s' :
  paymentSubmitClickInitialized s' = paymentSubmitClickInitialized s →
  timers s' = timers s →
  button_listeners s' = button_listeners s →
  book_now_warnings s' = book_now_warnings s →
  fresh s ∧ book_now_setup_once s → fresh s' ∧ book_now_setup_once s'.
Proof.
  unfold fresh, book_now_setup_once, sole, none_pending.
  intros E1 E2 E3 E4. rewrite E1, E2, E3, E4. done.
Qed.

Lemma setup_add_other cb d (s : State) :
  is_CheckButton cb = false →
  fresh s ∧ book_now_setup_once s →
  let s' := set_timers (snd (Timers.setTimeout cb d (timers s))) s in
  fresh s' ∧ book_now_setup_once s'.
Proof.
  intros Hcb [Hf Ho]. cbn zeta. split.
  - intros id t. cbn. intros [[<- _]|[_ Hl]]%lookup_insert_Some; [lia|].
    specialize (Hf _ _ Hl). lia.
  - unfold book_now_setup_once in *. cbn [set_timers paymentSubmitClickInitialized].
    assert (Hnone : none_pending is_CheckButton s →
                    none_pending is_CheckButton
                      (set_timers (snd (Timers.setTimeout cb d (timers s))) s)).
    { intros Hn id t. cbn. intros [[_ <-]|[_ Hl]]%lookup_insert_Some; [exact Hcb|].
      by eapply Hn. }
    destruct (paymentSubmitClickInitialized s).
    + destruct Ho as [(id & a & d0 & [Hl Hu] & H1 & H2)|(Hn & H1)].
      * left. exists id, a, d0. split; [|done]. split.
        -- cbn. rewrite lookup_insert_ne; [exact Hl|].
           specialize (Hf _ _ Hl). lia.
        -- intros id' t. cbn.
           intros [[_ <-]|[_ Hl']]%lookup_insert_Some Hk; [cbn in Hk; congruence|].
           by eapply Hu.
      * right. split; [by apply Hnone|exact H1].
    + destruct Ho as (Hn & H1 & H2). split; [by apply Hnone|done].
Qed.

Lemma setup_delete_other id t (s : State) :
  Timers.live (timers s) !! id = Some t →
  is_CheckButton (Timers.callback t) = false →
  fresh s ∧ book_now_setup_once s →
  let s' := set_timers (Timers.Table (delete id (Timers.live (timers s)))
                                     (Timers.next_id (timers s))) s in
  fresh s' ∧ book_now_setup_once s'.
Proof.
  intros Hid Hcb [Hf Ho]. cbn zeta. split.
  - intros id' t'. cbn. intros [_ Hl]%lookup_delete_Some. by eapply Hf.
  - unfold book_now_setup_once in *. cbn [set_timers paymentSubmitClickInitialized].
    assert (Hnone : none_pending is_CheckButton s →
                    none_pending is_CheckButton
                      (set_timers (Timers.Table (delete id (Timers.live (timers s)))
                                                (Timers.next_id (timers s))) s)).
    { intros Hn id' t'. cbn. intros [_ Hl]%lookup_delete_Some. by eapply Hn. }
    destruct (paymentSubmitClickInitialized s).
    + destruct Ho as [(id0 & a & d0 & [Hl Hu] & H1 & H2)|(Hn & H1)].
      * left. exists id0, a, d0. split; [|done]. split.
        -- cbn. rewrite lookup_delete_ne; [exact Hl|].
           intros <-. rewrite Hid in Hl. injection Hl as ->. cbn in Hcb. discriminate.
        -- intros id' t'. cbn. intros [_ Hl']%lookup_delete_Some Hk. by eapply Hu.
      * right. split; [by apply Hnone|exact H1].
    + destruct Ho as (Hn & H1 & H2). split; [by apply Hnone|done].
Qed.

Lemma setup_trackPaymentSubmitClick s :
  fresh s ∧ book_now_setup_once s →
  fresh (trackPaymentSubmitClick s) ∧ book_now_setup_once (trackPaymentSubmitClick s).
Proof.
  intros [Hf Ho]. unfold trackPaymentSubmitClick.
  destruct (paymentSubmitClickInitialized s) eqn:E; [done|].
  unfold book_now_setup_once in *. rewrite E in Ho. destruct Ho as (Hn & H1 & H2).
  split.
  - intros id t. cbn. intros [[<- _]|[_ Hl]]%lookup_insert_Some; [lia|].
    specialize (Hf _ _ Hl). lia.
  - cbn [paymentSubmitClickInitialized]. left.
    exists (Timers.next_id (timers s)), 0, 500. split; [|done]. split.
    + cbn. apply lookup_insert_eq.
    + cbn. apply PaymentSpec.sole_first. exact Hn.
Qed.

Lemma setup_trackPaymentError s :
  fresh s ∧ book_now_setup_once s →
  fresh (trackPaymentError s) ∧ book_now_setup_once (trackPaymentError s).
Proof.
  intros H. unfold trackPaymentError.
  destruct (paymentErrorObserverInitialized s); [done|].
  by apply setup_add_other.
Qed.

Lemma setup_checkForTrackingEvents p s :
  fresh s ∧ book_now_setup_once s →
  fresh (checkForTrackingEvents p s) ∧ book_now_setup_once (checkForTrackingEvents p s).
Proof.
  intros H. unfold checkForTrackingEvents. apply setup_trackPaymentError.
  destruct (on_payment_step p); [by apply setup_trackPaymentSubmitClick|done].
Qed.

Lemma book_now_warnings_other s :
  book_now_warnings (warn BodyNotFound s) = book_now_warnings s.
Proof.
  unfold book_now_warnings, warn. cbn [warnings].
  rewrite List.filter_app. cbn. by rewrite app_nil_r.
Qed.

Lemma setup_tryObserveBody a p s :
  fresh s ∧ book_now_setup_once s →
  fresh (tryObserveBody a p s) ∧ book_now_setup_once (tryObserveBody a p s).
Proof.
  intros H. unfold tryObserveBody. destruct (document_body p).
  - revert H. by apply setup_ext.
  - destruct (a <? maxBodyCheckAttempts)%nat.
    + by apply setup_add_other.
    + revert H. apply setup_ext; try done. apply book_now_warnings_other.
Qed.

Lemma setup_checkButton a d id p s :
  fresh s → paymentSubmitClickInitialized s = true →
  sole is_CheckButton (CheckButton a) d id s →
  button_listeners s = 0 → book_now_warnings s = 0 →
  let s' := checkButton a p
              (set_timers (Timers.Table (delete id (Timers.live (timers s)))
                                        (Timers.next_id (timers s))) s) in
  fresh s' ∧ book_now_setup_once s'.
Proof.
  intros Hf Hflag Hs H1 H2. cbn zeta.
  pose proof (PaymentSpec.none_after_last _ _ _ _ _ Hs) as Hn.
  unfold checkButton, book_now_setup_once. destruct (book_now_button p).
  - cbn [paymentSubmitClickInitialized set_timers]. rewrite Hflag. split.
    + intros id' t'. cbn. intros [_ Hl]%lookup_delete_Some. by eapply Hf.
    + right. split; [exact Hn|].
      unfold book_now_warnings in *. cbn [button_listeners set_timers warnings].
      by rewrite H1, H2.
  - destruct (a <? maxAttempts)%nat.
    + cbn [paymentSubmitClickInitialized set_timers]. rewrite Hflag. split.
      * intros id' t'. cbn.
        intros [[<- _]|[_ [_ Hl]%lookup_delete_Some]]%lookup_insert_Some; [lia|].
        specialize (Hf _ _ Hl). lia.
      * left. exists (Timers.next_id (timers s)), (S a), 200. split; [|done]. split.
        -- cbn. apply lookup_insert_eq.
        -- cbn. intros id' t Hl Hk.
           exact (PaymentSpec.sole_first is_CheckButton (CheckButton (S a)) 200
                    (set_timers (Timers.Table (delete id (Timers.live (timers s)))
                                              (Timers.next_id (timers s))) s)
                    Hn id' t Hl Hk).
    + cbn [paymentSubmitClickInitialized set_timers warn]. rewrite Hflag. split.
      * intros id' t'. cbn. intros [_ Hl]%lookup_delete_Some. by eapply Hf.
      * right. split; [exact Hn|].
        unfold book_now_warnings in *. cbn [button_listeners set_timers warnings warn].
        rewrite List.filter_app, length_app, H1, H2. reflexivity.
Qed.

Lemma setup_timerFires id p s :
  fresh s ∧ book_now_setup_once s →
  fresh (timerFires id p s) ∧ book_now_setup_once (timerFires id p s).
Proof.
  intros H. unfold timerFires, Timers.take.
  destruct (Timers.live (timers s) !! id) as [[cb d rep]|] eqn:El; [|exact H].
  cbn [Timers.callback Timers.repeating].
  destruct (is_CheckButton cb) eqn:Ek.
  - destruct cb as [a| |]; try discriminate. cbn [run_callback].
    destruct H as [Hf Ho]. unfold book_now_setup_once in Ho.
    destruct (paymentSubmitClickInitialized s) eqn:Eflag.
    + destruct Ho as [(id0 & a0 & d0 & Hs & H1 & H2)|(Hn & _)].
      * pose proof (proj2 Hs _ _ El eq_refl) as ->.
        pose proof (proj1 Hs) as Hl. rewrite El in Hl. injection Hl as -> -> ->.
        by eapply setup_checkButton.
      * specialize (Hn _ _ El). discriminate.
    + destruct Ho as (Hn & _). specialize (Hn _ _ El). discriminate.
  - assert (Hs' : fresh (set_timers (if rep then timers s
                                     else Timers.Table (delete id (Timers.live (timers s)))
                                                       (Timers.next_id (timers s))) s)
                  ∧ book_now_setup_once
                      (set_timers (if rep then timers s
                                   else Timers.Table (delete id (Timers.live (timers s)))
                                                     (Timers.next_id (timers s))) s)).
    { destruct rep.
      - revert H. by apply setup_ext.
      - by apply (setup_delete_other id (Timers.Timer cb d false)). }
    destruct cb as [a|a|]; [discriminate| |]; cbn [run_callback].
    + by apply setup_tryObserveBody.
    + by apply setup_checkForTrackingEvents.
Qed.

Lemma setup_step s e :
  fresh s ∧ book_now_setup_once s →
  fresh (step s e) ∧ book_now_setup_once (step s e).
Proof.
  intros H. destruct e as [p| |id p]; cbn [step].
  - by apply setup_checkForTrackingEvents.
  - by apply setup_add_other.
  - by apply setup_timerFires.
Qed.

Lemma setup_run evs : ∀ s,
  fresh s ∧ book_now_setup_once s →
  fresh (run evs s) ∧ book_now_setup_once (run evs s).
Proof.
  induction evs as [|e evs IH]; intros s H; [exact H|].
  cbn [run fold_left]. apply IH. by apply setup_step.
Qed.

(** X10. The Book Now listener is set up once in the life of the page.
    Whatever signals, history calls and timers follow the script load,
    [trackPaymentSubmitClick] leaves at most one of: a single pending
    [checkButton], a single click listener on the button, a single
    give-up warning.  So the button never carries two listeners, however
    often the payment step is entered. *)
Theorem book_now_listener_attached_once evs :
  let s := run evs initial in
  book_now_setup_once s
  ∧ button_listeners s ≤ 1
  ∧ book_now_warnings s ≤ 1
  ∧ (button_listeners s = 1 → none_pending is_CheckButton s).
Proof.
  cbn zeta.
  destruct (setup_run evs initial) as [_ H].
  { split.
    - intros id t. cbn. by rewrite lookup_empty.
    - unfold book_now_setup_once. cbn. split; [|done].
      apply PaymentSpec.none_pending_initial. }
  split; [exact H|]. unfold book_now_setup_once in H.
  destruct (paymentSubmitClickInitialized (run evs initial)).
  - destruct H as [(id & a & d & _ & H1 & H2)|(Hn & H1)].
    + rewrite H1, H2. repeat split; lia.
    + repeat split; try lia. intros _. exact Hn.
  - destruct H as (Hn & H1 & H2). rewrite H1, H2. repeat split; lia.
Qed.

Lemma run_app evs1 evs2 s : run (evs1 ++ evs2) s = run evs2 (run evs1 s).
Proof. apply fold_left_app. Qed.

Lemma signals_schedule n p :
  on_payment_step p = false →
  let s := run (repeat (Signal p) n) initial in
  paymentErrorObserverInitialized s = false
  ∧ body_observers s = 0
  ∧ Timers.next_id (timers s) = Pos.of_nat (S n)
  ∧ ∀ i, 1 ≤ i ≤ n →
         Timers.live (timers s) !! Pos.of_nat i
         = Some (Timers.Timer (TryObserveBody 0) 100 false).
Proof.
  intros Hp. induction n as [|n IH]; cbn zeta.
  - repeat split. intros i Hi. lia.
  - change (repeat (Signal p) (S n)) with (Signal p :: repeat (Signal p) n).
    rewrite repeat_cons, run_app. destruct IH as (If & Io & In & Il).
    cbn [run fold_left step]. unfold checkForTrackingEvents. rewrite Hp.
    unfold trackPaymentError. rewrite If.
    cbn [set_timers paymentErrorObserverInitialized body_observers timers
         Timers.setTimeout Timers.add snd Timers.next_id Timers.live].
    repeat split; [exact If|exact Io| |].
    + rewrite In. symmetry. by apply Nat2Pos.inj_succ.
    + intros i Hi. rewrite In.
      destruct (decide (i = S n)) as [->|Hne]; [apply lookup_insert_eq|].
      rewrite lookup_insert_ne; [apply Il; lia|].
      intros E. apply Nat2Pos.inj in E; lia.
Qed.

Lemma early_timers_attach q k : ∀ j s,
  document_body q = true →
  (∀ i, j < i ≤ j + k →
        Timers.live (timers s) !! Pos.of_nat i
        = Some (Timers.Timer (TryObserveBody 0) 100 false)) →
  body_observers (run (map (λ i, TimerFires (Pos.of_nat i) q) (seq (S j) k)) s)
  = body_observers s + k.
Proof.
  induction k as [|k IH]; intros j s Hq Hl; [cbn; lia|].
  cbn [seq map run fold_left step].
  rewrite (PaymentSpec.chain_timer_fires _ (TryObserveBody 0) 100); [|apply Hl; lia].
  cbn [run_callback]. unfold tryObserveBody. rewrite Hq.
  change (fold_left step ?l ?x) with (run l x).
  rewrite (IH (S j)); [cbn; lia|exact Hq|].
  intros i Hi. cbn. rewrite lookup_delete_ne; [apply Hl; lia|].
  intros E. apply Nat2Pos.inj in E; lia.
Qed.

(** X11. The guard of [trackPaymentError] does not keep the observers
    apart the way the guard of [trackPaymentSubmitClick] does: its flag
    is set only when [tryObserveBody] has attached the observer, so
    every signal that arrives before the first timer runs schedules
    another [tryObserveBody], and each of them attaches an observer of
    its own.  After [n] early signals, [n] observers watch the body. *)
Theorem one_observer_per_early_signal n p q :
  on_payment_step p = false →
  document_body q = true →
  body_observers (run (early_signals n p q) initial) = n.
Proof.
  intros Hp Hq. unfold early_signals. rewrite run_app.
  destruct (signals_schedule n p Hp) as (_ & Ho & _ & Hl).
  rewrite (early_timers_attach q n 0); [lia|exact Hq|].
  intros i Hi. apply Hl. lia.
Qed.

Lemma one_observer_per_early_signal_witness :
  body_observers (run (early_signals 3 rooms_page rooms_page) initial) = 3.
Proof. apply one_observer_per_early_signal; reflexivity. Defined.

End PaymentTraceSpec.

Module BannerTraceSpec.
Import Banner BannerTrace.

Lemma banner_interval_tick id d p s :
  Timers.live (timers s) !! id = Some (Timers.Timer InitialCheck d true) →
  timerFires id p s = initialCheck p s.
Proof.
  intros Hl. unfold timerFires, Timers.take. rewrite Hl. cbn. by destruct s.
Qed.

Lemma banner_idle_ticks id p s n :
  Timers.live (timers s) !! id = Some (Timers.Timer InitialCheck 100 true) →
  target p = false →
  initialCheckAttempt s + n ≤ S INITIAL_CHECK_MAX_ATTEMPTS - 1 →
  Nat.iter n (timerFires id p) s = set_attempt (initialCheckAttempt s + n) s.
Proof.
  intros Hl Hp. induction n as [|n IH]; intros Hn.
  - cbn. rewrite Nat.add_0_r. by destruct s.
  - rewrite Nat.iter_succ, IH by lia.
    rewrite (banner_interval_tick id 100); [|exact Hl].
    unfold initialCheck, insertBanner. rewrite Hp.
    cbn [negb orb initialCheckAttempt set_attempt].
    replace (INITIAL_CHECK_MAX_ATTEMPTS <=? initialCheckAttempt s + n) with false
      by (symmetry; apply Nat.leb_gt; unfold INITIAL_CHECK_MAX_ATTEMPTS in *; lia).
    unfold set_attempt. cbn. f_equal. lia.
Qed.

Lemma insertBanner_set_attempt q n s :
  insertBanner q (set_attempt n s)
  = (fst (insertBanner q s), set_attempt n (snd (insertBanner q s))).
Proof.
  unfold insertBanner.
  destruct (target q), (banner_in_place q), (insertion_lands q); reflexivity.
Qed.

(** X12. The initial check of the banner has a budget of 51 ticks.  While
    the summary container is missing, ticks 1 to 50 only count; the
    51st tick, whatever the page shows by then, clears the interval,
    logs the one warning and attaches no observer: a banner inserted by
    that last tick is not watched. *)
Theorem initial_check_budget id p q s :
  Timers.live (timers s) !! id = Some (Timers.Timer InitialCheck 100 true) →
  initialCheckIntervalId s = Some id →
  initialCheckAttempt s = 0 →
  target p = false →
  (∀ n, n ≤ INITIAL_CHECK_MAX_ATTEMPTS →
        Nat.iter n (timerFires id p) s = set_attempt n s)
  ∧ let s51 := timerFires id q (Nat.iter INITIAL_CHECK_MAX_ATTEMPTS (timerFires id p) s) in
    initialCheckIntervalId s51 = None
    ∧ Timers.live (timers s51) = delete id (Timers.live (timers s))
    ∧ observer s51 = observer s
    ∧ observing s51 = observing s
    ∧ warnings s51 = warnings (snd (insertBanner q s)) ++ [MaxInitialChecks]
    ∧ insertions s51 = insertions (snd (insertBanner q s))
    ∧ initialCheckAttempt s51 = S INITIAL_CHECK_MAX_ATTEMPTS.
Proof.
  intros Hl Hv Ha Hp.
  assert (Hidle : ∀ n, n ≤ INITIAL_CHECK_MAX_ATTEMPTS →
                       Nat.iter n (timerFires id p) s = set_attempt n s).
  { intros n Hn. rewrite (banner_idle_ticks id p s n Hl Hp); rewrite Ha; [done|].
    unfold INITIAL_CHECK_MAX_ATTEMPTS in *. lia. }
  split; [exact Hidle|]. cbn zeta. rewrite (Hidle _ (Nat.le_refl _)).
  rewrite (banner_interval_tick id 100); [|exact Hl].
  unfold initialCheck.
  rewrite insertBanner_set_attempt.
  pose proof (BannerSpec.insertBanner_frame q s) as (Ft & Fi & Fo & Fg & _ & _).
  destruct (insertBanner q s) as [b s1]. cbn [fst snd] in *.
  cbn [initialCheckAttempt set_attempt].
  replace (INITIAL_CHECK_MAX_ATTEMPTS <=? INITIAL_CHECK_MAX_ATTEMPTS) with true
    by (symmetry; apply Nat.leb_le; lia).
  rewrite orb_true_r.
  cbn [initialCheckAttempt set_attempt set_interval_id set_timers warn].
  replace (INITIAL_CHECK_MAX_ATTEMPTS <=? INITIAL_CHECK_MAX_ATTEMPTS) with true
    by (symmetry; apply Nat.leb_le; lia).
  cbn [initialCheckAttempt initialCheckIntervalId timers observer observing
       warnings insertions set_attempt set_interval_id set_timers warn].
  rewrite Fi, Hv, Ft, Fo, Fg. cbn [Timers.clear Timers.live]. done.
Qed.

Lemma initial_check_budget_witness :
  let s := handleUrlChange guests_page initial in
  let s51 := timerFires 1 guests_page
               (Nat.iter INITIAL_CHECK_MAX_ATTEMPTS
                  (timerFires 1 guests_page_loading) s) in
  initialCheckIntervalId s51 = None
  ∧ observer s51 = None
  ∧ warnings s51 = [MaxInitialChecks]
  ∧ insertions s51 = 1.
Proof.
  destruct (initial_check_budget 1 guests_page_loading
              guests_page (handleUrlChange guests_page initial))
    as (_ & H1 & _ & H2 & _ & H3 & H4 & _); try reflexivity.
  repeat split; assumption.
Defined.

Lemma one_phase_handleUrlChange p s : one_phase (handleUrlChange p s).
Proof.
  unfold one_phase, handleUrlChange. destruct (isTargetPage p).
  - right. destruct (initialCheckIntervalId s), (observer s) eqn:E; cbn; by rewrite ?E.
  - by right.
Qed.

Lemma one_phase_initialCheck p s : one_phase s → one_phase (initialCheck p s).
Proof.
  unfold one_phase, initialCheck.
  pose proof (BannerSpec.insertBanner_frame p s) as (_ & Fi & Fo & _).
  destruct (insertBanner p s) as [b s1]. cbn [fst snd] in *. rewrite <- Fi, <- Fo.
  destruct (b || _).
  - intros _. left. cbn [initialCheckAttempt set_interval_id set_timers].
    destruct (_ <=? _); [reflexivity|].
    unfold initializeBannerObserver, disconnect. cbn.
    by destruct (observer s1).
  - done.
Qed.

Lemma one_phase_step s e : one_phase s → one_phase (step s e).
Proof.
  intros H. destruct e as [p| |id p|oid relevant]; cbn [step].
  - apply one_phase_handleUrlChange.
  - exact H.
  - unfold timerFires. destruct (Timers.take id (timers s)) as [[cb tb]|]; [|exact H].
    destruct cb; cbn [run_callback].
    + by apply one_phase_initialCheck.
    + unfold debounced. destruct (negb _); [|exact H].
      pose proof (BannerSpec.insertBanner_frame p (set_timers tb s)) as (_ & Fi & Fo & _).
      unfold one_phase. rewrite Fi, Fo. exact H.
    + apply one_phase_handleUrlChange.
  - unfold mutationsDelivered, onMutations.
    destruct (bool_decide _); [|exact H]. destruct relevant; exact H.
Qed.

Lemma one_phase_run evs : ∀ s, one_phase s → one_phase (run evs s).
Proof.
  induction evs as [|e evs IH]; intros s H; [exact H|].
  cbn [run fold_left]. apply IH. by apply one_phase_step.
Qed.

(** X13. The banner watch is in one phase at a time.  In every reachable
    state at most one poll interval is pending, at most one observer is
    connected, and never both: while the poll is pending no observer is
    connected, and the observer is attached only by the tick that has
    cleared the poll. *)
Theorem poll_and_observer_exclusive s :
  reachable s →
  one_phase s
  ∧ (∀ id id' t t',
       Timers.live (timers s) !! id = Some t →
       is_InitialCheck (Timers.callback t) = true →
       Timers.live (timers s) !! id' = Some t' →
       is_InitialCheck (Timers.callback t') = true → id = id')
  ∧ (∀ oid oid', oid ∈ observing s → oid' ∈ observing s → oid = oid')
  ∧ (∀ id t,
       Timers.live (timers s) !! id = Some t →
       is_InitialCheck (Timers.callback t) = true → observing s = ∅).
Proof.
  intros Hr. pose proof (BannerSpec.consistent_reachable s Hr) as [Hc1 Hc2].
  assert (Hp : one_phase s).
  { destruct Hr as [evs ->]. apply one_phase_run. by left. }
  split; [exact Hp|]. split; [|split].
  - intros id id' t t' Hl Hk Hl' Hk'.
    pose proof (Hc1 _ _ Hl Hk) as E. pose proof (Hc1 _ _ Hl' Hk') as E'. congruence.
  - intros oid oid' Ho Ho'.
    pose proof (Hc2 _ Ho) as E. pose proof (Hc2 _ Ho') as E'. congruence.
  - intros id t Hl Hk. pose proof (Hc1 _ _ Hl Hk) as E.
    destruct Hp as [Hp|Hp]; [congruence|].
    apply set_eq. intros oid. split; [|set_solver].
    intros Ho. pose proof (Hc2 _ Ho). congruence.
Qed.

Lemma poll_and_observer_exclusive_witness :
  let s := run [UrlSignal guests_page; TimerFires 1 guests_page;
                UrlSignal guests_page] initial in
  one_phase s ∧ observing s = ∅.
Proof.
  destruct (poll_and_observer_exclusive
              (run [UrlSignal guests_page; TimerFires 1 guests_page;
                    UrlSignal guests_page] initial))
    as (H1 & _ & _ & H2).
  - by eexists.
  - split; [exact H1|]. apply (H2 2%positive (Timers.Timer InitialCheck 100 true));
      reflexivity.
Defined.

End BannerTraceSpec.

Module DepositRewriteSpec.
Import JsString Regex Badge DepositRewrite.

(** ** Parsed prices are never negative *)

Lemma shr_1_nonneg mrs : (0 ≤ shr_m mrs)%Z → (0 ≤ shr_m (shr_1 mrs))%Z.
Proof.
  destruct mrs as [m r s]. cbn [shr_m]. intros H.
  destruct m as [|p|p]; [cbn; lia| |lia]. destruct p; cbn; lia.
Qed.

Lemma iter_shr_1_nonneg p : ∀ mrs,
  (0 ≤ shr_m mrs)%Z → (0 ≤ shr_m (SpecFloat.iter_pos shr_1 p mrs))%Z.
Proof.
  induction p as [p IH|p IH|]; intros mrs H; cbn [SpecFloat.iter_pos].
  - apply IH, IH, shr_1_nonneg, H.
  - apply IH, IH, H.
  - apply shr_1_nonneg, H.
Qed.

Lemma shr_fexp_nonneg m e l :
  (0 ≤ m)%Z → (0 ≤ shr_m (fst (shr_fexp prec emax m e l)))%Z.
Proof.
  intros H. unfold shr_fexp, shr.
  assert (H0 : (0 ≤ shr_m (shr_record_of_loc m l))%Z).
  { destruct l as [|[]]; exact H. }
  destruct (_ - e)%Z; cbn [fst]; [exact H0| |exact H0].
  by apply iter_shr_1_nonneg.
Qed.

Lemma round_nearest_even_nonneg m l :
  (0 ≤ m)%Z → (0 ≤ round_nearest_even m l)%Z.
Proof.
  intros H. destruct l as [|[]]; cbn; [lia| |lia|lia].
  destruct (Z.even m); lia.
Qed.

Lemma binary_round_aux_nonneg mx ex lx :
  (0 ≤ mx)%Z → nonneg (binary_round_aux prec emax false mx ex lx).
Proof.
  intros H. unfold binary_round_aux.
  pose proof (shr_fexp_nonneg mx ex lx H) as H1.
  destruct (shr_fexp prec emax mx ex lx) as [mrs' e']. cbn [fst] in H1.
  pose proof (shr_fexp_nonneg _ e' loc_Exact
                (round_nearest_even_nonneg _ (loc_of_shr_record mrs') H1)) as H2.
  destruct (shr_fexp prec emax _ e' loc_Exact) as [mrs'' e'']. cbn [fst] in H2.
  destruct (shr_m mrs'') as [|m|m]; [exact I| |lia].
  by destruct (_ <=? _)%Z.
Qed.

Lemma parse_hundredths_nonneg n : nonneg (parse_hundredths n).
Proof.
  destruct n as [|p]; [exact I|]. unfold parse_hundredths.
  remember (of_Z 100) as h eqn:E. vm_compute in E. subst h.
  unfold div, SFdiv.
  destruct (SFdiv_core_binary _ _ _ _ _ _) as [[mz ez] lz] eqn:Ed.
  apply binary_round_aux_nonneg.
  unfold SFdiv_core_binary in Ed.
  destruct (Z.div_eucl _ _) as [q r] eqn:Eq in Ed. injection Ed as <- _ _.
  match type of Eq with Z.div_eucl ?a ?b = _ =>
    assert (Hq : q = (a / b)%Z) by (unfold Z.div; by rewrite Eq);
    assert (Ha : (0 ≤ a)%Z)
  end.
  { destruct (_ - _ - _)%Z; [lia| |lia]. apply Z.shiftl_nonneg. lia. }
  rewrite Hq. apply Z.div_pos; [exact Ha|lia].
Qed.

Lemma parsePrice_nonneg text : nonneg (parsePrice text).
Proof.
  unfold parsePrice. destruct (match_amount _); [|exact I].
  apply parse_hundredths_nonneg.
Qed.

Lemma nonneg_leb x : nonneg x → SFleb (S754_zero false) x = true.
Proof. destruct x as [[]|[]| |[] m e]; done. Qed.

(** X14. The test [taxesFees >= 0] of [applyDepositChanges] never fails:
    [parsePrice] returns the number of an unsigned decimal or [0], never
    a negative number and never [NaN].  The amounts are accepted exactly
    when the parsed subtotal is greater than zero, and a subtotal text
    without an amount is rejected. *)
Theorem taxes_test_never_fails :
  (∀ text, SFleb (S754_zero false) (parsePrice text) = true)
  ∧ (∀ subtotalText taxesFeesText,
       amounts_valid (parsePrice subtotalText) (parsePrice taxesFeesText)
       = SFltb (S754_zero false) (parsePrice subtotalText))
  ∧ (∀ subtotalText taxesFeesText,
       match_amount (remove_all comma_pattern (remove_all usd_pattern subtotalText))
       = None →
       amounts_valid (parsePrice subtotalText) (parsePrice taxesFeesText) = false).
Proof.
  assert (H : ∀ text, SFleb (S754_zero false) (parsePrice text) = true).
  { intros text. apply nonneg_leb, parsePrice_nonneg. }
  split; [exact H|]. split.
  - intros a b. unfold amounts_valid. rewrite (H b). apply andb_true_r.
  - intros a b Hm. unfold amounts_valid, parsePrice at 1. by rewrite Hm.
Qed.

Lemma taxes_test_never_fails_witness :
  amounts_valid (parsePrice "no amount") (parsePrice "USD 12.00") = false.
Proof.
  destruct taxes_test_never_fails as (_ & _ & H). apply H. reflexivity.
Defined.

Lemma toFixed2_add_zero x :
  toFixed2 (add x (S754_zero false)) = toFixed2 x.
Proof. destruct x as [[]|[]| |[] m e]; reflexivity. Qed.

(** X15. When the taxes parse to zero the balance printed is the deposit
    printed: both are [(subtotal / 2).toFixed(2)].  The successful tick
    writes that pair into the elements that exist, and stops the poll. *)
Theorem zero_taxes_balance_is_deposit p s subtotalText taxesFeesText :
  subtotal p = Some subtotalText →
  taxes_and_fees p = Some taxesFeesText →
  grand_total p || banner_grand_total p = true →
  SFltb (S754_zero false) (parsePrice subtotalText) = true →
  parsePrice taxesFeesText = S754_zero false →
  let half := toFixed2 (div (parsePrice subtotalText) (of_Z 2)) in
  effects (applyDepositChanges p s) = effects s ++ write (Deposit half half) p
  ∧ pollInterval (applyDepositChanges p s) = None
  ∧ warnings (applyDepositChanges p s) = warnings s.
Proof.
  intros Hs Ht He Hv Hz. cbn zeta. unfold applyDepositChanges.
  rewrite Hs, Ht, He. unfold amounts_valid. rewrite Hv, Hz. cbn [SFleb SFcompare andb].
  unfold deposit_of. rewrite toFixed2_add_zero.
  cbn [pollAttempts pollInterval emit stop set_attempts bool_decide].
  replace (bool_decide (is_Some (@None positive))) with false
    by (symmetry; apply bool_decide_eq_false; by intros [? ?]).
  rewrite andb_false_r. done.
Qed.

Lemma zero_taxes_balance_is_deposit_witness :
  effects (applyDepositChanges cart_ready (startPollingSafely initial))
  = [SetGrandTotal (Deposit (Some 17085%N) (Some 17085%N));
     SetBannerGrandTotal (Deposit (Some 17085%N) (Some 17085%N))].
Proof.
  destruct (zero_taxes_balance_is_deposit cart_ready (startPollingSafely initial)
              "USD 341.71" "USD 0.00") as (H & _); [reflexivity..|].
  rewrite H. vm_compute. reflexivity.
Defined.

(** ** The poll *)

Lemma tick_not_ready p s :
  ready p = false →
  applyDepositChanges p s
  = let s1 := emit (write Loading p) (set_attempts (S (pollAttempts s)) s) in
    if (MAX_POLL_ATTEMPTS <=? S (pollAttempts s)) && bool_decide (is_Some (pollInterval s))
    then stop (warn s1) else s1.
Proof.
  unfold ready, applyDepositChanges. intros H.
  destruct (subtotal p), (taxes_and_fees p); try reflexivity.
  destruct (grand_total p || banner_grand_total p); [|reflexivity].
  cbn [andb] in H. rewrite H. reflexivity.
Qed.

Lemma deposit_interval_tick id p s :
  Timers.live (timers s) !! id
  = Some (Timers.Timer ApplyDepositChanges POLL_INTERVAL_MS true) →
  timerFires id p s = applyDepositChanges p s.
Proof.
  intros Hl. unfold timerFires, Timers.take. rewrite Hl. cbn. by destruct s.
Qed.

Lemma loading_ticks id p s n :
  Timers.live (timers s) !! id
  = Some (Timers.Timer ApplyDepositChanges POLL_INTERVAL_MS true) →
  pollInterval s = Some id →
  ready p = false →
  pollAttempts s + n < MAX_POLL_ATTEMPTS →
  Nat.iter n (timerFires id p) s
  = {| pollAttempts := pollAttempts s + n; pollInterval := Some id;
       timers := timers s;
       effects := effects s ++ concat (repeat (write Loading p) n);
       warnings := warnings s |}.
Proof.
  intros Hl Hv Hp. induction n as [|n IH]; intros Hn.
  - cbn. rewrite Nat.add_0_r, app_nil_r. destruct s; cbn in *; by subst.
  - rewrite Nat.iter_succ, IH by lia.
    rewrite deposit_interval_tick by exact Hl. rewrite tick_not_ready by exact Hp.
    cbn [pollAttempts pollInterval emit set_attempts].
    replace (MAX_POLL_ATTEMPTS <=? S (pollAttempts s + n)) with false
      by (symmetry; apply Nat.leb_gt; lia).
    cbn [andb]. unfold emit, set_attempts.
    cbn [pollAttempts pollInterval timers effects warnings]. f_equal; [lia|].
    change (repeat (write Loading p) (S n))
      with (write Loading p :: repeat (write Loading p) n).
    rewrite repeat_cons, concat_app. cbn [concat].
    by rewrite app_nil_r, app_assoc.
Qed.

(** X16. The deposit poll has a budget of 200 ticks.  While the amounts
    are missing or rejected, each of the ticks 1 to 199 writes the
    loading placeholders and leaves the interval running; tick 200
    writes them once more, logs the warning and clears the interval. *)
Theorem deposit_poll_budget id p s :
  Timers.live (timers s) !! id
  = Some (Timers.Timer ApplyDepositChanges POLL_INTERVAL_MS true) →
  pollInterval s = Some id →
  pollAttempts s = 0 →
  ready p = false →
  (∀ n, n < MAX_POLL_ATTEMPTS →
        Nat.iter n (timerFires id p) s
        = {| pollAttempts := n; pollInterval := Some id; timers := timers s;
             effects := effects s ++ concat (repeat (write Loading p) n);
             warnings := warnings s |})
  ∧ Nat.iter MAX_POLL_ATTEMPTS (timerFires id p) s
    = {| pollAttempts := MAX_POLL_ATTEMPTS; pollInterval := None;
         timers := Timers.Table (delete id (Timers.live (timers s)))
                                (Timers.next_id (timers s));
         effects := effects s ++ concat (repeat (write Loading p) MAX_POLL_ATTEMPTS);
         warnings := S (warnings s) |}.
Proof.
  intros Hl Hv Ha Hp.
  assert (H : ∀ n, n < MAX_POLL_ATTEMPTS →
                   Nat.iter n (timerFires id p) s
                   = {| pollAttempts := n; pollInterval := Some id; timers := timers s;
                        effects := effects s ++ concat (repeat (write Loading p) n);
                        warnings := warnings s |}).
  { intros n Hn. rewrite (loading_ticks id p s n Hl Hv Hp); rewrite Ha; [done|lia]. }
  split; [exact H|].
  change MAX_POLL_ATTEMPTS with (S 199) at 1. rewrite Nat.iter_succ.
  rewrite H by (unfold MAX_POLL_ATTEMPTS; lia).
  rewrite (deposit_interval_tick id) by exact Hl. rewrite tick_not_ready by exact Hp.
  cbn [pollAttempts pollInterval emit set_attempts].
  replace (MAX_POLL_ATTEMPTS <=? 200) with true by reflexivity.
  replace (bool_decide (is_Some (Some id))) with true
    by (symmetry; apply bool_decide_eq_true; by eexists).
  cbn [andb]. unfold stop, warn, emit, set_attempts.
  cbn [pollAttempts pollInterval timers effects warnings Timers.clear].
  f_equal.
  change (repeat (write Loading p) MAX_POLL_ATTEMPTS)
    with (write Loading p :: repeat (write Loading p) 199).
  rewrite repeat_cons, concat_app. cbn [concat].
  by rewrite app_nil_r, app_assoc.
Qed.

Lemma deposit_poll_budget_witness :
  let s := startPollingSafely initial in
  let s200 := Nat.iter MAX_POLL_ATTEMPTS (timerFires 1 cart_loading) s in
  pollInterval s200 = None ∧ warnings s200 = 1 ∧ length (effects s200) = 400.
Proof.
  destruct (deposit_poll_budget 1 cart_loading (startPollingSafely initial))
    as (_ & H); [reflexivity..|].
  cbn zeta. rewrite H. repeat split.
Defined.

(** ** The variable and the timer table agree *)

Lemma named_ext s s' :
  timers s' = timers s → pollInterval s' = pollInterval s →
  poll_named s → poll_named s'.
Proof. unfold poll_named. intros -> ->. done. Qed.

Lemma named_stop s : poll_named s → poll_named (stop s).
Proof.
  intros (Hf & Hn & Hv). unfold poll_named, stop. cbn [timers pollInterval].
  destruct (pollInterval s) as [id0|] eqn:E; cbn [Timers.clear Timers.live Timers.next_id].
  - split; [|split]; [| |done].
    + intros id t [_ Hl]%lookup_delete_Some. by eapply Hf.
    + intros id t [Hne Hl]%lookup_delete_Some Hk.
      specialize (Hn _ _ Hl Hk). congruence.
  - split; [exact Hf|]. split; [|done].
    intros id t Hl Hk. specialize (Hn _ _ Hl Hk). congruence.
Qed.

Lemma named_startPollingSafely s : poll_named s → poll_named (startPollingSafely s).
Proof.
  intros (Hf & Hn & Hv). unfold startPollingSafely.
  destruct (pollInterval s) as [id0|] eqn:E; [by rewrite <- E in *|].
  unfold poll_named. cbn. split; [|split].
  - intros id t [[<- _]|[_ Hl]]%lookup_insert_Some; [lia|].
    specialize (Hf _ _ Hl). lia.
  - intros id t [[<- _]|[_ Hl]]%lookup_insert_Some Hk; [done|].
    specialize (Hn _ _ Hl Hk). congruence.
  - intros id [= <-]. apply lookup_insert_eq.
Qed.

Lemma named_add_restart (s : State) :
  poll_named s →
  poll_named (set_timers (snd (Timers.setTimeout Restart 50 (timers s))) s).
Proof.
  intros (Hf & Hn & Hv). unfold poll_named. cbn. split; [|split].
  - intros id t [[<- _]|[_ Hl]]%lookup_insert_Some; [lia|].
    specialize (Hf _ _ Hl). lia.
  - intros id t [[_ <-]|[_ Hl]]%lookup_insert_Some Hk; [done|]. by eapply Hn.
  - intros id Hid. rewrite lookup_insert_ne; [by apply Hv|].
    specialize (Hf _ _ (Hv _ Hid)). lia.
Qed.

Lemma named_delete_restart id t (s : State) :
  Timers.live (timers s) !! id = Some t →
  is_ApplyDepositChanges (Timers.callback t) = false →
  poll_named s →
  poll_named (set_timers (Timers.Table (delete id (Timers.live (timers s)))
                                       (Timers.next_id (timers s))) s).
Proof.
  intros Hid Hk (Hf & Hn & Hv). unfold poll_named. cbn. split; [|split].
  - intros id' t' [_ Hl]%lookup_delete_Some. by eapply Hf.
  - intros id' t' [_ Hl]%lookup_delete_Some Hk'. by eapply Hn.
  - intros id' Hid'. rewrite lookup_delete_ne; [by apply Hv|].
    intros <-. rewrite (Hv _ Hid') in Hid. injection Hid as <-. discriminate.
Qed.

Lemma named_applyDepositChanges p s :
  poll_named s → poll_named (applyDepositChanges p s).
Proof.
  intros H. unfold applyDepositChanges.
  set (s1 := set_attempts _ s).
  assert (H1 : poll_named s1) by (revert H; by apply named_ext).
  set (s2 := match subtotal p, taxes_and_fees p with
             | Some a, Some b => _ | _, _ => _ end).
  assert (H2 : poll_named s2).
  { subst s2. assert (Hl : poll_named (emit (write Loading p) s1))
      by (revert H1; by apply named_ext).
    destruct (subtotal p), (taxes_and_fees p); try exact Hl.
    destruct (_ || _); [|exact Hl]. destruct (amounts_valid _ _); [|exact Hl].
    generalize (named_stop _ H1). by apply named_ext. }
  destruct (_ && _); [|exact H2].
  apply named_stop. revert H2. by apply named_ext.
Qed.

Lemma named_restart s : poll_named s → poll_named (restart s).
Proof.
  intros H. unfold restart. apply named_startPollingSafely.
  generalize (named_stop _ H). by apply named_ext.
Qed.

Lemma named_timerFires id p s : poll_named s → poll_named (timerFires id p s).
Proof.
  intros H. unfold timerFires, Timers.take.
  destruct (Timers.live (timers s) !! id) as [[cb d rep]|] eqn:El; [|exact H].
  cbn [Timers.callback Timers.repeating].
  assert (H' : poll_named (set_timers
                             (if rep then timers s
                              else Timers.Table (delete id (Timers.live (timers s)))
                                                (Timers.next_id (timers s))) s)).
  { destruct rep; [revert H; by apply named_ext|].
    destruct cb.
    - destruct H as (_ & Hn & Hv). pose proof (Hn _ _ El eq_refl) as Hid.
      rewrite (Hv _ Hid) in El. discriminate.
    - by apply (named_delete_restart id (Timers.Timer Restart d false)). }
  destruct cb; cbn [run_callback].
  - by apply named_applyDepositChanges.
  - by apply named_restart.
Qed.

Lemma named_step s e : poll_named s → poll_named (step s e).
Proof.
  intros H. destruct e as [| |id p]; cbn [step].
  - by apply named_startPollingSafely.
  - by apply named_add_restart.
  - by apply named_timerFires.
Qed.

Lemma named_run evs : ∀ s, poll_named s → poll_named (run evs s).
Proof.
  induction evs as [|e evs IH]; intros s H; [exact H|].
  cbn [run fold_left]. apply IH. by apply named_step.
Qed.

(** X17. One poll at a time.  In every reachable state a pending
    [applyDepositChanges] is the interval [pollInterval] holds, so two
    never run side by side, and the interval [pollInterval] holds is
    pending: the variable is [null] exactly when no poll is running.
    A restart by the history wrappers leaves one fresh poll with the
    attempt counter at zero. *)
Theorem one_deposit_poll s :
  reachable s →
  (∀ id id' t t',
     Timers.live (timers s) !! id = Some t →
     is_ApplyDepositChanges (Timers.callback t) = true →
     Timers.live (timers s) !! id' = Some t' →
     is_ApplyDepositChanges (Timers.callback t') = true → id = id')
  ∧ (pollInterval s = None ↔
     ∀ id t, Timers.live (timers s) !! id = Some t →
             is_ApplyDepositChanges (Timers.callback t) = false)
  ∧ pollAttempts (restart s) = 0
  ∧ pollInterval (restart s) = Some (Timers.next_id (timers s))
  ∧ ∀ id t, Timers.live (timers (restart s)) !! id = Some t →
            is_ApplyDepositChanges (Timers.callback t) = true →
            id = Timers.next_id (timers s).
Proof.
  intros [evs ->].
  assert (H : poll_named (run evs initial)).
  { apply named_run. unfold poll_named. cbn. split; [|split]; try done.
    all: intros id t; by rewrite lookup_empty. }
  pose proof (named_restart _ H) as (_ & Hn' & _).
  destruct H as (Hf & Hn & Hv).
  set (s := run evs initial) in *.
  assert (Hr : pollInterval (restart s) = Some (Timers.next_id (timers s))).
  { unfold restart, startPollingSafely, stop. cbn.
    by destruct (pollInterval s). }
  split; [|split; [|split; [|split]]].
  - intros id id' t t' Hl Hk Hl' Hk'.
    pose proof (Hn _ _ Hl Hk). pose proof (Hn _ _ Hl' Hk'). congruence.
  - split.
    + intros Hnone id t Hl. destruct (is_ApplyDepositChanges _) eqn:Hk; [|done].
      specialize (Hn _ _ Hl Hk). congruence.
    + intros Hnone. destruct (pollInterval s) as [id|] eqn:E; [|done].
      specialize (Hnone _ _ (Hv _ eq_refl)). discriminate.
  - reflexivity.
  - exact Hr.
  - intros id t Hl Hk. specialize (Hn' _ _ Hl Hk). congruence.
Qed.

Lemma one_deposit_poll_witness :
  let s := run [StartSignal; HistoryCall; TimerFires 1 cart_loading] initial in
  pollAttempts s = 1
  ∧ pollAttempts (restart s) = 0
  ∧ pollInterval (restart s) = Some 3%positive.
Proof.
  destruct (one_deposit_poll
              (run [StartSignal; HistoryCall; TimerFires 1 cart_loading] initial))
    as (_ & _ & H1 & H2 & _); [by eexists|].
  split; [reflexivity|]. split; [exact H1|exact H2].
Defined.

(** ** What the trackers read in the rewritten elements *)

Lemma digits_val_from_app x : ∀ a y,
  digits_val_from a (x +:+ y) = digits_val_from (digits_val_from a x) y.
Proof.
  induction x as [|c x IH]; intros a y; [reflexivity|].
  change (String c x +:+ y) with (String c (x +:+ y)).
  cbn [digits_val_from]. apply IH.
Qed.

Lemma digit_char_val d : (d < 10)%N → digit_val (digit_char d) = d.
Proof.
  intros H. unfold digit_val, digit_char, code.
  rewrite N_ascii_embedding by lia. lia.
Qed.

Lemma digit_char_is_digit d : (d < 10)%N → is_digit (digit_char d) = true.
Proof.
  intros H. unfold is_digit, digit_char, code.
  rewrite N_ascii_embedding by lia.
  apply andb_true_intro. split; apply N.leb_le; lia.
Qed.

Lemma forall_digit_app x y :
  Regex.string_forall is_digit (x +:+ y)
  = Regex.string_forall is_digit x && Regex.string_forall is_digit y.
Proof.
  induction x as [|c x IH]; [reflexivity|].
  change (String c x +:+ y) with (String c (x +:+ y)).
  cbn [Regex.string_forall]. rewrite IH. by rewrite andb_assoc.
Qed.

Lemma render_digits_S fuel n :
  render_digits (S fuel) n
  = if (n <? 10)%N then String (digit_char n) EmptyString
    else render_digits fuel (n / 10) +:+ String (digit_char (n mod 10)) EmptyString.
Proof. reflexivity. Qed.

Lemma render_digits_spec fuel : ∀ n,
  (n < 10 ^ N.of_nat (S fuel))%N →
  digits_val_from 0 (render_digits (S fuel) n) = n
  ∧ Regex.string_forall is_digit (render_digits (S fuel) n) = true
  ∧ render_digits (S fuel) n ≠ EmptyString.
Proof.
  induction fuel as [|fuel IH]; intros n Hn;
    rewrite render_digits_S; destruct (n <? 10)%N eqn:E.
  1,3: apply N.ltb_lt in E; cbn [digits_val_from Regex.string_forall];
       rewrite digit_char_val, digit_char_is_digit by exact E;
       split; [lia|done].
  - apply N.ltb_ge in E. change (10 ^ N.of_nat 1)%N with 10%N in Hn. lia.
  - apply N.ltb_ge in E.
    assert (Hd : (n / 10 < 10 ^ N.of_nat (S fuel))%N).
    { apply N.Div0.div_lt_upper_bound.
      rewrite (Nat2N.inj_succ (S fuel)), N.pow_succ_r' in Hn. lia. }
    destruct (IH _ Hd) as (I1 & I2 & I3).
    assert (Hm : (n mod 10 < 10)%N) by (apply N.mod_lt; lia).
    rewrite digits_val_from_app, I1, forall_digit_app, I2.
    cbn [digits_val_from Regex.string_forall].
    rewrite digit_char_val, digit_char_is_digit by exact Hm.
    split; [|split; [done|]].
    + pose proof (N.div_mod n 10). lia.
    + intros H. destruct (render_digits (S fuel) (n / 10)); [done|discriminate].
Qed.

Lemma render_N_spec n :
  digits_val_from 0 (render_N n) = n
  ∧ Regex.string_forall is_digit (render_N n) = true
  ∧ render_N n ≠ EmptyString.
Proof.
  unfold render_N. apply render_digits_spec.
  destruct (decide (n = 0%N)) as [->|Hn]; [done|].
  rewrite Nat2N.inj_succ, N2Nat.id.
  pose proof (N.log2_spec n ltac:(lia)) as [_ H].
  eapply N.lt_le_trans; [exact H|].
  apply N.pow_le_mono_l. lia.
Qed.

Lemma take_while_digits x : ∀ y,
  Regex.string_forall is_digit x = true →
  take_while is_digit (x +:+ String "." y) = x
  ∧ drop_while is_digit (x +:+ String "." y) = String "." y.
Proof.
  induction x as [|c x IH]; intros y H; [done|].
  cbn [Regex.string_forall] in H. apply andb_prop in H as [Hc Hx].
  change (String c x +:+ String "." y) with (String c (x +:+ String "." y)).
  cbn [take_while drop_while]. rewrite Hc.
  destruct (IH y Hx) as [-> ->]. done.
Qed.

Lemma match_amount_here x d1 d2 rest :
  Regex.string_forall is_digit x = true → x ≠ EmptyString →
  is_digit d1 = true → is_digit d2 = true →
  match_amount (x +:+ String "." (String d1 (String d2 rest)))
  = Some (x, (d1, d2)).
Proof.
  intros Hx Hne H1 H2.
  pose proof (take_while_digits x (String d1 (String d2 rest)) Hx) as [Ht Hd].
  destruct x as [|c x]; [done|].
  change (String c x +:+ ?y) with (String c (x +:+ y)) in *.
  cbn [match_amount]. cbn [Regex.string_forall] in Hx.
  apply andb_prop in Hx as [Hc _]. rewrite Hc, Hd, Ht, H1, H2. reflexivity.
Qed.

Lemma match_amount_skip pre : ∀ s,
  Regex.string_forall (λ c, negb (is_digit c)) pre = true →
  match_amount (pre +:+ s) = match_amount s.
Proof.
  induction pre as [|c pre IH]; intros s H; [reflexivity|].
  cbn [Regex.string_forall] in H. apply andb_prop in H as [Hc Hp].
  change (String c pre +:+ s) with (String c (pre +:+ s)).
  cbn [match_amount]. apply negb_true_iff in Hc. rewrite Hc. by apply IH.
Qed.

Lemma match_rendered h rest :
  match_amount (render_hundredths h +:+ rest)
  = Some (render_N (h / 100),
          (digit_char (h mod 100 / 10), digit_char (h mod 10)))
  ∧ amount_cents (render_N (h / 100),
                  (digit_char (h mod 100 / 10), digit_char (h mod 10))) = h.
Proof.
  destruct (render_N_spec (h / 100)) as (Hv & Hd & Hne).
  assert (H1 : (h mod 100 / 10 < 10)%N).
  { apply N.Div0.div_lt_upper_bound. pose proof (N.mod_lt h 100). lia. }
  assert (H2 : (h mod 10 < 10)%N) by (apply N.mod_lt; lia).
  split.
  - unfold render_hundredths. rewrite CookiesSpec.append_assoc.
    change ((String "." (String ?a (String ?b EmptyString))) +:+ rest)
      with (String "." (String a (String b rest))).
    apply match_amount_here; auto using digit_char_is_digit.
  - unfold amount_cents. cbn [fst snd]. rewrite Hv, !digit_char_val by assumption.
    pose proof (N.div_mod h 100). pose proof (N.div_mod (h mod 100) 10).
    assert ((h mod 100) mod 10 = h mod 10)%N.
    { change 100%N with (10 * 10)%N.
      rewrite N.Div0.mod_mul_r, (N.mul_comm 10), N.Div0.mod_add.
      apply N.Div0.mod_mod. }
    lia.
Qed.

(** X18. After a successful rewrite the trackers of scripts 1 and 2 read
    the deposit, not the total.  The banner total then reads
    [Only Pay USD <half> Today], and [getPriceValue] extracts [half]
    from it (and keeps polling when [half] is zero); the grand total
    reads the deposit line followed by the balance line, and
    [getTotalAmount] returns the first amount, the deposit.  While the
    loading placeholders are shown neither finds an amount. *)
Theorem trackers_read_the_deposit half balance :
  (∀ p, Funnel.banner_grand_total p = Some (banner_text half) →
        Funnel.extracted_price p = if (0 <? half)%N then Some half else None)
  ∧ (∀ p, Purchase.summary_grand_total p = Some (grand_text half balance) →
          Purchase.getTotalAmount p = Some half)
  ∧ (∀ p, Funnel.banner_grand_total p = Some banner_loading_text →
          Funnel.extracted_price p = None)
  ∧ (∀ p, Purchase.summary_grand_total p = Some grand_loading_text →
          Purchase.getTotalAmount p = None).
Proof.
  split; [|split; [|split]].
  - intros p Hp. unfold Funnel.extracted_price. rewrite Hp. unfold banner_text.
    rewrite (match_amount_skip "Only Pay USD ") by reflexivity.
    destruct (match_rendered half " Today") as [-> ->]. reflexivity.
  - intros p Hp. unfold Purchase.getTotalAmount. rewrite Hp. unfold grand_text.
    rewrite (match_amount_skip nl) by reflexivity.
    rewrite (match_amount_skip (spaces 24)) by reflexivity.
    rewrite (match_amount_skip "Only Pay USD ") by reflexivity.
    rewrite (proj1 (match_rendered half _)), (proj2 (match_rendered half "")).
    reflexivity.
  - intros p Hp. unfold Funnel.extracted_price. by rewrite Hp.
  - intros p Hp. unfold Purchase.getTotalAmount. by rewrite Hp.
Qed.

Lemma trackers_read_the_deposit_witness :
  Funnel.extracted_price rewritten_cart = Some 17085%N
  ∧ Purchase.getTotalAmount rewritten_confirmation = Some 17085%N.
Proof.
  destruct (trackers_read_the_deposit 17085 20000) as (H1 & H2 & _).
  split; [apply (H1 rewritten_cart)|apply (H2 rewritten_confirmation)]; reflexivity.
Defined.

End DepositRewriteSpec.

Module SecurityMessageSpec.
Import SecurityMessage.

Lemma message_consistent_ext s s' :
  timers s' = timers s → pollInterval s' = pollInterval s →
  observer s' = observer s → observing s' = observing s →
  consistent s → consistent s'.
Proof. unfold consistent. intros -> -> -> ->. done. Qed.

Lemma message_consistent_stop s : consistent s → consistent (stop s).
Proof.
  intros (Hf & Hn & Hv & Ho). unfold consistent, stop.
  cbn [timers pollInterval observer observing].
  destruct (pollInterval s) as [id0|] eqn:E; cbn [Timers.clear Timers.live Timers.next_id].
  - split; [|split; [|split]]; [| |done|exact Ho].
    + intros id t [_ Hl]%lookup_delete_Some. by eapply Hf.
    + intros id t [Hne Hl]%lookup_delete_Some Hk.
      specialize (Hn _ _ Hl Hk). congruence.
  - split; [exact Hf|]. split; [|split; [done|exact Ho]].
    intros id t Hl Hk. specialize (Hn _ _ Hl Hk). congruence.
Qed.

Lemma message_consistent_drop_observer s : consistent s → consistent (drop_observer s).
Proof.
  intros (Hf & Hn & Hv & Ho). unfold consistent, drop_observer.
  cbn [timers pollInterval observer observing].
  split; [exact Hf|]. split; [exact Hn|]. split; [exact Hv|].
  intros oid Hin. destruct (observer s) as [o|] eqn:E.
  - apply elem_of_difference in Hin as [Hin Hne]. specialize (Ho _ Hin).
    injection Ho as ->. set_solver.
  - specialize (Ho _ Hin). discriminate.
Qed.

Lemma observing_drop_observer s :
  consistent s → observing (drop_observer s) = ∅.
Proof.
  intros (_ & _ & _ & Ho). unfold drop_observer. cbn [observing].
  apply set_eq. intros oid. split; [|set_solver].
  intros Hin. destruct (observer s) as [o|] eqn:E.
  - apply elem_of_difference in Hin as [Hin Hne]. specialize (Ho _ Hin).
    injection Ho as ->. set_solver.
  - specialize (Ho _ Hin). discriminate.
Qed.

Lemma message_consistent_initializeObserver s :
  consistent s → consistent (initializeObserver s).
Proof.
  intros H. pose proof (observing_drop_observer s H) as He.
  apply message_consistent_drop_observer in H. destruct H as (Hf & Hn & Hv & Ho).
  unfold initializeObserver. unfold consistent.
  cbn [timers pollInterval observer observing].
  split; [exact Hf|]. split; [exact Hn|]. split; [exact Hv|].
  intros oid Hin. rewrite He in Hin. f_equal. set_solver.
Qed.

Lemma message_consistent_insertMessage p s :
  consistent s → consistent (snd (insertMessage p s)).
Proof.
  intros H. unfold insertMessage.
  destruct (negb (target p)); [exact H|].
  destruct (message_in_target p); cbn [snd]; [by apply message_consistent_stop|].
  apply message_consistent_stop. destruct (message p); revert H; by apply message_consistent_ext.
Qed.

Lemma message_consistent_pollTick p s : consistent s → consistent (pollTick p s).
Proof.
  intros H. unfold pollTick.
  assert (H1 : consistent (set_attempts (S (pollAttempts s)) s))
    by (revert H; by apply message_consistent_ext).
  pose proof (message_consistent_insertMessage p _ H1) as H2.
  destruct (insertMessage p _) as [b s2]. cbn [snd] in H2.
  destruct (b || _); [|exact H2].
  apply message_consistent_initializeObserver.
  apply message_consistent_stop in H2.
  destruct (_ <=? _); [|exact H2]. revert H2. by apply message_consistent_ext.
Qed.

Lemma message_consistent_start (s : State) :
  consistent s → pollInterval s = None →
  consistent
    {| pollAttempts := pollAttempts s;
       pollInterval := Some (Timers.next_id (timers s));
       observer := observer s;
       timers := snd (Timers.setInterval PollTick POLL_INTERVAL_MS (timers s));
       observing := observing s; next_observer := next_observer s;
       insertions := insertions s; removals := removals s;
       warnings := warnings s |}.
Proof.
  intros (Hf & Hn & Hv & Ho) E. unfold consistent. cbn. split; [|split; [|split]].
  - intros id t [[<- _]|[_ Hl]]%lookup_insert_Some; [lia|].
    specialize (Hf _ _ Hl). lia.
  - intros id t [[<- _]|[_ Hl]]%lookup_insert_Some Hk; [done|].
    specialize (Hn _ _ Hl Hk). congruence.
  - intros id [= <-]. apply lookup_insert_eq.
  - exact Ho.
Qed.

Lemma message_consistent_handleUrlChange p s :
  consistent s → consistent (handleUrlChange p s).
Proof.
  intros H. unfold handleUrlChange.
  assert (H1 : consistent (drop_observer (stop s)))
    by (by apply message_consistent_drop_observer, message_consistent_stop).
  destruct (isPaymentPage p).
  - apply message_consistent_initializeObserver.
    apply (message_consistent_start (set_attempts 0 (drop_observer (stop s)))); [|done].
    revert H1. by apply message_consistent_ext.
  - destruct (message p); [|exact H1]. revert H1. by apply message_consistent_ext.
Qed.

Lemma message_consistent_onMutations relevant p s :
  consistent s → consistent (onMutations relevant p s).
Proof.
  intros H. unfold onMutations. destruct (relevant && _); [|exact H].
  pose proof (message_consistent_insertMessage p s H) as H1.
  destruct (insertMessage p s) as [b s1]. cbn [snd] in H1.
  destruct b; [|exact H1]. by apply message_consistent_drop_observer.
Qed.

Lemma message_consistent_timerFires id p s : consistent s → consistent (timerFires id p s).
Proof.
  intros H. unfold timerFires, Timers.take.
  destruct (Timers.live (timers s) !! id) as [[cb d rep]|] eqn:El; [|exact H].
  cbn [Timers.callback Timers.repeating].
  assert (H' : consistent (set_timers
                             (if rep then timers s
                              else Timers.Table (delete id (Timers.live (timers s)))
                                                (Timers.next_id (timers s))) s)).
  { destruct rep; [revert H; by apply message_consistent_ext|].
    destruct H as (Hf & Hn & Hv & Ho). destruct cb.
    - pose proof (Hn _ _ El eq_refl) as Hid. rewrite (Hv _ Hid) in El. discriminate.
    - unfold consistent. cbn. split; [|split; [|split]].
      + intros id' t' [_ Hl]%lookup_delete_Some. by eapply Hf.
      + intros id' t' [_ Hl]%lookup_delete_Some Hk'. by eapply Hn.
      + intros id' Hid'. rewrite lookup_delete_ne; [by apply Hv|].
        intros <-. rewrite (Hv _ Hid') in El. discriminate.
      + exact Ho. }
  destruct cb; cbn [run_callback].
  - by apply message_consistent_pollTick.
  - by apply message_consistent_handleUrlChange.
Qed.

Lemma message_consistent_step s e : consistent s → consistent (step s e).
Proof.
  intros H. destruct e as [p| |id p|oid relevant p]; cbn [step].
  - by apply message_consistent_handleUrlChange.
  - destruct H as (Hf & Hn & Hv & Ho). unfold consistent. cbn.
    split; [|split; [|split]].
    + intros id t [[<- _]|[_ Hl]]%lookup_insert_Some; [lia|].
      specialize (Hf _ _ Hl). lia.
    + intros id t [[_ <-]|[_ Hl]]%lookup_insert_Some Hk; [done|]. by eapply Hn.
    + intros id Hid. rewrite lookup_insert_ne; [by apply Hv|].
      specialize (Hf _ _ (Hv _ Hid)). lia.
    + exact Ho.
  - by apply message_consistent_timerFires.
  - unfold mutationsDelivered. destruct (bool_decide _); [|exact H].
    by apply message_consistent_onMutations.
Qed.

Lemma message_consistent_run evs : ∀ s, consistent s → consistent (run evs s).
Proof.
  induction evs as [|e evs IH]; intros s H; [exact H|].
  cbn [run fold_left]. apply IH. by apply message_consistent_step.
Qed.

Lemma message_consistent_reachable s : reachable s → consistent s.
Proof.
  intros [evs ->]. apply message_consistent_run. unfold consistent. cbn.
  split; [|split; [|split]]; try done.
  all: intros id t; by rewrite lookup_empty.
Qed.

Lemma idle_after_stop_drop s :
  consistent s → idle (drop_observer (stop s)).
Proof.
  intros H. pose proof (message_consistent_stop s H) as H1.
  pose proof (observing_drop_observer _ H1) as He.
  apply message_consistent_drop_observer in H1. destruct H1 as (_ & Hn & _ & _).
  unfold idle. split; [done|]. split; [done|]. split; [exact He|].
  intros id t Hl. destruct (is_PollTick _) eqn:Hk; [|done].
  specialize (Hn _ _ Hl Hk). discriminate.
Qed.

(** X19. The variables of the security message name what is running.
    In every reachable state a pending poll is the interval
    [pollInterval] holds and that interval is pending, and a connected
    observer is the one [observer] holds; so there is at most one of
    each.  [handleUrlChange] off the payment page leaves nothing (no
    poll pending, no observer connected); on the payment page it leaves
    one fresh interval and one fresh observer with the attempt counter
    at zero. *)
Theorem security_watch_named s p :
  reachable s →
  consistent s
  ∧ (isPaymentPage p = false → idle (handleUrlChange p s))
  ∧ (isPaymentPage p = true →
       let s1 := handleUrlChange p s in
       pollAttempts s1 = 0
       ∧ pollInterval s1 = Some (Timers.next_id (timers s))
       ∧ observer s1 = Some (next_observer s)
       ∧ observing s1 = {[next_observer s]}
       ∧ ∀ id t, Timers.live (timers s1) !! id = Some t →
                 is_PollTick (Timers.callback t) = true →
                 id = Timers.next_id (timers s)).
Proof.
  intros Hr. pose proof (message_consistent_reachable s Hr) as H.
  split; [exact H|]. split.
  - intros Hp. unfold handleUrlChange. rewrite Hp.
    pose proof (idle_after_stop_drop s H) as Hi.
    destruct (message p); [|exact Hi]. exact Hi.
  - intros Hp. cbn zeta.
    pose proof (message_consistent_handleUrlChange p s H) as (_ & Hn & _ & _).
    pose proof (idle_after_stop_drop s H) as (_ & _ & He & _).
    unfold handleUrlChange in *. rewrite Hp in *.
    assert (Hnext : Timers.next_id (timers (drop_observer (stop s)))
                    = Timers.next_id (timers s)).
    { unfold drop_observer, stop. cbn. by destruct (pollInterval s). }
    cbn in Hn |- *. cbn in Hnext, He. rewrite Hnext in *.
    split; [done|]. split; [done|]. split; [done|]. split.
    + rewrite He. set_solver.
    + intros id t Hl Hk. specialize (Hn _ _ Hl Hk). congruence.
Qed.

Lemma security_watch_named_witness :
  let s := run [UrlSignal payment_page_loading; TimerFires 1 payment_page] initial in
  idle (handleUrlChange guests_page s).
Proof.
  destruct (security_watch_named
              (run [UrlSignal payment_page_loading; TimerFires 1 payment_page] initial)
              guests_page) as (_ & H & _); [by eexists|].
  apply H. reflexivity.
Defined.

Lemma message_interval_tick id p s :
  Timers.live (timers s) !! id = Some (Timers.Timer PollTick POLL_INTERVAL_MS true) →
  timerFires id p s = pollTick p s.
Proof.
  intros Hl. unfold timerFires, Timers.take. rewrite Hl. cbn. by destruct s.
Qed.

Lemma message_idle_ticks id p s n :
  Timers.live (timers s) !! id = Some (Timers.Timer PollTick POLL_INTERVAL_MS true) →
  target p = false →
  pollAttempts s + n < MAX_POLL_ATTEMPTS →
  Nat.iter n (timerFires id p) s = set_attempts (pollAttempts s + n) s.
Proof.
  intros Hl Hp. induction n as [|n IH]; intros Hn.
  - cbn. rewrite Nat.add_0_r. by destruct s.
  - rewrite Nat.iter_succ, IH by lia.
    rewrite (message_interval_tick id); [|exact Hl].
    unfold pollTick, insertMessage. rewrite Hp.
    cbn [negb orb pollAttempts set_attempts].
    replace (MAX_POLL_ATTEMPTS <=? S (pollAttempts s + n)) with false
      by (symmetry; apply Nat.leb_gt; lia).
    unfold set_attempts. cbn. f_equal. lia.
Qed.

Lemma insertMessage_set_attempts q n s :
  insertMessage q (set_attempts n s)
  = (fst (insertMessage q s), set_attempts n (snd (insertMessage q s))).
Proof.
  unfold insertMessage.
  destruct (target q), (message_in_target q), (message q); reflexivity.
Qed.

Lemma insertMessage_frame q s :
  let s' := snd (insertMessage q s) in
  observer s' = observer s ∧ observing s' = observing s
  ∧ next_observer s' = next_observer s ∧ warnings s' = warnings s
  ∧ pollAttempts s' = pollAttempts s
  ∧ (pollInterval s' = None ∨ pollInterval s' = pollInterval s)
  ∧ (Timers.clear (pollInterval s') (timers s')
     = Timers.clear (pollInterval s) (timers s)).
Proof.
  unfold insertMessage.
  destruct (target q), (message_in_target q), (message q); cbn; auto 10.
Qed.

(** X20. The poll of the security message has a budget of 300 ticks.
    While the page title is missing, ticks 1 to 299 only count; tick
    300, whatever the page shows by then, clears the interval, logs the
    warning (also when that tick has inserted the message) and replaces
    the observer by a fresh one, which stays connected. *)
Theorem security_poll_budget id p q s :
  Timers.live (timers s) !! id = Some (Timers.Timer PollTick POLL_INTERVAL_MS true) →
  pollInterval s = Some id →
  pollAttempts s = 0 →
  target p = false →
  (∀ n, n < MAX_POLL_ATTEMPTS →
        Nat.iter n (timerFires id p) s = set_attempts n s)
  ∧ let s300 := timerFires id q (Nat.iter (MAX_POLL_ATTEMPTS - 1) (timerFires id p) s) in
    pollAttempts s300 = MAX_POLL_ATTEMPTS
    ∧ pollInterval s300 = None
    ∧ Timers.live (timers s300) = delete id (Timers.live (timers s))
    ∧ warnings s300 = S (warnings s)
    ∧ observer s300 = Some (next_observer s)
    ∧ next_observer s ∈ observing s300
    ∧ insertions s300 = insertions (snd (insertMessage q s)).
Proof.
  intros Hl Hv Ha Hp.
  assert (Hidle : ∀ n, n < MAX_POLL_ATTEMPTS →
                       Nat.iter n (timerFires id p) s = set_attempts n s).
  { intros n Hn. rewrite (message_idle_ticks id p s n Hl Hp); rewrite Ha; [done|lia]. }
  split; [exact Hidle|]. cbn zeta.
  rewrite Hidle by (unfold MAX_POLL_ATTEMPTS; lia).
  rewrite (message_interval_tick id); [|exact Hl].
  unfold pollTick. cbn [pollAttempts set_attempts].
  change (set_attempts (S (MAX_POLL_ATTEMPTS - 1)) (set_attempts (MAX_POLL_ATTEMPTS - 1) s))
    with (set_attempts MAX_POLL_ATTEMPTS s).
  rewrite insertMessage_set_attempts.
  pose proof (insertMessage_frame q s) as (Fo & Fg & Fn & Fw & Fa & _ & Fc).
  destruct (insertMessage q s) as [b s1]. cbn [fst snd] in *.
  cbn [pollAttempts set_attempts].
  replace (MAX_POLL_ATTEMPTS <=? MAX_POLL_ATTEMPTS) with true by reflexivity.
  rewrite orb_true_r. cbn [stop pollAttempts].
  replace (MAX_POLL_ATTEMPTS <=? MAX_POLL_ATTEMPTS) with true by reflexivity.
  unfold initializeObserver, drop_observer, warn, stop, set_attempts.
  cbn [pollAttempts pollInterval observer timers observing next_observer
       insertions removals warnings].
  rewrite Fc, Hv, Fn, Fw. cbn [Timers.clear Timers.live].
  repeat split. set_solver.
Qed.

Lemma security_poll_budget_witness :
  let s := handleUrlChange payment_page_loading initial in
  let s300 := timerFires 1 payment_page
                (Nat.iter (MAX_POLL_ATTEMPTS - 1) (timerFires 1 payment_page_loading) s) in
  pollInterval s300 = None
  ∧ warnings s300 = 1
  ∧ observer s300 = Some 2%positive
  ∧ insertions s300 = 1.
Proof.
  destruct (security_poll_budget 1 payment_page_loading payment_page
              (handleUrlChange payment_page_loading initial))
    as (_ & _ & H1 & _ & H2 & H3 & _ & H4); [reflexivity..|].
  repeat split; assumption.
Defined.

(** X21. What stays after the message is written depends on who wrote it.
    A poll tick that inserts the message (before the budget is used up)
    stops the poll and attaches a fresh observer, with no warning.  An
    observer callback that inserts it stops the poll and disconnects the
    observer: nothing of the script is left running, so a message that
    is removed after that is not written again before the next URL
    change. *)
Theorem after_the_message_is_written p s :
  reachable s →
  target p = true → message p = false → message_in_target p = false →
  (∀ id, pollInterval s = Some id → S (pollAttempts s) < MAX_POLL_ATTEMPTS →
         let s1 := timerFires id p s in
         insertions s1 = S (insertions s)
         ∧ pollInterval s1 = None
         ∧ warnings s1 = warnings s
         ∧ observer s1 = Some (next_observer s)
         ∧ observing s1 = {[next_observer s]})
  ∧ (∀ oid, oid ∈ observing s →
            let s1 := mutationsDelivered oid true p s in
            insertions s1 = S (insertions s) ∧ idle s1).
Proof.
  intros Hr Ht Hm Hmt. pose proof (message_consistent_reachable s Hr) as H.
  split.
  - intros id Hid Ha. cbn zeta. destruct H as (_ & _ & Hv & Ho).
    rewrite (message_interval_tick id) by (by apply Hv).
    unfold pollTick, insertMessage. rewrite Ht, Hmt, Hm.
    cbn [negb orb stop add_insertion set_attempts pollAttempts].
    replace (MAX_POLL_ATTEMPTS <=? S (pollAttempts s)) with false
      by (symmetry; apply Nat.leb_gt; lia).
    unfold initializeObserver, drop_observer. cbn.
    repeat split. apply set_eq. intros o. destruct (observer s) as [o'|] eqn:E.
    + split; [|set_solver]. intros [Hin|Hin]%elem_of_union; [done|].
      apply elem_of_difference in Hin as [Hin Hne]. specialize (Ho _ Hin).
      injection Ho as ->. set_solver.
    + split; [|set_solver]. intros [Hin|Hin]%elem_of_union; [done|].
      specialize (Ho _ Hin). discriminate.
  - intros oid Hin. cbn zeta. unfold mutationsDelivered.
    rewrite bool_decide_eq_true_2 by exact Hin.
    unfold onMutations, insertMessage. rewrite Ht, Hmt, Hm. cbn [negb andb].
    split; [reflexivity|].
    apply (idle_after_stop_drop (add_insertion s)).
    revert H. by apply message_consistent_ext.
Qed.

Lemma after_the_message_is_written_witness :
  let s := run [UrlSignal payment_page_loading] initial in
  idle (mutationsDelivered 1 true payment_page s)
  ∧ observing (timerFires 1 payment_page s) = {[2%positive]}.
Proof.
  destruct (after_the_message_is_written payment_page
              (run [UrlSignal payment_page_loading] initial))
    as (H1 & H2); [by eexists|reflexivity..|].
  split.
  - apply (H2 1%positive). vm_compute. set_solver.
  - apply (H1 1%positive); [reflexivity|]. vm_compute. lia.
Defined.

End SecurityMessageSpec.

Module DepositClarificationSpec.
Import JsString DepositClarification.

Lemma clarification_consistent_ext s s' :
  timers s' = timers s →
  initialCheckIntervalId s' = initialCheckIntervalId s →
  persistentRecheckIntervalId s' = persistentRecheckIntervalId s →
  observer s' = observer s → observing s' = observing s →
  consistent s → consistent s'.
Proof. unfold consistent. intros -> -> -> -> ->. done. Qed.

Lemma clarification_consistent_stop_initial s : consistent s → consistent (stop_initial s).
Proof.
  intros (Hf & Hi & Hp & Vi & Vp & Ho). unfold consistent, stop_initial.
  cbn [timers initialCheckIntervalId persistentRecheckIntervalId observer observing].
  destruct (initialCheckIntervalId s) as [id0|] eqn:E;
    cbn [Timers.clear Timers.live Timers.next_id].
  - repeat apply conj; [| | |done| |exact Ho].
    + intros id t [_ Hl]%lookup_delete_Some. by eapply Hf.
    + intros id t [Hne Hl]%lookup_delete_Some Hk.
      specialize (Hi _ _ Hl Hk). congruence.
    + intros id t [_ Hl]%lookup_delete_Some Hk. by eapply Hp.
    + intros id Hid. rewrite lookup_delete_ne; [by apply Vp|].
      intros Heq. subst id. pose proof (Vi _ eq_refl) as A.
      pose proof (Vp _ Hid) as B. rewrite A in B. discriminate.
  - repeat apply conj; [exact Hf| |exact Hp|done|exact Vp|exact Ho].
    intros id t Hl Hk. specialize (Hi _ _ Hl Hk). congruence.
Qed.

Lemma clarification_consistent_stop_persistent s : consistent s → consistent (stop_persistent s).
Proof.
  intros (Hf & Hi & Hp & Vi & Vp & Ho). unfold consistent, stop_persistent.
  cbn [timers initialCheckIntervalId persistentRecheckIntervalId observer observing].
  destruct (persistentRecheckIntervalId s) as [id0|] eqn:E;
    cbn [Timers.clear Timers.live Timers.next_id].
  - repeat apply conj; [| | | |done|exact Ho].
    + intros id t [_ Hl]%lookup_delete_Some. by eapply Hf.
    + intros id t [_ Hl]%lookup_delete_Some Hk. by eapply Hi.
    + intros id t [Hne Hl]%lookup_delete_Some Hk.
      specialize (Hp _ _ Hl Hk). congruence.
    + intros id Hid. rewrite lookup_delete_ne; [by apply Vi|].
      intros Heq. subst id. pose proof (Vp _ eq_refl) as A.
      pose proof (Vi _ Hid) as B. rewrite A in B. discriminate.
  - repeat apply conj; [exact Hf|exact Hi| |exact Vi|done|exact Ho].
    intros id t Hl Hk. specialize (Hp _ _ Hl Hk). congruence.
Qed.

Lemma observing_disconnect s : consistent s → observing (disconnect s) = ∅.
Proof.
  intros (_ & _ & _ & _ & _ & Ho). unfold disconnect. cbn [observing].
  apply set_eq. intros oid. split; [|by intros ?%elem_of_empty].
  intros Hin. destruct (observer s) as [o|] eqn:E.
  - apply elem_of_difference in Hin as [Hin Hne]. specialize (Ho _ Hin).
    injection Ho as ->. exfalso. by apply Hne, elem_of_singleton.
  - specialize (Ho _ Hin). discriminate.
Qed.

Lemma clarification_consistent_drop_observer s :
  consistent s → consistent (set_observer None (disconnect s)).
Proof.
  intros H. pose proof (observing_disconnect s H) as He.
  destruct H as (Hf & Hi & Hp & Vi & Vp & Ho). unfold consistent.
  cbn [timers initialCheckIntervalId persistentRecheckIntervalId observer
       observing set_observer] in *.
  repeat apply conj; try assumption.
  intros oid Hin. rewrite He in Hin. by apply elem_of_empty in Hin.
Qed.

Lemma clarification_consistent_initializeDepositObserver s :
  consistent s → consistent (initializeDepositObserver s).
Proof.
  intros H. pose proof (observing_disconnect s H) as He.
  destruct H as (Hf & Hi & Hp & Vi & Vp & Ho).
  unfold initializeDepositObserver, consistent.
  cbn [timers initialCheckIntervalId persistentRecheckIntervalId observer
       observing next_observer disconnect] in *.
  repeat apply conj; try assumption.
  intros oid Hin. rewrite He in Hin.
  apply elem_of_union in Hin as [Hin|Hin]; [|by apply elem_of_empty in Hin].
  apply elem_of_singleton in Hin. by subst.
Qed.

Lemma clarification_consistent_release s : consistent s → consistent (release s).
Proof.
  intros H. unfold release.
  by apply clarification_consistent_drop_observer, clarification_consistent_stop_persistent, clarification_consistent_stop_initial.
Qed.

Lemma clarification_consistent_start_persistent (s : State) :
  consistent s → persistentRecheckIntervalId s = None →
  consistent
    {| initialCheckAttempt := initialCheckAttempt s;
       initialCheckIntervalId := initialCheckIntervalId s;
       persistentRecheckIntervalId := Some (Timers.next_id (timers s));
       observer := observer s;
       timers := snd (Timers.setInterval PersistentRecheck
                        PERSISTENT_RECHECK_INTERVAL_MS (timers s));
       observing := observing s; next_observer := next_observer s;
       clarified := clarified s; warnings := warnings s |}.
Proof.
  intros (Hf & Hi & Hp & Vi & Vp & Ho) E. unfold consistent. cbn.
  repeat apply conj; [| | | | |exact Ho].
  - intros id t [[<- _]|[_ Hl]]%lookup_insert_Some; [lia|].
    specialize (Hf _ _ Hl). lia.
  - intros id t [[_ <-]|[_ Hl]]%lookup_insert_Some Hk; [done|]. by eapply Hi.
  - intros id t [[<- _]|[_ Hl]]%lookup_insert_Some Hk; [done|].
    specialize (Hp _ _ Hl Hk). congruence.
  - intros id Hid. rewrite lookup_insert_ne; [by apply Vi|].
    specialize (Hf _ _ (Vi _ Hid)). lia.
  - intros id [= <-]. apply lookup_insert_eq.
Qed.

Lemma clarification_consistent_start_initial (s : State) :
  consistent s → initialCheckIntervalId s = None →
  consistent
    {| initialCheckAttempt := initialCheckAttempt s;
       initialCheckIntervalId := Some (Timers.next_id (timers s));
       persistentRecheckIntervalId := persistentRecheckIntervalId s;
       observer := observer s;
       timers := snd (Timers.setInterval InitialCheck
                        INITIAL_CHECK_INTERVAL_MS (timers s));
       observing := observing s; next_observer := next_observer s;
       clarified := clarified s; warnings := warnings s |}.
Proof.
  intros (Hf & Hi & Hp & Vi & Vp & Ho) E. unfold consistent. cbn.
  repeat apply conj; [| | | | |exact Ho].
  - intros id t [[<- _]|[_ Hl]]%lookup_insert_Some; [lia|].
    specialize (Hf _ _ Hl). lia.
  - intros id t [[<- _]|[_ Hl]]%lookup_insert_Some Hk; [done|].
    specialize (Hi _ _ Hl Hk). congruence.
  - intros id t [[_ <-]|[_ Hl]]%lookup_insert_Some Hk; [done|]. by eapply Hp.
  - intros id [= <-]. apply lookup_insert_eq.
  - intros id Hid. rewrite lookup_insert_ne; [by apply Vp|].
    specialize (Hf _ _ (Vp _ Hid)). lia.
Qed.

Lemma clarification_consistent_attemptInsertionLogic p s :
  consistent s → consistent (snd (attemptInsertionLogic p s)).
Proof.
  intros H. unfold attemptInsertionLogic.
  set (s1 := add_clarified _ s).
  assert (H1 : consistent s1) by (revert H; by apply clarification_consistent_ext).
  destruct (insertedAny p); cbn [snd]; [|exact H1].
  apply clarification_consistent_stop_initial.
  destruct (persistentRecheckIntervalId s1) eqn:E; [exact H1|].
  by apply (clarification_consistent_start_persistent s1).
Qed.

Lemma clarification_consistent_initialCheck p s : consistent s → consistent (initialCheck p s).
Proof.
  intros H. unfold initialCheck.
  pose proof (clarification_consistent_attemptInsertionLogic p s H) as H1.
  destruct (attemptInsertionLogic p s) as [b s1]. cbn [snd] in H1.
  set (s2 := if b || _ then _ else s1).
  assert (H2 : consistent s2).
  { subst s2. destruct (b || _); [|exact H1].
    apply clarification_consistent_initializeDepositObserver.
    apply clarification_consistent_stop_initial in H1.
    destruct (_ <=? _); [|exact H1]. revert H1. by apply clarification_consistent_ext. }
  revert H2. by apply clarification_consistent_ext.
Qed.

Lemma clarification_consistent_handleUrlChange p s :
  consistent s → consistent (handleUrlChange p s).
Proof.
  intros H. unfold handleUrlChange.
  pose proof (clarification_consistent_release s H) as H1.
  destruct (Regex.isRoomSelectionPage (href p)); [|exact H1].
  apply (clarification_consistent_start_initial (set_attempt 0 (release s))); [|done].
  revert H1. by apply clarification_consistent_ext.
Qed.

Lemma clarification_consistent_timerFires id p s : consistent s → consistent (timerFires id p s).
Proof.
  intros H. unfold timerFires, Timers.take.
  destruct (Timers.live (timers s) !! id) as [[cb d rep]|] eqn:El; [|exact H].
  cbn [Timers.callback Timers.repeating].
  assert (H' : consistent (set_timers
                             (if rep then timers s
                              else Timers.Table (delete id (Timers.live (timers s)))
                                                (Timers.next_id (timers s))) s)).
  { destruct rep; [revert H; by apply clarification_consistent_ext|].
    destruct H as (Hf & Hi & Hp & Vi & Vp & Ho). destruct cb.
    - pose proof (Hi _ _ El eq_refl) as Hid. rewrite (Vi _ Hid) in El. discriminate.
    - pose proof (Hp _ _ El eq_refl) as Hid. rewrite (Vp _ Hid) in El. discriminate.
    - unfold consistent. cbn. repeat apply conj; [| | | | |exact Ho].
      + intros id' t' [_ Hl]%lookup_delete_Some. by eapply Hf.
      + intros id' t' [_ Hl]%lookup_delete_Some Hk'. by eapply Hi.
      + intros id' t' [_ Hl]%lookup_delete_Some Hk'. by eapply Hp.
      + intros id' Hid'. rewrite lookup_delete_ne; [by apply Vi|].
        intros <-. rewrite (Vi _ Hid') in El. discriminate.
      + intros id' Hid'. rewrite lookup_delete_ne; [by apply Vp|].
        intros <-. rewrite (Vp _ Hid') in El. discriminate. }
  destruct cb; cbn [run_callback].
  - by apply clarification_consistent_initialCheck.
  - unfold persistentRecheck. destruct (needsReinsertion p); [|exact H'].
    by apply clarification_consistent_attemptInsertionLogic.
  - by apply clarification_consistent_handleUrlChange.
Qed.

Lemma clarification_consistent_step s e : consistent s → consistent (step s e).
Proof.
  intros H. destruct e as [p| |id p|oid relevant p]; cbn [step].
  - by apply clarification_consistent_handleUrlChange.
  - destruct H as (Hf & Hi & Hp & Vi & Vp & Ho). unfold consistent. cbn.
    repeat apply conj; [| | | | |exact Ho].
    + intros id t [[<- _]|[_ Hl]]%lookup_insert_Some; [lia|].
      specialize (Hf _ _ Hl). lia.
    + intros id t [[_ <-]|[_ Hl]]%lookup_insert_Some Hk; [done|]. by eapply Hi.
    + intros id t [[_ <-]|[_ Hl]]%lookup_insert_Some Hk; [done|]. by eapply Hp.
    + intros id Hid. rewrite lookup_insert_ne; [by apply Vi|].
      specialize (Hf _ _ (Vi _ Hid)). lia.
    + intros id Hid. rewrite lookup_insert_ne; [by apply Vp|].
      specialize (Hf _ _ (Vp _ Hid)). lia.
  - by apply clarification_consistent_timerFires.
  - unfold mutationsDelivered. destruct (bool_decide _); [|exact H].
    unfold onMutations. destruct relevant; [|exact H].
    by apply clarification_consistent_attemptInsertionLogic.
Qed.

Lemma clarification_consistent_run evs : ∀ s, consistent s → consistent (run evs s).
Proof.
  induction evs as [|e evs IH]; intros s H; [exact H|].
  cbn [run fold_left]. apply IH. by apply clarification_consistent_step.
Qed.

Lemma clarification_consistent_reachable s : reachable s → consistent s.
Proof.
  intros [evs ->]. apply clarification_consistent_run. unfold consistent. cbn.
  repeat apply conj; try done.
  all: intros id t; by rewrite lookup_empty.
Qed.

Lemma idle_release s : consistent s → idle (release s).
Proof.
  intros H. pose proof (clarification_consistent_release s H) as (_ & Hi & Hp & _ & _ & _).
  assert (He : observing (release s) = ∅).
  { unfold release. cbn [observing set_observer].
    apply observing_disconnect.
    by apply clarification_consistent_stop_persistent, clarification_consistent_stop_initial. }
  unfold idle. repeat apply conj; [done|done|done|exact He|].
  intros id t Hl. destruct t as [[] d rep]; [| |reflexivity].
  - specialize (Hi _ _ Hl eq_refl). discriminate.
  - specialize (Hp _ _ Hl eq_refl). discriminate.
Qed.

(** X22. The variables of the deposit clarification name what is
    running.  In every reachable state each pending initial check and
    each pending persistent re-check is the interval its variable
    holds, the intervals the variables hold are pending, and a connected
    observer is the one [observer] holds: at most one of each runs.
    [handleUrlChange] off the reservation pages leaves nothing behind
    but the wrappers' own timeouts; on a reservation page it leaves one
    fresh initial check, no persistent re-check and no observer. *)
Theorem clarification_watch_named s p :
  reachable s →
  consistent s
  ∧ (Regex.isRoomSelectionPage (href p) = false → idle (handleUrlChange p s))
  ∧ (Regex.isRoomSelectionPage (href p) = true →
       let s1 := handleUrlChange p s in
       initialCheckAttempt s1 = 0
       ∧ initialCheckIntervalId s1 = Some (Timers.next_id (timers s))
       ∧ persistentRecheckIntervalId s1 = None
       ∧ observer s1 = None
       ∧ observing s1 = ∅
       ∧ ∀ id t, Timers.live (timers s1) !! id = Some t →
                 Timers.callback t ≠ HandleUrlChange →
                 id = Timers.next_id (timers s)).
Proof.
  intros Hr. pose proof (clarification_consistent_reachable s Hr) as H.
  split; [exact H|]. split.
  - intros Hp. unfold handleUrlChange. rewrite Hp. by apply idle_release.
  - intros Hp. cbn zeta.
    pose proof (clarification_consistent_handleUrlChange p s H) as (_ & Hi & Hq & _ & _ & _).
    pose proof (idle_release s H) as (_ & _ & _ & He & _).
    unfold handleUrlChange in *. rewrite Hp in *.
    assert (Hnext : Timers.next_id (timers (release s)) = Timers.next_id (timers s)).
    { unfold release, stop_persistent, stop_initial. cbn.
      by destruct (persistentRecheckIntervalId s), (initialCheckIntervalId s). }
    cbn in Hi, Hq, Hnext, He |- *. rewrite Hnext in *.
    repeat apply conj; try done.
    intros id t Hl Hk. destruct t as [[] d rep]; [| |done].
    + specialize (Hi _ _ Hl eq_refl). congruence.
    + specialize (Hq _ _ Hl eq_refl). discriminate.
Qed.

Lemma clarification_watch_named_witness :
  let s := run [UrlSignal rooms_page; TimerFires 1 rooms_page] initial in
  persistentRecheckIntervalId s = Some 2%positive
  ∧ idle (handleUrlChange home_page s).
Proof.
  destruct (clarification_watch_named
              (run [UrlSignal rooms_page; TimerFires 1 rooms_page] initial) home_page)
    as (_ & H & _); [by eexists|].
  split; [reflexivity|]. apply H. reflexivity.
Defined.

(** ** The initial check *)

Lemma nothing_inserted p s :
  insertedAny p = false → attemptInsertionLogic p s = (false, s).
Proof.
  intros H. unfold attemptInsertionLogic. rewrite H. f_equal.
  assert (E : List.filter insertClarification (price_elements p) = []).
  { unfold insertedAny in H. induction (price_elements p) as [|el l IH]; [done|].
    cbn in H |- *. apply orb_false_elim in H as [-> Hl]. by apply IH. }
  rewrite E. unfold add_clarified. cbn. rewrite Nat.add_0_r. by destruct s.
Qed.

Lemma clarification_interval_tick id p s :
  Timers.live (timers s) !! id
  = Some (Timers.Timer InitialCheck INITIAL_CHECK_INTERVAL_MS true) →
  timerFires id p s = initialCheck p s.
Proof.
  intros Hl. unfold timerFires, Timers.take. rewrite Hl. cbn. by destruct s.
Qed.

Lemma clarification_idle_ticks id p s n :
  Timers.live (timers s) !! id
  = Some (Timers.Timer InitialCheck INITIAL_CHECK_INTERVAL_MS true) →
  insertedAny p = false →
  initialCheckAttempt s + n ≤ INITIAL_CHECK_MAX_ATTEMPTS →
  Nat.iter n (timerFires id p) s = set_attempt (initialCheckAttempt s + n) s.
Proof.
  intros Hl Hp. induction n as [|n IH]; intros Hn.
  - cbn. rewrite Nat.add_0_r. by destruct s.
  - rewrite Nat.iter_succ, IH by lia.
    rewrite (clarification_interval_tick id); [|exact Hl].
    unfold initialCheck. rewrite nothing_inserted by exact Hp.
    cbn [orb initialCheckAttempt set_attempt].
    replace (INITIAL_CHECK_MAX_ATTEMPTS <=? initialCheckAttempt s + n) with false
      by (symmetry; apply Nat.leb_gt; lia).
    unfold set_attempt. cbn. f_equal. lia.
Qed.

Lemma attemptInsertionLogic_frame q s :
  let s' := snd (attemptInsertionLogic q s) in
  initialCheckAttempt s' = initialCheckAttempt s
  ∧ observer s' = observer s ∧ observing s' = observing s
  ∧ next_observer s' = next_observer s ∧ warnings s' = warnings s
  ∧ ∀ id, initialCheckIntervalId s = Some id →
          Timers.live (Timers.clear (initialCheckIntervalId s') (timers s')) !! id
          = None.
Proof.
  unfold attemptInsertionLogic. destruct (insertedAny q).
  - destruct (persistentRecheckIntervalId s) eqn:E; cbn; rewrite ?E; cbn;
      repeat apply conj; try reflexivity; intros id ->; cbn; apply lookup_delete_eq.
  - cbn. repeat apply conj; try reflexivity. intros id ->. cbn. apply lookup_delete_eq.
Qed.

(** X23. The initial check of the deposit clarification has a budget of
    51 ticks.  While nothing can be clarified, ticks 1 to 50 only
    count; the 51st tick, whatever the page shows by then, clears the
    interval, logs the warning and, unlike the banner's, attaches the
    observer. *)
Theorem clarification_check_budget id p q s :
  reachable s →
  initialCheckIntervalId s = Some id →
  initialCheckAttempt s = 0 →
  insertedAny p = false →
  (∀ n, n ≤ INITIAL_CHECK_MAX_ATTEMPTS →
        Nat.iter n (timerFires id p) s = set_attempt n s)
  ∧ let s51 := timerFires id q
                 (Nat.iter INITIAL_CHECK_MAX_ATTEMPTS (timerFires id p) s) in
    initialCheckAttempt s51 = S INITIAL_CHECK_MAX_ATTEMPTS
    ∧ initialCheckIntervalId s51 = None
    ∧ Timers.live (timers s51) !! id = None
    ∧ warnings s51 = S (warnings s)
    ∧ observer s51 = Some (next_observer s)
    ∧ observing s51 = {[next_observer s]}.
Proof.
  intros Hr Hv Ha Hp. pose proof (clarification_consistent_reachable s Hr) as Hc.
  assert (Hl : Timers.live (timers s) !! id
               = Some (Timers.Timer InitialCheck INITIAL_CHECK_INTERVAL_MS true)).
  { destruct Hc as (_ & _ & _ & Vi & _). by apply Vi. }
  assert (Hidle : ∀ n, n ≤ INITIAL_CHECK_MAX_ATTEMPTS →
                       Nat.iter n (timerFires id p) s = set_attempt n s).
  { intros n Hn. rewrite (clarification_idle_ticks id p s n Hl Hp); rewrite Ha; [done|lia]. }
  split; [exact Hidle|]. cbn zeta. rewrite (Hidle _ (Nat.le_refl _)).
  rewrite (clarification_interval_tick id); [|exact Hl].
  pose proof (observing_disconnect s Hc) as He. unfold disconnect in He. cbn in He.
  unfold initialCheck.
  pose proof (attemptInsertionLogic_frame q (set_attempt INITIAL_CHECK_MAX_ATTEMPTS s))
    as (Fa & Fo & Fg & Fn & Fw & Fl).
  specialize (Fl id Hv).
  destruct (attemptInsertionLogic q (set_attempt INITIAL_CHECK_MAX_ATTEMPTS s))
    as [b s1]. cbn [fst snd set_attempt initialCheckAttempt observer observing
                    next_observer warnings] in Fa, Fo, Fg, Fn, Fw, Fl.
  rewrite Fa. replace (INITIAL_CHECK_MAX_ATTEMPTS <=? INITIAL_CHECK_MAX_ATTEMPTS)
    with true by reflexivity.
  rewrite orb_true_r. cbn [stop_initial initialCheckAttempt]. rewrite Fa.
  replace (INITIAL_CHECK_MAX_ATTEMPTS <=? INITIAL_CHECK_MAX_ATTEMPTS)
    with true by reflexivity.
  unfold initializeDepositObserver, disconnect, warn, set_attempt.
  cbn [initialCheckAttempt initialCheckIntervalId persistentRecheckIntervalId
       observer timers observing next_observer clarified warnings].
  unfold stop_initial.
  cbn [initialCheckAttempt initialCheckIntervalId persistentRecheckIntervalId
       observer timers observing next_observer clarified warnings].
  rewrite ?Fa, ?Fo, ?Fg, ?Fn, ?Fw, ?He.
  repeat apply conj; try reflexivity; [exact Fl|apply union_empty_r_L].
Qed.

Lemma clarification_check_budget_witness :
  let s := handleUrlChange rooms_page_loading initial in
  let s51 := timerFires 1 rooms_page
               (Nat.iter INITIAL_CHECK_MAX_ATTEMPTS (timerFires 1 rooms_page_loading) s) in
  initialCheckIntervalId s51 = None
  ∧ warnings s51 = 1
  ∧ observing s51 = {[1%positive]}.
Proof.
  destruct (clarification_check_budget 1 rooms_page_loading rooms_page
              (handleUrlChange rooms_page_loading initial))
    as (_ & _ & H1 & _ & H2 & _ & H3);
    [by exists [UrlSignal rooms_page_loading]|reflexivity..|].
  repeat split; assumption.
Defined.

(** ** The persistent re-check *)

Lemma keeps_attemptInsertionLogic id p s :
  persistentRecheckIntervalId s = Some id →
  no_url_change_pending s →
  persistentRecheckIntervalId (snd (attemptInsertionLogic p s)) = Some id
  ∧ no_url_change_pending (snd (attemptInsertionLogic p s)).
Proof.
  intros Hv Hn. unfold attemptInsertionLogic.
  destruct (insertedAny p); cbn [snd add_clarified persistentRecheckIntervalId];
    rewrite ?Hv; [|done].
  split; [done|]. intros id' t. unfold stop_initial, add_clarified.
  cbn [timers initialCheckIntervalId].
  destruct (initialCheckIntervalId s); cbn [Timers.clear Timers.live].
  - intros [_ Hl]%lookup_delete_Some. by eapply Hn.
  - apply Hn.
Qed.

Lemma keeps_step id s e :
  consistent s →
  persistentRecheckIntervalId s = Some id →
  no_url_change_pending s →
  quiet e = true →
  persistentRecheckIntervalId (step s e) = Some id
  ∧ no_url_change_pending (step s e).
Proof.
  intros Hc Hv Hn Hq. destruct e as [p| |id' p|oid relevant p]; try discriminate.
  - cbn [step]. unfold timerFires, Timers.take.
    destruct (Timers.live (timers s) !! id') as [[cb d rep]|] eqn:El; [|done].
    cbn [Timers.callback Timers.repeating].
    set (s0 := set_timers _ s).
    assert (H0 : persistentRecheckIntervalId s0 = Some id ∧ no_url_change_pending s0).
    { split; [exact Hv|]. intros i t. subst s0. cbn [timers set_timers].
      destruct rep; [apply Hn|]. cbn. intros [_ Hl]%lookup_delete_Some. by eapply Hn. }
    destruct H0 as [Hv0 Hn0]. destruct cb; cbn [run_callback].
    + unfold initialCheck.
      pose proof (keeps_attemptInsertionLogic id p s0 Hv0 Hn0) as [Hv1 Hn1].
      destruct (attemptInsertionLogic p s0) as [b s1]. cbn [snd] in *.
      destruct (b || _); [|done].
      unfold initializeDepositObserver, disconnect, stop_initial, warn.
      destruct (_ <=? _); cbn [persistentRecheckIntervalId initialCheckAttempt set_attempt];
        (split; [exact Hv1|]); intros i t; cbn [timers set_attempt];
        destruct (initialCheckIntervalId s1); cbn [Timers.clear Timers.live];
        try (intros [_ Hl]%lookup_delete_Some; by eapply Hn1); apply Hn1.
    + unfold persistentRecheck. destruct (needsReinsertion p); [|done].
      by apply keeps_attemptInsertionLogic.
    + exfalso. by apply (Hn _ _ El).
  - cbn [step]. unfold mutationsDelivered. destruct (bool_decide _); [|done].
    unfold onMutations. destruct relevant; [|done].
    by apply keeps_attemptInsertionLogic.
Qed.

(** X24. The persistent re-check has no budget: once started it runs
    until the next URL change.  From a reachable state in which it is
    running and no [handleUrlChange] is waiting in a timeout, any
    sequence of timer ticks and mutation deliveries leaves the same
    interval pending. *)
Theorem persistent_recheck_runs_until_url_change id s evs :
  reachable s →
  persistentRecheckIntervalId s = Some id →
  no_url_change_pending s →
  forallb quiet evs = true →
  persistentRecheckIntervalId (run evs s) = Some id
  ∧ Timers.live (timers (run evs s)) !! id
    = Some (Timers.Timer PersistentRecheck PERSISTENT_RECHECK_INTERVAL_MS true).
Proof.
  intros Hr Hv Hn Hq. pose proof (clarification_consistent_reachable s Hr) as Hc. clear Hr.
  assert (H : consistent (run evs s)
              ∧ persistentRecheckIntervalId (run evs s) = Some id).
  { revert s Hc Hv Hn. induction evs as [|e evs IH]; intros s Hc Hv Hn; [done|].
    cbn [forallb] in Hq. apply andb_prop in Hq as [Hq1 Hq2].
    cbn [run fold_left].
    destruct (keeps_step id s e Hc Hv Hn Hq1) as [Hv' Hn'].
    apply (IH Hq2); [by apply clarification_consistent_step|exact Hv'|exact Hn']. }
  destruct H as [(_ & _ & _ & _ & Vp & _) Hv']. split; [exact Hv'|by apply Vp].
Qed.

Lemma persistent_recheck_runs_until_url_change_witness :
  let s := run [UrlSignal rooms_page; TimerFires 1 rooms_page] initial in
  let evs := [TimerFires 2 rooms_page; Mutations 1 true rooms_page;
              TimerFires 2 rooms_page_loading] in
  persistentRecheckIntervalId (run evs s) = Some 2%positive.
Proof.
  apply (persistent_recheck_runs_until_url_change 2
           (run [UrlSignal rooms_page; TimerFires 1 rooms_page] initial)).
  - by eexists.
  - reflexivity.
  - intros id t. vm_compute.
    destruct id as [[]|[]|]; intros [= <-]; discriminate.
  - reflexivity.
Defined.

(** ** Elements rewritten by script 7 *)

(** X25. A total that script 7 has rewritten is never clarified: its text
    contains "Only Pay", so [insertClarification] skips it whatever
    deposit could be computed, and the persistent re-check does not ask
    for it.  On a cart whose two totals are rewritten and that lists no
    room prices, [attemptInsertionLogic] inserts nothing and changes
    nothing. *)
Theorem rewritten_totals_are_skipped half balance :
  (∀ el, text el = DepositRewrite.banner_text half
         ∨ text el = DepositRewrite.grand_text half balance →
         insertClarification el = false)
  ∧ needsReinsertion (rewritten_cart half balance) = false
  ∧ ∀ s, attemptInsertionLogic (rewritten_cart half balance) s = (false, s).
Proof.
  assert (Hb : includes "Only Pay" (DepositRewrite.banner_text half) = true)
    by reflexivity.
  assert (Hg : includes "Only Pay" (DepositRewrite.grand_text half balance) = true)
    by reflexivity.
  split; [|split].
  - intros el [E|E]; unfold insertClarification; rewrite E, ?Hb, ?Hg; reflexivity.
  - unfold needsReinsertion, rewritten_cart, price_elements.
    cbn -[includes DepositRewrite.grand_text DepositRewrite.banner_text].
    rewrite Hb, Hg. reflexivity.
  - intros s. apply nothing_inserted.
    unfold insertedAny, rewritten_cart, price_elements, insertClarification.
    cbn -[includes DepositRewrite.grand_text DepositRewrite.banner_text].
    rewrite Hb, Hg. reflexivity.
Qed.

Lemma rewritten_totals_are_skipped_witness :
  insertClarification
    {| text := DepositRewrite.banner_text 17085; deposit_amount := true;
       clarification := false |} = false.
Proof.
  destruct (rewritten_totals_are_skipped 17085 17085) as (H & _).
  apply H. left. reflexivity.
Defined.

End DepositClarificationSpec.

Module ReservationTextSpec.
Import JsString Purchase PurchaseTrace ReservationText.

Lemma includes_unfold needle s :
  includes needle s
  = String.prefix needle s
    || match s with EmptyString => false | String _ r => includes needle r end.
Proof. by destruct s. Qed.

Lemma prefix_app needle rest : String.prefix needle (needle +:+ rest) = true.
Proof.
  induction needle as [|c needle IH]; [apply CookiesSpec.prefix_nil|].
  change (String c needle +:+ rest) with (String c (needle +:+ rest)).
  rewrite RegexSpec.prefix_cons. by destruct (ascii_dec c c).
Qed.

Lemma includes_app pre needle rest :
  includes needle (pre +:+ (needle +:+ rest)) = true.
Proof.
  induction pre as [|c pre IH].
  - change (EmptyString +:+ (needle +:+ rest)) with (needle +:+ rest).
    rewrite includes_unfold, prefix_app. reflexivity.
  - change (String c pre +:+ ?y) with (String c (pre +:+ y)).
    rewrite includes_unfold, IH. apply orb_true_r.
Qed.

Lemma match_hash_id_skip pre : ∀ s,
  Regex.string_forall no_hash pre = true →
  match_hash_id (pre +:+ s) = match_hash_id s.
Proof.
  induction pre as [|c pre IH]; intros s H; [reflexivity|].
  cbn [Regex.string_forall] in H. apply andb_prop in H as [Hc Hp].
  change (String c pre +:+ s) with (String c (pre +:+ s)).
  cbn [match_hash_id]. unfold no_hash in Hc. apply negb_true_iff in Hc.
  rewrite Hc. by apply IH.
Qed.

Lemma take_while_id id : ∀ rest,
  Regex.string_forall is_id_char id = true → ends_id rest = true →
  take_while is_id_char (id +:+ rest) = id.
Proof.
  induction id as [|c id IH]; intros rest Hid Hr.
  - change (EmptyString +:+ rest) with rest. destruct rest as [|c r]; [reflexivity|].
    cbn [ends_id] in Hr. apply negb_true_iff in Hr. cbn [take_while]. by rewrite Hr.
  - cbn [Regex.string_forall] in Hid. apply andb_prop in Hid as [Hc Hid].
    change (String c id +:+ rest) with (String c (id +:+ rest)).
    cbn [take_while]. rewrite Hc. f_equal. by apply IH.
Qed.

Lemma match_hash_id_here id rest :
  well_formed_id id → ends_id rest = true →
  match_hash_id (String "#" (id +:+ rest)) = Some id.
Proof.
  intros [Ht Hid] Hr. cbn [match_hash_id].
  change (code "#" =? 35)%N with true. cbn iota.
  rewrite (take_while_id id rest Hid Hr). by destruct id.
Qed.

Lemma loop_skips before : ∀ rest,
  Forall (λ t, includes "reservation number is #" t = false) before →
  getReservationIdFromPageText_loop (before ++ rest)
  = getReservationIdFromPageText_loop rest.
Proof.
  induction before as [|t before IH]; intros rest H; [reflexivity|].
  apply Forall_cons in H as [Ht Hb].
  cbn [app getReservationIdFromPageText_loop]. rewrite Ht, andb_false_r. by apply IH.
Qed.

Lemma loop_reads t id after :
  includes "reservation number is #" t = true →
  match_hash_id t = Some id →
  getReservationIdFromPageText_loop (t :: after) = Some id.
Proof.
  intros Hi Hm. cbn [getReservationIdFromPageText_loop]. rewrite Hi, Hm.
  destruct t; [discriminate|reflexivity].
Qed.

(** X26. [getReservationIdFromPageText] reads the number that the first
    paragraph with the phrase "reservation number is #" announces, as
    long as no other hash sign comes before the phrase in that
    paragraph.  The pattern is not tied to the phrase: when the
    paragraph holds an earlier [#] followed by letters, digits or
    dashes, that earlier run is returned instead. *)
Theorem reservation_number_is_read p before pre id rest after :
  Forall (λ t, includes "reservation number is #" t = false) before →
  well_formed_id id → ends_id rest = true →
  let page := with_paragraphs p (before ++ sentence pre id rest :: after) in
  (Regex.string_forall no_hash pre = true →
   getReservationIdFromPageText page = Some id)
  ∧ (∀ pre1 id0 c pre2,
       pre = pre1 +:+ String "#" (id0 +:+ String c pre2) →
       Regex.string_forall no_hash pre1 = true →
       well_formed_id id0 → is_id_char c = false →
       getReservationIdFromPageText page = Some id0).
Proof.
  intros Hb Hid Hr. cbn zeta.
  unfold getReservationIdFromPageText, with_paragraphs. cbn [be_text_paragraphs].
  rewrite (loop_skips before _ Hb).
  assert (Hi : includes "reservation number is #" (sentence pre id rest) = true)
    by apply includes_app.
  split.
  - intros Hp. apply loop_reads; [exact Hi|].
    unfold sentence. rewrite (match_hash_id_skip pre) by exact Hp.
    change ("reservation number is #" +:+ (id +:+ rest))
      with ("reservation number is " +:+ String "#" (id +:+ rest)).
    rewrite (match_hash_id_skip "reservation number is ") by reflexivity.
    by apply match_hash_id_here.
  - intros pre1 id0 c pre2 -> Hp1 Hid0 Hc. apply loop_reads; [exact Hi|].
    unfold sentence. rewrite CookiesSpec.append_assoc.
    rewrite (match_hash_id_skip pre1) by exact Hp1.
    change (String "#" (id0 +:+ String c pre2) +:+ ?y)
      with (String "#" ((id0 +:+ String c pre2) +:+ y)).
    rewrite CookiesSpec.append_assoc.
    apply match_hash_id_here; [exact Hid0|].
    change (String c pre2 +:+ ?y) with (String c (pre2 +:+ y)).
    cbn [ends_id]. by rewrite Hc.
Qed.

Lemma reservation_number_is_read_witness :
  getReservationIdFromPageText
    (with_paragraphs confirmation_page
       ["Thank you!"; sentence "Your " "7742-ZX" ". See you soon."; "#1"])
  = Some "7742-ZX"%string
  ∧ getReservationIdFromPageText
      (with_paragraphs confirmation_page
         [sentence "Room #12: your " "7742-ZX" "."])
    = Some "12"%string.
Proof.
  split.
  - apply (reservation_number_is_read confirmation_page ["Thank you!"%string]
             "Your " "7742-ZX" ". See you soon." ["#1"%string]).
    + repeat constructor.
    + split; reflexivity.
    + reflexivity.
    + reflexivity.
  - refine (proj2 (reservation_number_is_read confirmation_page []
                     "Room #12: your " "7742-ZX" "." [] _ _ _)
              "Room " "12" ":"%char " your " _ _ _ _); try reflexivity.
    + constructor.
    + split; reflexivity.
    + split; reflexivity.
Defined.

End ReservationTextSpec.

Module PaymentEventsSpec.
Import JsString PaymentEvents.












Lemma poll_retries id name url attempts d p s :
  Timers.live (timers s) !! id
  = Some (Timers.Timer (CheckPrice name url attempts) d false) →
  extracted_value p = None →
  effects (timerFires id p s) = effects s
  ∧ Timers.live (timers (timerFires id p s)) !! Timers.next_id (timers s)
    = Some (Timers.Timer (CheckPrice name url (S attempts)) 200 false).
Proof.
  intros Hl Hv. unfold timerFires, Timers.take. rewrite Hl.
  cbn [Timers.callback Timers.repeating run_callback]. unfold checkPrice.
  rewrite Hv. cbn. split; [reflexivity|apply lookup_insert_eq].
Qed.

(** X28. The price poll of the payment events is not tied to the payment
    step and has no budget.  A pending [checkPrice] runs on whatever
    pages the visitor goes through; while none shows a total it
    schedules itself again, and on the first page that shows a total
    greater than zero it sends its event: the POST carries the URL of
    that page next to the [event_source_url] captured when the event
    was triggered. *)
Theorem payment_value_poll_follows_the_page ps : ∀ id name url attempts d q v s,
  Timers.live (timers s) !! id
  = Some (Timers.Timer (CheckPrice name url attempts) d false) →
  Forall (λ p, extracted_value p = None) ps →
  extracted_value q = Some v →
  fbq q ≠ Purchase.FbqThrows →
  let '(id', s') := poll_chain id ps s in
  Timers.live (timers s') !! id'
  = Some (Timers.Timer (CheckPrice name url (attempts + length ps))
                       (match ps with [] => d | _ => 200 end) false)
  ∧ effects s' = effects s
  ∧ effects (timerFires id' q s')
    = effects s
      ++ match fbq q with
         | Purchase.FbqUndefined => []
         | _ => [Pixel name {| event_source_url := url; value := v |}]
         end
      ++ [Capi name (hook_of name) (href q)
               {| event_source_url := url; value := v |}].
Proof.
  induction ps as [|p ps IH]; intros id name url attempts d q v s Hl Hps Hv Hfbq.
  - cbn [poll_chain length]. rewrite Nat.add_0_r. split; [exact Hl|]. split; [done|].
    unfold timerFires, Timers.take. rewrite Hl.
    cbn [Timers.callback Timers.repeating run_callback]. unfold checkPrice.
    rewrite Hv. unfold send. cbn [effects set_timers]. by destruct (fbq q).
  - apply Forall_cons in Hps as [Hp Hps]. cbn [poll_chain].
    destruct (poll_retries id name url attempts d p s Hl Hp) as [He Hl'].
    specialize (IH (Timers.next_id (timers s)) name url (S attempts) 200 q v
                   (timerFires id p s) Hl' Hps Hv Hfbq).
    destruct (poll_chain _ ps _) as [id' s']. destruct IH as (I1 & I2 & I3).
    rewrite I2, He in *. cbn [length]. rewrite Nat.add_succ_r.
    split; [|split; [done|exact I3]].
    rewrite I1. by destruct ps.
Qed.

Lemma payment_value_poll_follows_the_page_witness :
  let s := run [Signal payment_page_loading] initial in
  posts (timerFires 3 confirmation_page
           (snd (poll_chain 1 [payment_page_loading; guests_page] s)))
  = [(href confirmation_page,
      {| event_source_url := href payment_page_loading; value := 34171 |})].
Proof.
  pose proof (payment_value_poll_follows_the_page
                [payment_page_loading; guests_page] 1 AddPaymentInfo
                (href payment_page_loading) 0 500 confirmation_page 34171%N
                (run [Signal payment_page_loading] initial) eq_refl) as H.
  cbn zeta. unfold posts.
  destruct (poll_chain 1 [payment_page_loading; guests_page]
              (run [Signal payment_page_loading] initial)) as [id' s'] eqn:E.
  assert (Hid : id' = 3%positive) by (by injection E as <- _).
  destruct H as (_ & _ & H); [by repeat constructor|reflexivity|discriminate|].
  cbn [snd]. rewrite <- Hid, H. reflexivity.
Defined.

End PaymentEventsSpec.
